(** * Masyde website mirror: crawl, fetch and persist pipeline

    A shallow embedding of [WebsiteProcessor] (src/Masyde-ws.py) and the
    properties of its crawl scheduler, fetcher, asset store, URL rewriter
    and content analyzer.

    Conventions.
    - Python [str] values are [string]; a character of the source is a
      character here.  Python [int] values are [Z].
    - [self.visited_urls] is a [gset string], [self.redirects] a
      [gmap string string], [self.sitemap] a [list string].
    - Library code (urllib, pathlib, re, parsel, esprima, httpx, playwright)
      is not part of the repository: its pure functions are the fields of
      [Env], its answers at run time are the fields of [World], an oracle
      indexed by the number of suspension points passed so far.
    - Every effect of the code (log line, request, sleep, file write) is
      appended to [trace], oldest first.
    - The suspension points of the model are the requests, the browser
      loads and the sleeps; a [stop()] from the other thread takes effect
      when the pending one is passed.
    - The recursion of [_fetch_with_redirects] and [_crawl_page] is bounded
      by [fuel], the depth the call stack may reach; a call that needs more
      ends in [OutOfFuel] with the session as it then is. *)

From Stdlib Require Import ZArith Lia String Ascii List Bool.
From stdpp Require Import base option list gmap strings.

Local Open Scope string_scope.
Local Open Scope list_scope.
Local Open Scope Z_scope.

(** ** Python string methods used by the source *)

Module PyStr.

(** [s.lstrip("/")] *)
Fixpoint lstrip (c : ascii) (s : string) : string :=
  match s with
  | String a r => if Ascii.eqb a c then lstrip c r else s
  | EmptyString => EmptyString
  end.

(** [s.rstrip("/")] *)
Fixpoint rstrip (c : ascii) (s : string) : string :=
  match s with
  | String a r =>
      match rstrip c r with
      | EmptyString =>
          if Ascii.eqb a c then EmptyString else String a EmptyString
      | r' => String a r'
      end
  | EmptyString => EmptyString
  end.

(** [s.startswith(p)] *)
Definition startswith (s p : string) : bool := String.prefix p s.

(** [p in s] *)
Fixpoint contains (p s : string) : bool :=
  String.prefix p s ||
  match s with
  | String _ r => contains p r
  | EmptyString => false
  end.

(** the truth value of a string: [bool(s)] *)
Definition truthy (s : string) : bool :=
  match s with EmptyString => false | _ => true end.

(** [a or b] on strings *)
Definition or_else (a b : string) : string := if truthy a then a else b.

(** [s.replace(old, new)] for a non-empty [old]: every occurrence, left to
    right, without overlap.  [skip] counts the characters of a matched
    occurrence still to be dropped. *)
Fixpoint replace_from (skip : nat) (old new s : string) : string :=
  match s with
  | EmptyString => EmptyString
  | String a r =>
      match skip with
      | S k => replace_from k old new r
      | O =>
          if String.prefix old s
          then new +:+ replace_from (Nat.pred (String.length old)) old new r
          else String a (replace_from O old new r)
      end
  end.

Definition replace (old new s : string) : string := replace_from O old new s.

(** [s[:n]] *)
Fixpoint take (n : nat) (s : string) : string :=
  match n, s with
  | S k, String a r => String a (take k r)
  | _, _ => EmptyString
  end.

End PyStr.

(** ** Library functions the source calls *)

(** A parsed document, as the XPath queries of the source see it: the
    elements in document order, and the text nodes in document order. *)
Record Element := {
  tag : string;
  attrs : list (string * string);
  own_text : list string;
  markup : string
}.

Record Document := {
  elements : list Element;
  text_nodes : list string
}.

(** A top-level node of an esprima syntax tree. *)
Inductive JsNode :=
| VariableDeclaration (ids : list string)
| OtherNode (src : string).

(** One entry of [analysis["api_endpoints"]]. *)
Record ApiEndpoint := {
  ep_url : string;
  ep_status : Z;
  ep_response : string
}.

(** [self.analysis] *)
Record Analysis := {
  keywords : list string;
  metadata : gmap string string;
  hidden_elements : list string;
  inline_scripts : list string;
  api_endpoints : list ApiEndpoint;
  frontend_frameworks : list string
}.

Record Env := {
  (** [urljoin(base, url)] *)
  urljoin : string -> string -> string;
  (** [urlparse(url).path] and [urlparse(url).netloc] *)
  url_path : string -> string;
  url_netloc : string -> string;
  (** [Path(p).suffix.lower()] *)
  path_suffix : string -> string;
  (** [a / b] on paths *)
  path_join : string -> string -> string;
  (** [s.lower()] *)
  lower : string -> string;
  (** [s.split()] *)
  split_words : string -> list string;
  (** [Counter(words).most_common(n)], the words only *)
  most_common : nat -> list string -> list string;
  (** [re.search(pattern, s)]: [None] stands for [re.error] *)
  re_search : string -> string -> option bool;
  (** [re.findall] with the pattern of [_analyze_js] *)
  find_api_urls : string -> list string;
  (** [Selector(text=content)]: [None] stands for an exception *)
  parse_html : string -> option Document;
  (** [esprima.parseScript(content)]: [None] stands for an exception *)
  parse_script : string -> option (list JsNode);
  (** [str(tree)] *)
  tree_str : list JsNode -> string;
  (** [b.decode("utf-8", errors="ignore")] *)
  decode_utf8 : string -> string
}.

(** [e] with another script parser and another printer of syntax trees. *)
Definition with_script_parser (parse : string -> option (list JsNode))
    (print : list JsNode -> string) (e : Env) : Env :=
  {| urljoin := urljoin e; url_path := url_path e; url_netloc := url_netloc e;
     path_suffix := path_suffix e; path_join := path_join e; lower := lower e;
     split_words := split_words e; most_common := most_common e;
     re_search := re_search e; find_api_urls := find_api_urls e;
     parse_html := parse_html e; parse_script := parse;
     tree_str := print; decode_utf8 := decode_utf8 e |}.

(** ** Asset store: path derivation of [_save_file] *)

Module AssetStore.

Definition known_ext : list string :=
  [".html"; ".css"; ".js"; ".png"; ".jpg"; ".jpeg"; ".gif"; ".svg"].

Definition image_ext : list string :=
  [".png"; ".jpg"; ".jpeg"; ".gif"; ".svg"].

Definition mem (x : string) (l : list string) : bool :=
  existsb (String.eqb x) l.

(** What [_save_file] has in [path], [ext] and [subdir] when it reaches
    line 289. *)
Record Derived := {
  d_path : string;
  d_ext : string;
  d_subdir : string
}.

Section Derive.
Context (E : Env).

(** Lines 264-271. *)
Definition base_path (url : string) : string * string :=
  let path := PyStr.lstrip "/" (url_path E url) in
  let ext := path_suffix E path in
  if negb (PyStr.truthy path) then ("index.html", ".html")
  else if negb (mem ext known_ext)
       then (PyStr.rstrip "/" path +:+ "/index.html", ".html")
       else (path, ext).

(** Lines 273-287. *)
Definition classify (content_type ext : string) : string * string :=
  if PyStr.startswith content_type "text/html" then ("html", ".html")
  else if PyStr.startswith content_type "text/css" then ("css", ".css")
  else if PyStr.startswith content_type "application/javascript"
          || PyStr.startswith content_type "text/javascript"
       then ("js", ".js")
  else if PyStr.startswith content_type "image/"
       then ("images", if mem ext image_ext then ext else ".png")
  else ("other", PyStr.or_else ext ".bin").

Definition derive (url content_type : string) : Derived :=
  let '(path, ext) := base_path url in
  let '(subdir, ext') := classify content_type ext in
  {| d_path := path; d_ext := ext'; d_subdir := subdir |}.

(** Lines 289 and 292: the two destinations. *)
Definition input_path (input_dir url content_type : string) : string :=
  let d := derive url content_type in
  path_join E
    (path_join E (path_join E input_dir (url_netloc E url)) (d_subdir d))
    (d_path d).

Definition src_path (src_dir url content_type : string) : string :=
  path_join E src_dir (d_path (derive url content_type)).

End Derive.
End AssetStore.

(** ** URL rewriter: [_rewrite_urls] *)

Module Rewriter.

(** The characters of [s] before the first [q], when [s] has a [q]. *)
Fixpoint until_quote (q : ascii) (s : string) : option string :=
  match s with
  | EmptyString => None
  | String a r =>
      if Ascii.eqb a q then Some EmptyString
      else option_map (String a) (until_quote q r)
  end.

(** [String.prefix] with the rest of the string. *)
Fixpoint strip_prefix (p s : string) : option string :=
  match p, s with
  | EmptyString, _ => Some s
  | String a p', String b s' =>
      if Ascii.eqb a b then strip_prefix p' s' else None
  | String _ _, EmptyString => None
  end.

Definition quote_str (q : ascii) : string := String q EmptyString.

(** The two quote characters of the patterns of lines 320 and 321. *)
Definition dquote : ascii := ascii_of_nat 34.
Definition squote : ascii := ascii_of_nat 39.

(** A match at the head of [s] of the pattern of line 320 or 321, with [q]
    the quote: [href] or [src], then [=], then [q], then as many characters
    other than [q] as there are, then [q].  The result is [group(0)] and
    [group(1)]. *)
Definition match_here (q : ascii) (s : string) : option (string * string) :=
  let try_name (name : string) :=
    match strip_prefix (name +:+ "=" +:+ quote_str q) s with
    | Some rest =>
        match until_quote q rest with
        | Some v => Some (name +:+ "=" +:+ quote_str q +:+ v +:+ quote_str q, v)
        | None => None
        end
    | None => None
    end in
  match try_name "href" with
  | Some m => Some m
  | None => try_name "src"
  end.

(** [re.sub(pattern, repl, s)] for the pattern above: leftmost matches,
    no overlap.  [repl] gets [group(0)] and [group(1)]; [None] is an
    exception raised by [repl], which leaves [re.sub].  [skip] counts the
    characters of the current match still to be passed over. *)
Fixpoint sub_from (q : ascii) (repl : string -> string -> option string)
    (skip : nat) (s : string) : option string :=
  match s with
  | EmptyString => Some EmptyString
  | String a r =>
      match skip with
      | S k => sub_from q repl k r
      | O =>
          match match_here q s with
          | Some (g0, g1) =>
              match repl g0 g1 with
              | Some out =>
                  option_map (String.append out)
                    (sub_from q repl (Nat.pred (String.length g0)) r)
              | None => None
              end
          | None => option_map (String a) (sub_from q repl O r)
          end
      end
  end.

Definition re_sub (q : ascii) (repl : string -> string -> option string)
    (s : string) : option string :=
  sub_from q repl O s.

Section Rewrite.
Context (E : Env).

(** [replace_url(match)], lines 313-318.  The patterns have one group, so
    [match.group(2)] raises [IndexError] whenever [match.group(1)] is
    empty. *)
Definition replace_url (base_url g0 g1 : string) : option string :=
  if PyStr.truthy g1 then
    let abs_url := urljoin E base_url g1 in
    let rel_path :=
      PyStr.or_else (PyStr.lstrip "/" (url_path E abs_url)) "index.html" in
    Some (PyStr.replace g1 ("/" +:+ rel_path) g0)
  else None.

(** [_rewrite_urls(content, base_url)]: the text returned, and whether the
    [except] branch logged an error. *)
Definition rewrite_urls (content base_url : string) : string * bool :=
  match re_sub dquote (replace_url base_url) content with
  | None => (content, true)
  | Some c1 =>
      match re_sub squote (replace_url base_url) c1 with
      | None => (c1, true)
      | Some c2 => (c2, false)
      end
  end.

End Rewrite.
End Rewriter.

(** ** XPath queries of the source over a parsed document *)

Module Query.

Definition tag_is (t : string) (e : Element) : bool := String.eqb (tag e) t.

Definition attr_values (name : string) (e : Element) : list string :=
  List.map snd (List.filter (fun a => String.eqb (fst a) name) (attrs e)).

Definition has_attr (name : string) (e : Element) : bool :=
  existsb (fun a => String.eqb (fst a) name) (attrs e).

(** [//img/@src], [//link[@rel='stylesheet']/@href], [//script/@src]:
    lines 157-159, in the order of [assets.extend]. *)
Definition asset_refs (d : Document) : list string :=
  flat_map (attr_values "src") (List.filter (tag_is "img") (elements d))
  ++ flat_map (attr_values "href")
       (List.filter
          (fun e => tag_is "link" e
                    && existsb (String.eqb "stylesheet") (attr_values "rel" e))
          (elements d))
  ++ flat_map (attr_values "src") (List.filter (tag_is "script") (elements d)).

(** [//a/@href], line 160. *)
Definition link_refs (d : Document) : list string :=
  flat_map (attr_values "href") (List.filter (tag_is "a") (elements d)).

(** [//meta[@name or @property]], line 330. *)
Definition meta_elements (d : Document) : list Element :=
  List.filter
    (fun e => tag_is "meta" e && (has_attr "name" e || has_attr "property" e))
    (elements d).

(** [.//@name|.//@property] evaluated on the document, line 332: the
    attribute nodes in document order. *)
Definition name_or_property (d : Document) : list string :=
  flat_map
    (fun e =>
       List.map snd
         (List.filter
            (fun a =>
               String.eqb (fst a) "name" || String.eqb (fst a) "property")
            (attrs e)))
    (elements d).

(** [.//@content] evaluated on the document, line 333. *)
Definition content_attrs (d : Document) : list string :=
  flat_map (attr_values "content") (elements d).

(** [.get()]: the first result, if any. *)
Definition get (l : list string) : option string := head l.

(** Line 342. *)
Definition hidden (d : Document) : list string :=
  List.map markup
    (List.filter
       (fun e =>
          match attr_values "style" e with
          | st :: _ =>
              PyStr.contains "display:none" st
              || PyStr.contains "visibility:hidden" st
          | [] => false
          end)
       (elements d)).

(** [//script[not(@src)]/text()], line 345. *)
Definition inline_script_texts (d : Document) : list string :=
  flat_map own_text
    (List.filter (fun e => tag_is "script" e && negb (has_attr "src" e))
       (elements d)).

End Query.

(** ** Content analyzer: [_analyze_content] on [self.analysis] *)

Module Analyzer.

Definition empty_analysis : Analysis :=
  {| keywords := []; metadata := ∅; hidden_elements := [];
     inline_scripts := []; api_endpoints := []; frontend_frameworks := [] |}.

Definition set_metadata (m : gmap string string) (a : Analysis) : Analysis :=
  {| keywords := keywords a; metadata := m;
     hidden_elements := hidden_elements a; inline_scripts := inline_scripts a;
     api_endpoints := api_endpoints a;
     frontend_frameworks := frontend_frameworks a |}.

Definition add_endpoint (e : ApiEndpoint) (a : Analysis) : Analysis :=
  {| keywords := keywords a; metadata := metadata a;
     hidden_elements := hidden_elements a; inline_scripts := inline_scripts a;
     api_endpoints := api_endpoints a ++ [e];
     frontend_frameworks := frontend_frameworks a |}.

(** A value that is [None] or empty is falsy. *)
Definition truthy_opt (o : option string) : option string :=
  match o with
  | Some s => if PyStr.truthy s then Some s else None
  | None => None
  end.

(** Lines 330-335.  The body of the loop does not use its variable [m]:
    both queries are evaluated on [selector], the whole document. *)
Definition record_metadata (d : Document) (md : gmap string string)
    : gmap string string :=
  fold_left
    (fun (acc : gmap string string) (_ : Element) =>
       match truthy_opt (Query.get (Query.name_or_property d)),
             truthy_opt (Query.get (Query.content_attrs d)) with
       | Some name, Some value => <[name := value]> acc
       | _, _ => acc
       end)
    (Query.meta_elements d) md.

Definition join_space (l : list string) : string := String.concat " " l.

Section Analyze.
Context (E : Env).

(** Lines 337-340. *)
Definition page_keywords (d : Document) : list string :=
  List.filter (fun w => (3 <? String.length w)%nat)
    (most_common E 20 (split_words E (lower E (join_space (text_nodes d))))).

(** Lines 348-353. *)
Definition frameworks (content : string) : list string :=
  (if PyStr.contains "react" (lower E content) then ["React"] else [])
  ++ (if PyStr.contains "vue" (lower E content) then ["Vue"] else [])
  ++ (if PyStr.contains "angular" (lower E content) then ["Angular"] else []).

(** [_analyze_content(selector, content, url)] *)
Definition analyze_content (d : Document) (content : string) (a : Analysis)
    : Analysis :=
  {| keywords := keywords a ++ page_keywords d;
     metadata := record_metadata d (metadata a);
     hidden_elements := hidden_elements a ++ Query.hidden d;
     inline_scripts := inline_scripts a ++ Query.inline_script_texts d;
     api_endpoints := api_endpoints a;
     frontend_frameworks := frontend_frameworks a ++ frameworks content |}.

(** Lines 373-378: the renaming pass and the value it leaves in the local
    variable [content]. *)
Definition rename_node (n : JsNode) : JsNode :=
  match n with
  | VariableDeclaration ids =>
      VariableDeclaration (List.map (String.append "var_") ids)
  | OtherNode src => OtherNode src
  end.

Definition renamed_local (content : string) : string :=
  match parse_script E content with
  | Some tree => tree_str E (List.map rename_node tree)
  | None => content
  end.

End Analyze.
End Analyzer.

(** ** The environment at run time, the configuration and the session *)

(** What is written to a file, or handed to [_save_file]: [str], [bytes],
    or the text [json.dumps] makes of an analysis. *)
Inductive Body :=
| Str (s : string)
| Bytes (b : string)
| Json (a : Analysis).

(** An httpx response, as far as the source reads it. *)
Record Response := {
  status_code : Z;
  location : option string;
  content_type : option string;
  text : string;
  content : string
}.

(** The outcome of a request: a response, [httpx.RequestError], or another
    exception. *)
Inductive Answer :=
| Responded (r : Response)
| RequestError
| OtherError.

(** The outcome of lines 187-191: [launch] raised, a later step raised (the
    browser stays open), or the page was loaded and the browser closed. *)
Inductive BrowserAnswer :=
| LaunchRaised
| PageRaised
| Loaded (html : string).

Record World := {
  (** [self.client.get(url)], line 194 *)
  client_get : nat -> string -> Answer;
  (** [self.client.get(url, follow_redirects=True)], line 229 *)
  client_get_follow : nat -> string -> Answer;
  (** [httpx.get(api_url, timeout=10)], line 363 *)
  httpx_get : nat -> string -> Answer;
  (** lines 187-191 *)
  browser : nat -> string -> BrowserAnswer;
  (** [stop()] is called while suspension point [k] is pending *)
  stop_pressed : nat -> bool;
  (** [p.parent.mkdir(parents=True, exist_ok=True)] succeeds *)
  mkdir_ok : string -> bool;
  (** [aiofiles.open(p, mode)] succeeds *)
  open_ok : string -> bool;
  (** [httpx.AsyncClient(...)] succeeds, line 114 *)
  client_created : bool;
  (** the import of line 42 succeeds *)
  playwright_available : bool;
  (** [async_playwright().start()] succeeds, line 117 *)
  playwright_started : bool
}.

(** The arguments of [WebsiteProcessor.__init__]; [input_dir] is the
    time-stamped run directory. *)
Record Config := {
  cfg_url : string;
  input_dir : string;
  crawl_depth : Z;
  retries : Z;
  include : option string;
  exclude : option string;
  cfg_use_browser : bool
}.

Inductive Level := Info | Warning | Error.

(** The messages of [self.log]. *)
Inductive Msg :=
| MNoUrl
| MStarting (url : string)
| MPlaywrightFailed
| MComplete
| MDownloadFailed
| MStopping
| MCrawling (url : string) (depth : Z)
| MProcessingError (url : string)
| MMaxRetries (url : string)
| MNoLocation (url : string)
| MRedirect (url next : string)
| MFailedFetch (url : string) (status : Z)
| MRequestError (url : string)
| MUnexpected (url : string)
| MAssetFailed (url : string) (status : Z)
| MAssetAttempt (url : string) (attempt : Z)
| MAssetUnexpected (url : string)
| MInvalidRegex
| MSaved (url p1 p2 : string)
| MSaveError (url : string)
| MRewriteError
| MSitemapSaved
| MSitemapError
| MAnalysisSaved
| MAnalysisError
| MZipSaved
| MZipError.

(** A page is fetched in the call of [_crawl_page] with this [depth]. *)
Inductive FetchKind :=
| Page (depth : Z)
| Asset.

(** What the run does, in order. *)
Inductive Event :=
| Log (lvl : Level) (m : Msg)
(** [self.visited_urls.add(url)], lines 143 and 225 *)
| VisitedAdd (url : string)
(** the scheduler hands [url] to the fetcher: the call of line 147, the
    loop of line 227 *)
| Fetch (k : FetchKind) (url : string)
(** the request of line 194, in the call with this [attempt] *)
| Get (url : string) (attempt : Z)
(** the request of line 229 *)
| GetAsset (url : string) (attempt : Z)
(** the request of line 363 *)
| Probe (url : string)
(** lines 187 and 191 *)
| BrowserLaunch (url : string) (attempt : Z)
| BrowserClose
(** [asyncio.sleep(secs)] *)
| Sleep (secs : Z)
| WriteFile (path : string).

Record State := {
  running : bool;
  use_browser : bool;
  visited_urls : gset string;
  redirects : gmap string string;
  sitemap : list string;
  analysis : Analysis;
  files : gmap string Body;
  ticks : nat;
  trace : list Event
}.

(** The result of a call: it returned [a], or the call stack grew past the
    bound the model was given.  The session is kept in both cases. *)
Inductive Res (A : Type) :=
| Done (a : A) (s : State)
| OutOfFuel (s : State).
Arguments Done {A} a s.
Arguments OutOfFuel {A} s.

Definition res_state {A : Type} (r : Res A) : State :=
  match r with
  | Done _ s => s
  | OutOfFuel s => s
  end.

Definition res_value {A : Type} (r : Res A) : option A :=
  match r with
  | Done a _ => Some a
  | OutOfFuel _ => None
  end.

Module Session.

Definition set_running (b : bool) (s : State) : State :=
  {| running := b; use_browser := use_browser s;
     visited_urls := visited_urls s; redirects := redirects s;
     sitemap := sitemap s; analysis := analysis s; files := files s;
     ticks := ticks s; trace := trace s |}.

Definition set_use_browser (b : bool) (s : State) : State :=
  {| running := running s; use_browser := b;
     visited_urls := visited_urls s; redirects := redirects s;
     sitemap := sitemap s; analysis := analysis s; files := files s;
     ticks := ticks s; trace := trace s |}.

Definition set_visited (v : gset string) (s : State) : State :=
  {| running := running s; use_browser := use_browser s;
     visited_urls := v; redirects := redirects s;
     sitemap := sitemap s; analysis := analysis s; files := files s;
     ticks := ticks s; trace := trace s |}.

Definition set_redirects (r : gmap string string) (s : State) : State :=
  {| running := running s; use_browser := use_browser s;
     visited_urls := visited_urls s; redirects := r;
     sitemap := sitemap s; analysis := analysis s; files := files s;
     ticks := ticks s; trace := trace s |}.

Definition set_sitemap (l : list string) (s : State) : State :=
  {| running := running s; use_browser := use_browser s;
     visited_urls := visited_urls s; redirects := redirects s;
     sitemap := l; analysis := analysis s; files := files s;
     ticks := ticks s; trace := trace s |}.

Definition set_analysis (a : Analysis) (s : State) : State :=
  {| running := running s; use_browser := use_browser s;
     visited_urls := visited_urls s; redirects := redirects s;
     sitemap := sitemap s; analysis := a; files := files s;
     ticks := ticks s; trace := trace s |}.

Definition set_files (f : gmap string Body) (s : State) : State :=
  {| running := running s; use_browser := use_browser s;
     visited_urls := visited_urls s; redirects := redirects s;
     sitemap := sitemap s; analysis := analysis s; files := f;
     ticks := ticks s; trace := trace s |}.

Definition set_ticks (n : nat) (s : State) : State :=
  {| running := running s; use_browser := use_browser s;
     visited_urls := visited_urls s; redirects := redirects s;
     sitemap := sitemap s; analysis := analysis s; files := files s;
     ticks := n; trace := trace s |}.

(** Append one event. *)
Definition emit (e : Event) (s : State) : State :=
  {| running := running s; use_browser := use_browser s;
     visited_urls := visited_urls s; redirects := redirects s;
     sitemap := sitemap s; analysis := analysis s; files := files s;
     ticks := ticks s; trace := trace s ++ [e] |}.

Definition log (lvl : Level) (m : Msg) (s : State) : State :=
  emit (Log lvl m) s.

(** [self.visited_urls.add(url)] *)
Definition visited_add (url : string) (s : State) : State :=
  emit (VisitedAdd url) (set_visited ({[url]} ∪ visited_urls s) s).

(** [self.sitemap.append(url)] *)
Definition sitemap_append (url : string) (s : State) : State :=
  set_sitemap (sitemap s ++ [url]) s.

(** [f.write(body)] on the file opened at [path] *)
Definition write (path : string) (body : Body) (s : State) : State :=
  emit (WriteFile path) (set_files (<[path := body]> (files s)) s).

End Session.

(** ** The processor: filter, asset store, fetcher, scheduler *)

Module Crawler.
Import Session.

Section Processor.
Context (E : Env) (W : World) (C : Config).

(** [self.src_dir] and [self.root_domain], lines 70 and 72. *)
Definition src_dir : string := path_join E (input_dir C) "src".

Definition root_domain : string :=
  if PyStr.truthy (cfg_url C) then url_netloc E (cfg_url C) else EmptyString.

(** The session after [__init__]. *)
Definition init_state : State :=
  {| running := false;
     use_browser := cfg_use_browser C && playwright_available W;
     visited_urls := ∅; redirects := ∅; sitemap := [];
     analysis := Analyzer.empty_analysis; files := ∅;
     ticks := 0%nat; trace := [] |}.

(** [stop()], lines 561-564. *)
Definition stop (s : State) : State :=
  log Warning MStopping (set_running false s).

(** A suspension point is passed: the oracle moves on, and a [stop()] that
    arrived meanwhile has taken effect. *)
Definition await (s : State) : State :=
  let s1 := set_ticks (S (ticks s)) s in
  if stop_pressed W (ticks s) then stop s1 else s1.

(** [await asyncio.sleep(secs)] *)
Definition sleep (secs : Z) (s : State) : State :=
  await (emit (Sleep secs) s).

(** One test of [_filter_url]: [Some true] rejects, [None] is [re.error]. *)
Definition include_rejects (url : string) : option bool :=
  match include C with
  | Some p => if PyStr.truthy p then negb <$> re_search E p url else Some false
  | None => Some false
  end.

Definition exclude_rejects (url : string) : option bool :=
  match exclude C with
  | Some p => if PyStr.truthy p then re_search E p url else Some false
  | None => Some false
  end.

(** [_filter_url(url)], lines 248-258. *)
Definition filter_url (url : string) (s : State) : bool * State :=
  match include_rejects url with
  | None => (true, log Error MInvalidRegex s)
  | Some true => (false, s)
  | Some false =>
      match exclude_rejects url with
      | None => (true, log Error MInvalidRegex s)
      | Some true => (false, s)
      | Some false => (true, s)
      end
  end.

(** [_save_file(url, content, is_binary, content_type)], lines 260-308. *)
Definition save_file (url : string) (content : Body) (is_binary : bool)
    (ctype : string) (s : State) : State :=
  let p1 := AssetStore.input_path E (input_dir C) url ctype in
  let p2 := AssetStore.src_path E src_dir url ctype in
  if negb (mkdir_ok W p1 && mkdir_ok W p2) then log Error (MSaveError url) s
  else
    let decoded :=
      if is_binary then content
      else match content with
           | Bytes b => Str (decode_utf8 E b)
           | other => other
           end in
    let '(to_save, s1) :=
      match is_binary, decoded with
      | false, Str t =>
          let '(t', failed) := Rewriter.rewrite_urls E t url in
          (Str t', if failed then log Error MRewriteError s else s)
      | _, _ => (decoded, s)
      end in
    if negb (open_ok W p1) then log Error (MSaveError url) s1
    else
      match is_binary, to_save with
      | true, Str _ =>
          (* a [str] written in binary mode: the file is created, the
             write raises *)
          log Error (MSaveError url) (write p1 (Bytes EmptyString) s1)
      | _, _ =>
          let s2 := write p1 to_save s1 in
          if negb (open_ok W p2) then log Error (MSaveError url) s2
          else log Info (MSaved url p1 p2) (write p2 to_save s2)
      end.

(** One probe of [_analyze_js], lines 362-370. *)
Definition probe (api_url : string) (s : State) : State :=
  let s1 := await (emit (Probe api_url) s) in
  match httpx_get W (ticks s) api_url with
  | Responded r =>
      set_analysis
        (Analyzer.add_endpoint
           {| ep_url := api_url;
              ep_status := status_code r;
              ep_response :=
                if status_code r =? 200 then PyStr.take 200 (text r)
                else EmptyString |}
           (analysis s1))
        s1
  | _ => s1
  end.

(** [_analyze_js(content, url)], lines 357-382.  The renamed script is
    assigned to the local variable [content] and the function ends. *)
Definition analyze_js (content url : string) (s : State) : State :=
  let s1 := fold_left (fun acc api_url => probe api_url acc)
              (find_api_urls E content) s in
  let content := Analyzer.renamed_local E content in
  s1.

(** [_analyze_content(selector, content, url)] on the session. *)
Definition analyze_content (d : Document) (content : string) (s : State)
    : State :=
  set_analysis (Analyzer.analyze_content E d content (analysis s)) s.

(** Lines 231-233: [content_type], [is_binary] and [content]. *)
Definition asset_ctype (r : Response) : string :=
  lower E (default EmptyString (content_type r)).

Definition asset_is_binary (r : Response) : bool :=
  negb (PyStr.contains "text" (asset_ctype r))
  && negb (PyStr.contains "html" (asset_ctype r)).

Definition asset_body (r : Response) : Body :=
  if asset_is_binary r then Bytes (content r) else Str (text r).

(** Lines 230-237: a 200 answer to an asset request. *)
Definition asset_success (url : string) (r : Response) (s : State) : State :=
  let s1 :=
    save_file url (asset_body r) (asset_is_binary r) (asset_ctype r) s in
  if PyStr.contains "javascript" (asset_ctype r) && negb (asset_is_binary r)
  then analyze_js (text r) url s1
  else s1.

(** [range(1, self.retries + 1)] *)
Definition attempts : list Z :=
  List.map Z.of_nat (seq 1 (Z.to_nat (retries C))).

(** The loop of lines 227-246 from the point where the request of
    [attempt] is pending; [rest] are the attempts left. *)
Fixpoint asset_await (rest : list Z) (url : string) (attempt : Z) (s : State)
    : State :=
  let s1 := await s in
  match client_get_follow W (ticks s) url with
  | Responded r =>
      if status_code r =? 200 then asset_success url r s1
      else
        let s2 := log Warning (MAssetFailed url (status_code r)) s1 in
        match rest with
        | a :: rest' => asset_await rest' url a (emit (GetAsset url a) s2)
        | [] => s2
        end
  | RequestError =>
      let s2 := log Warning (MAssetAttempt url attempt) s1 in
      let s3 := if attempt <? retries C then sleep (2 ^ attempt) s2 else s2 in
      match rest with
      | a :: rest' => asset_await rest' url a (emit (GetAsset url a) s3)
      | [] => s3
      end
  | OtherError => log Error (MAssetUnexpected url) s1
  end.

(** [_download_asset(url)] up to its first suspension point, lines 221-229:
    the pending attempt and the attempts left, if a request was sent. *)
Definition asset_begin (url : string) (s : State)
    : option (Z * list Z) * State :=
  if negb (running s) then (None, s)
  else if bool_decide (url ∈ visited_urls s) then (None, s)
  else
    let '(ok, s1) := filter_url url s in
    if negb ok then (None, s1)
    else
      let s2 := emit (Fetch Asset url) (visited_add url s1) in
      match attempts with
      | a :: rest => (Some (a, rest), emit (GetAsset url a) s2)
      | [] => (None, s2)
      end.

(** [_download_asset(url)] run on its own. *)
Definition download_asset (url : string) (s : State) : State :=
  match asset_begin url s with
  | (Some (a, rest), s1) => asset_await rest url a s1
  | (None, s1) => s1
  end.

(** [asyncio.gather] over the asset tasks, line 166: every task
    runs to its first suspension point, in order; then the answers are
    handled, here in the order of the tasks. *)
Fixpoint begin_all (urls : list string) (s : State)
    : list (string * (Z * list Z)) * State :=
  match urls with
  | [] => ([], s)
  | u :: urls' =>
      let '(p, s1) := asset_begin u s in
      let '(ps, s2) := begin_all urls' s1 in
      (match p with Some t => (u, t) :: ps | None => ps end, s2)
  end.

Fixpoint await_all (tasks : list (string * (Z * list Z))) (s : State) : State :=
  match tasks with
  | [] => s
  | (u, (a, rest)) :: tasks' => await_all tasks' (asset_await rest u a s)
  end.

Definition gather_assets (urls : list string) (s : State) : State :=
  let '(tasks, s1) := begin_all urls s in
  await_all tasks s1.

Definition is_redirect (status : Z) : bool :=
  existsb (Z.eqb status) [301; 302; 303; 307; 308].

(** [_fetch_with_redirects(url, attempt)], lines 177-217.  [fuel] bounds the
    depth of the nested calls. *)
Fixpoint fetch_with_redirects (fuel : nat) (url : string) (attempt : Z)
    (s : State) : Res (string * option string) :=
  match fuel with
  | O => OutOfFuel s
  | S fuel' =>
      if negb (running s) then Done (url, None) s
      else if attempt >? retries C
      then Done (url, None) (log Error (MMaxRetries url) s)
      else
        let unexpected (s1 : State) :=
          let s2 := log Error (MUnexpected url) s1 in
          if attempt <? retries C
          then fetch_with_redirects fuel' url (attempt + 1)
                 (sleep (2 ^ attempt) s2)
          else Done (url, None) s2 in
        if use_browser s then
          match browser W (ticks s) url with
          | LaunchRaised => unexpected (await s)
          | PageRaised =>
              unexpected (await (emit (BrowserLaunch url attempt) s))
          | Loaded html =>
              Done (url, Some html)
                (emit BrowserClose (await (emit (BrowserLaunch url attempt) s)))
          end
        else
          let s1 := await (emit (Get url attempt) s) in
          match client_get W (ticks s) url with
          | Responded r =>
              if is_redirect (status_code r) then
                match Analyzer.truthy_opt (location r) with
                | None => Done (url, None) (log Warning (MNoLocation url) s1)
                | Some next_url =>
                    let absolute_next_url := urljoin E url next_url in
                    fetch_with_redirects fuel' absolute_next_url attempt
                      (log Info (MRedirect url absolute_next_url)
                         (set_redirects
                            (<[url := absolute_next_url]> (redirects s1)) s1))
                end
              else if negb (status_code r =? 200)
              then Done (url, None)
                     (log Warning (MFailedFetch url (status_code r)) s1)
              else Done (url, Some (text r)) s1
          | RequestError =>
              fetch_with_redirects fuel' url (attempt + 1)
                (sleep (2 ^ attempt) (log Warning (MRequestError url) s1))
          | OtherError => unexpected s1
          end
  end.

(** The loop of lines 168-172 over the links of a page; [visit] is its
    body. *)
Fixpoint each_link (visit : string -> State -> Res unit) (links : list string)
    (s : State) : Res unit :=
  match links with
  | [] => Done tt s
  | link :: rest =>
      match visit link s with
      | Done _ s1 => each_link visit rest s1
      | OutOfFuel s1 => OutOfFuel s1
      end
  end.

(** [_crawl_page(url, depth)], lines 137-175. *)
Fixpoint crawl_page (fuel : nat) (url : string) (depth : Z) (s : State)
    : Res unit :=
  match fuel with
  | O => OutOfFuel s
  | S fuel' =>
      if negb (running s) || (depth >? crawl_depth C)
         || bool_decide (url ∈ visited_urls s)
      then Done tt s
      else
        let '(ok, s1) := filter_url url s in
        if negb ok then Done tt s1
        else
          let s2 :=
            log Info (MCrawling url depth)
              (sitemap_append url (visited_add url s1)) in
          match fetch_with_redirects fuel' url 1
                  (emit (Fetch (Page depth) url) s2) with
          | OutOfFuel s3 => OutOfFuel s3
          | Done (final_url, fetched) s3 =>
              match Analyzer.truthy_opt fetched with
              | None => Done tt s3
              | Some html =>
                  match parse_html E html with
                  | None => Done tt (log Error (MProcessingError url) s3)
                  | Some selector =>
                      let s4 :=
                        save_file final_url (Str html) false "text/html" s3 in
                      let s5 := analyze_content selector html s4 in
                      let assets := Query.asset_refs selector in
                      let links := Query.link_refs selector in
                      let s6 :=
                        gather_assets
                          (List.map (urljoin E final_url) assets) s5 in
                      each_link
                        (fun link s7 =>
                           let absolute_url := urljoin E final_url link in
                           if String.eqb (url_netloc E absolute_url) root_domain
                           then crawl_page fuel' absolute_url (depth + 1) s7
                           else Done tt s7)
                        links s6
                  end
              end
          end
  end.

Definition newline : string := String (ascii_of_nat 10) EmptyString.

(** [_save_sitemap()], lines 384-393. *)
Definition save_sitemap (s : State) : State :=
  let p := path_join E (input_dir C) "sitemap.txt" in
  if open_ok W p
  then log Info MSitemapSaved
         (write p
            (Str (String.concat EmptyString
                    (List.map (fun u => u +:+ newline) (sitemap s))))
            s)
  else log Error MSitemapError s.

(** [_save_analysis()], lines 395-403. *)
Definition save_analysis (s : State) : State :=
  let p := path_join E (input_dir C) "analysis.json" in
  if open_ok W p
  then log Info MAnalysisSaved (write p (Json (analysis s)) s)
  else log Error MAnalysisError s.

(** [_create_zip()], lines 405-418; the archive itself is not modelled. *)
Definition create_zip (s : State) : State :=
  let p := path_join E (input_dir C) "site_archive.zip" in
  if open_ok W p
  then log Info MZipSaved (emit (WriteFile p) s)
  else log Error MZipError s.

(** [download_website()], lines 106-135.  The [return] of line 111 is
    outside the [try], so [running] stays set there. *)
Definition download_website (fuel : nat) : Res bool :=
  let s0 := set_running true init_state in
  if negb (PyStr.truthy (cfg_url C))
  then Done false (log Error MNoUrl s0)
  else
    let s1 := log Info (MStarting (cfg_url C)) s0 in
    if negb (client_created W)
    then Done false (set_running false (log Error MDownloadFailed s1))
    else
      let s2 :=
        if use_browser s1 && negb (playwright_started W)
        then set_use_browser false (log Warning MPlaywrightFailed s1)
        else s1 in
      match crawl_page fuel (cfg_url C) 0 s2 with
      | OutOfFuel s3 => OutOfFuel s3
      | Done _ s3 =>
          Done true
            (set_running false
               (log Info MComplete
                  (create_zip (save_analysis (save_sitemap s3)))))
      end.

End Processor.
End Crawler.

(** ** HTML formatting: [beautify_html], [minify_html], [deobfuscate_html] *)

Module Formatter.

(** The characters that the class [\s] of [re] matches and that
    [str.strip()] removes, among the characters up to U+00FF. *)
Definition space_codes : list nat :=
  [9; 10; 11; 12; 13; 28; 29; 30; 31; 32; 133; 160]%nat.

Definition is_space (c : ascii) : bool :=
  existsb (Nat.eqb (nat_of_ascii c)) space_codes.

Definition line_feed : ascii := ascii_of_nat 10.

(** [re.sub(r'\s+', ' ', s)]: every run of whitespace becomes one space.
    [in_run] says that the character before was whitespace. *)
Fixpoint collapse_spaces (in_run : bool) (s : string) : string :=
  match s with
  | EmptyString => EmptyString
  | String c r =>
      if is_space c
      then if in_run then collapse_spaces true r
           else String " " (collapse_spaces true r)
      else String c (collapse_spaces false r)
  end.

(** [re.sub(r'>\s+<', '>' + sep + '<', s)], read from left to right.
    [pending] is [Some w] when a [>] was just passed and written, followed
    by the whitespace [w], which is held back: a [<] after a non-empty [w]
    completes a match, and [sep] is written in place of [w]; anything else
    releases [w] as it was. *)
Fixpoint between_tags (sep : string) (pending : option string) (s : string)
    : string :=
  match s with
  | EmptyString =>
      match pending with
      | Some w => w
      | None => EmptyString
      end
  | String c r =>
      let next := if Ascii.eqb c ">" then Some EmptyString else None in
      match pending with
      | Some w =>
          if is_space c
          then between_tags sep (Some (w +:+ String c EmptyString)) r
          else if Ascii.eqb c "<" && PyStr.truthy w
               then sep +:+ String "<" (between_tags sep None r)
               else w +:+ String c (between_tags sep next r)
      | None => String c (between_tags sep next r)
      end
  end.

(** [re.sub(r'^\s+', '', s, flags=re.MULTILINE)]: the whitespace that
    starts at the beginning of the text or right after a line feed is
    removed, line feeds included.  [at_start] says that the position is the
    beginning of a line or inside such a run. *)
Fixpoint strip_line_starts (at_start : bool) (s : string) : string :=
  match s with
  | EmptyString => EmptyString
  | String c r =>
      if at_start && is_space c then strip_line_starts true r
      else String c (strip_line_starts (Ascii.eqb c line_feed) r)
  end.

(** [s.strip()] *)
Fixpoint lstrip (s : string) : string :=
  match s with
  | String c r => if is_space c then lstrip r else s
  | EmptyString => EmptyString
  end.

Fixpoint rstrip (s : string) : string :=
  match s with
  | String c r =>
      match rstrip r with
      | EmptyString =>
          if is_space c then EmptyString else String c EmptyString
      | r' => String c r'
      end
  | EmptyString => EmptyString
  end.

Definition strip (s : string) : string := rstrip (lstrip s).

(** [beautify_html(content)], lines 420-428. *)
Definition beautify_html (content : string) : string :=
  strip_line_starts true
    (between_tags (String line_feed EmptyString) None content).

(** [minify_html(content)], lines 430-438. *)
Definition minify_html (content : string) : string :=
  strip (between_tags EmptyString None (collapse_spaces false content)).

(** [deobfuscate_html(content)], lines 440-442. *)
Definition deobfuscate_html (content : string) : string :=
  beautify_html content.

(** The text without its whitespace. *)
Fixpoint without_spaces (s : string) : string :=
  match s with
  | EmptyString => EmptyString
  | String c r =>
      if is_space c then without_spaces r else String c (without_spaces r)
  end.

(** No line of the text starts with whitespace; [at_start] as above. *)
Fixpoint lines_start_clean (at_start : bool) (s : string) : bool :=
  match s with
  | EmptyString => true
  | String c r =>
      negb (at_start && is_space c)
      && lines_start_clean (Ascii.eqb c line_feed) r
  end.

(** The whitespace that [between_tags] holds back. *)
Definition pending_text (p : option string) : string :=
  match p with Some w => w | None => EmptyString end.

(** The text has whitespace between a [>] and the next [<] only where
    that whitespace is exactly [sep].  [st] is [Some w] when the position
    follows a [>] and the whitespace [w]. *)
Fixpoint gaps_ok (sep : string) (st : option string) (s : string) : bool :=
  match s with
  | EmptyString => true
  | String c r =>
      if is_space c
      then gaps_ok sep
             (option_map (fun w => w +:+ String c EmptyString) st) r
      else negb (Ascii.eqb c "<"
                 && match st with
                    | Some w => PyStr.truthy w && negb (String.eqb w sep)
                    | None => false
                    end)
           && gaps_ok sep
                (if Ascii.eqb c ">" then Some EmptyString else None) r
  end.

(** All whitespace of the text is single spaces, no two of them adjacent;
    [in_run] says that the character before was whitespace. *)
Fixpoint tidy (in_run : bool) (s : string) : bool :=
  match s with
  | EmptyString => true
  | String c r =>
      if is_space c
      then Ascii.eqb c " " && negb in_run && tidy true r
      else tidy false r
  end.

Fixpoint all_space (s : string) : bool :=
  match s with
  | EmptyString => true
  | String c r => is_space c && all_space r
  end.

(** The text does not start with whitespace. *)
Definition head_clean (s : string) : bool :=
  match s with
  | String c _ => negb (is_space c)
  | EmptyString => true
  end.

(** How the whitespace passed since a [>] in a text ([st]) relates to the
    same in the text with the starts of its lines stripped ([st']): equal,
    or, inside a stripped run, cut short. *)
Definition gap_rel (at_start : bool) (st st' : option string) : Prop :=
  match st, st' with
  | None, None => True
  | Some w, Some w' =>
      w = w' \/ (at_start = true /\ exists x, w = w' +:+ x)
  | _, _ => False
  end.

End Formatter.

(** ** A reference environment

    Library functions restricted to the inputs the examples below use:
    URLs of the shape [scheme://host/path], paths without dot segments,
    ASCII text, literal patterns. *)

Module Demo.

Definition chars (s : string) : list ascii := list_ascii_of_string s.
Definition str (l : list ascii) : string := string_of_list_ascii l.

Fixpoint drop (n : nat) (s : string) : string :=
  match n, s with
  | S k, String _ r => drop k r
  | _, _ => s
  end.

(** The text before and after the first occurrence of [p]. *)
Fixpoint find_sub (p s : string) : option (string * string) :=
  if String.prefix p s then Some (EmptyString, drop (String.length p) s)
  else match s with
       | String a r =>
           match find_sub p r with
           | Some (b, c) => Some (String a b, c)
           | None => None
           end
       | EmptyString => None
       end.

(** The longest prefix whose characters satisfy [ok], and the rest. *)
Fixpoint span (ok : ascii -> bool) (s : string) : string * string :=
  match s with
  | String a r =>
      if ok a then let '(x, y) := span ok r in (String a x, y)
      else (EmptyString, s)
  | EmptyString => (EmptyString, EmptyString)
  end.

Definition is_not (stops : string) (a : ascii) : bool :=
  negb (existsb (Ascii.eqb a) (chars stops)).

Definition url_origin (u : string) : string :=
  match find_sub "://" u with
  | Some (scheme, rest) => scheme +:+ "://" +:+ fst (span (is_not "/?#") rest)
  | None => EmptyString
  end.

Definition url_netloc (u : string) : string :=
  match find_sub "://" u with
  | Some (_, rest) => fst (span (is_not "/?#") rest)
  | None => EmptyString
  end.

Definition url_path (u : string) : string :=
  match find_sub "://" u with
  | Some (_, rest) => fst (span (is_not "?#") (snd (span (is_not "/?#") rest)))
  | None => fst (span (is_not "?#") u)
  end.

(** [path] up to its last slash, the slash included. *)
Definition dir_of (path : string) : string :=
  str (rev (chars (snd (span (is_not "/") (str (rev (chars path))))))).

Definition urljoin (base url : string) : string :=
  match url with
  | EmptyString => base
  | String a _ =>
      if PyStr.contains "://" url then url
      else if Ascii.eqb a "/" then url_origin base +:+ url
      else url_origin base
           +:+ PyStr.or_else (dir_of (url_path base)) "/" +:+ url
  end.

Definition lower_char (a : ascii) : ascii :=
  let n := nat_of_ascii a in
  if ((65 <=? n) && (n <=? 90))%nat then ascii_of_nat (n + 32) else a.

Definition lower (s : string) : string := str (List.map lower_char (chars s)).

(** The last component of a path. *)
Definition path_name (p : string) : string :=
  str (rev (chars (fst (span (is_not "/")
                          (str (rev (chars (PyStr.rstrip "/" p)))))))).

Definition path_suffix (p : string) : string :=
  let '(ext_rev, rest) := span (is_not ".") (str (rev (chars (path_name p)))) in
  match ext_rev, rest with
  | String _ _, String _ (String _ _) =>
      lower ("." +:+ str (rev (chars ext_rev)))
  | _, _ => EmptyString
  end.

Definition path_join (a b : string) : string :=
  match b with
  | EmptyString => a
  | _ => a +:+ "/" +:+ b
  end.

(** Words separated by single spaces. *)
Fixpoint split_words (s : string) : list string :=
  match s with
  | EmptyString => []
  | String a r =>
      if Ascii.eqb a " " then split_words r
      else match split_words r, r with
           | w :: ws, String b _ =>
               if Ascii.eqb b " " then String a EmptyString :: w :: ws
               else String a w :: ws
           | _, _ => [String a EmptyString]
           end
  end.

Definition count_of (w : string) (ws : list string) : nat :=
  List.length (List.filter (String.eqb w) ws).

Fixpoint distinct (ws : list string) : list string :=
  match ws with
  | [] => []
  | w :: r => w :: List.filter (fun x => negb (String.eqb w x)) (distinct r)
  end.

(** Stable insertion by decreasing count. *)
Fixpoint insert_by (ws : list string) (w : string) (sorted : list string)
    : list string :=
  match sorted with
  | [] => [w]
  | x :: r =>
      if (count_of x ws <? count_of w ws)%nat then w :: x :: r
      else x :: insert_by ws w r
  end.

Definition most_common (n : nat) (ws : list string) : list string :=
  firstn n (fold_left (fun acc w => insert_by ws w acc) (distinct ws) []).

(** A literal pattern; an opening parenthesis that is never closed is an
    invalid pattern. *)
Definition re_search (p s : string) : option bool :=
  if PyStr.contains "(" p && negb (PyStr.contains ")" p) then None
  else Some (PyStr.contains p s).

Definition dq : string := Rewriter.quote_str Rewriter.dquote.

(** A rendering of a syntax tree, standing for [str(tree)]. *)
Definition tree_str (tree : list JsNode) : string :=
  String.concat EmptyString
    (List.map
       (fun n =>
          match n with
          | VariableDeclaration ids => "var " +:+ String.concat "," ids +:+ ";"
          | OtherNode src => src
          end)
       tree).

(** The environment of the examples: the parsers and the pattern search of
    [_analyze_js] are given by their answers. *)
Definition env (html : string -> option Document)
    (script : string -> option (list JsNode))
    (apis : string -> list string) : Env :=
  Build_Env urljoin url_path url_netloc path_suffix path_join lower
    split_words most_common re_search apis html script tree_str
    (fun b => b).

(** No page parses, no script parses, no API address is found. *)
Definition plain_env : Env :=
  env (fun _ => None) (fun _ => None) (fun _ => []).

End Demo.


(** ** Example sites *)

Module Scenario.
Import Demo.

Definition ok_response (ctype : option string) (body : string) : Response :=
  {| status_code := 200; location := None; content_type := ctype;
     text := body; content := body |}.

Definition redirect_response (status : Z) (loc : option string) : Response :=
  {| status_code := status; location := loc; content_type := None;
     text := EmptyString; content := EmptyString |}.

(** A world that answers nothing: every request raises [RequestError], the
    browser does not launch, [stop()] is never called, every write
    succeeds. *)
Definition silent : World :=
  {| client_get := fun _ _ => RequestError;
     client_get_follow := fun _ _ => RequestError;
     httpx_get := fun _ _ => RequestError;
     browser := fun _ _ => LaunchRaised;
     stop_pressed := fun _ => false;
     mkdir_ok := fun _ => true;
     open_ok := fun _ => true;
     client_created := true;
     playwright_available := true;
     playwright_started := true |}.

Definition with_client_get (f : nat -> string -> Answer) (w : World) : World :=
  {| client_get := f;
     client_get_follow := client_get_follow w;
     httpx_get := httpx_get w;
     browser := browser w;
     stop_pressed := stop_pressed w;
     mkdir_ok := mkdir_ok w;
     open_ok := open_ok w;
     client_created := client_created w;
     playwright_available := playwright_available w;
     playwright_started := playwright_started w |}.

Definition with_client_get_follow (f : nat -> string -> Answer) (w : World)
    : World :=
  {| client_get := client_get w;
     client_get_follow := f;
     httpx_get := httpx_get w;
     browser := browser w;
     stop_pressed := stop_pressed w;
     mkdir_ok := mkdir_ok w;
     open_ok := open_ok w;
     client_created := client_created w;
     playwright_available := playwright_available w;
     playwright_started := playwright_started w |}.

Definition with_httpx_get (f : nat -> string -> Answer) (w : World) : World :=
  {| client_get := client_get w;
     client_get_follow := client_get_follow w;
     httpx_get := f;
     browser := browser w;
     stop_pressed := stop_pressed w;
     mkdir_ok := mkdir_ok w;
     open_ok := open_ok w;
     client_created := client_created w;
     playwright_available := playwright_available w;
     playwright_started := playwright_started w |}.

Definition with_browser (f : nat -> string -> BrowserAnswer) (w : World)
    : World :=
  {| client_get := client_get w;
     client_get_follow := client_get_follow w;
     httpx_get := httpx_get w;
     browser := f;
     stop_pressed := stop_pressed w;
     mkdir_ok := mkdir_ok w;
     open_ok := open_ok w;
     client_created := client_created w;
     playwright_available := playwright_available w;
     playwright_started := playwright_started w |}.

Definition with_stop (f : nat -> bool) (w : World) : World :=
  {| client_get := client_get w;
     client_get_follow := client_get_follow w;
     httpx_get := httpx_get w;
     browser := browser w;
     stop_pressed := f;
     mkdir_ok := mkdir_ok w;
     open_ok := open_ok w;
     client_created := client_created w;
     playwright_available := playwright_available w;
     playwright_started := playwright_started w |}.

(** The default configuration of [__init__] for a root URL, with the run
    directory [site]. *)
Definition config (url : string) : Config :=
  {| cfg_url := url; input_dir := "site"; crawl_depth := 2; retries := 3;
     include := None; exclude := None; cfg_use_browser := false |}.

Definition with_depth (d : Z) (c : Config) : Config :=
  {| cfg_url := cfg_url c; input_dir := input_dir c; crawl_depth := d;
     retries := retries c; include := include c; exclude := exclude c;
     cfg_use_browser := cfg_use_browser c |}.

Definition with_browser_mode (c : Config) : Config :=
  {| cfg_url := cfg_url c; input_dir := input_dir c;
     crawl_depth := crawl_depth c; retries := retries c;
     include := include c; exclude := exclude c; cfg_use_browser := true |}.

Definition with_exclude (p : string) (c : Config) : Config :=
  {| cfg_url := cfg_url c; input_dir := input_dir c;
     crawl_depth := crawl_depth c; retries := retries c;
     include := include c; exclude := Some p;
     cfg_use_browser := cfg_use_browser c |}.

(** The session once [download_website] has set [running]. *)
Definition started (w : World) (c : Config) : State :=
  Session.set_running true (Crawler.init_state w c).

(** *** A page with two described [meta] elements *)

Definition meta (name value : string) : Element :=
  {| tag := "meta"; attrs := [("name", name); ("content", value)];
     own_text := []; markup := EmptyString |}.

Definition two_metas : Document :=
  {| elements := [meta "author" "Ann"; meta "description" "Demo"];
     text_nodes := [] |}.

(** *** Texts for the rewriter *)

Definition page_url : string := "http://example.test/dir/page.html".

(** [<a href="a.html"></a><a href=""></a>] *)
Definition empty_href_text : string :=
  "<a href=" +:+ dq +:+ "a.html" +:+ dq +:+ "></a><a href=" +:+ dq +:+ dq
  +:+ "></a>".

(** [<a href="h">x</a>] *)
Definition short_href_text : string :=
  "<a href=" +:+ dq +:+ "h" +:+ dq +:+ ">x</a>".

(** [<a /dir/href="/dir/h">x</a>] *)
Definition short_href_rewritten : string :=
  "<a /dir/href=" +:+ dq +:+ "/dir/h" +:+ dq +:+ ">x</a>".

(** [<a href="/dir/h">x</a>] *)
Definition short_href_expected : string :=
  "<a href=" +:+ dq +:+ "/dir/h" +:+ dq +:+ ">x</a>".

(** *** A script asset that holds markup *)

Definition script_url : string := "http://example.test/app.js".

(** [document.write('<img src="logo.png">');] *)
Definition script_text : string :=
  "document.write('<img src=" +:+ dq +:+ "logo.png" +:+ dq +:+ ">');".

(** [document.write('<img src="/logo.png">');] *)
Definition script_saved : string :=
  "document.write('<img src=" +:+ dq +:+ "/logo.png" +:+ dq +:+ ">');".

Definition script_world : World :=
  with_client_get_follow
    (fun _ u =>
       if String.eqb u script_url
       then Responded (ok_response (Some "text/javascript") script_text)
       else RequestError)
    silent.

(** *** A root that redirects to a page linking to itself *)

Definition root_url : string := "http://example.test/".
Definition home_url : string := "http://example.test/home".

(** [<a href=/home>home</a>] *)
Definition home_html : string := "<a href=/home>home</a>".

Definition home_doc : Document :=
  {| elements :=
       [{| tag := "a"; attrs := [("href", "/home")]; own_text := ["home"];
           markup := home_html |}];
     text_nodes := ["home"] |}.

Definition home_env : Env :=
  env (fun c => if String.eqb c home_html then Some home_doc else None)
    (fun _ => None) (fun _ => []).

(** The root answers 302 with [Location: /home]; [/home] answers 200. *)
Definition home_world : World :=
  with_client_get
    (fun _ u =>
       if String.eqb u root_url
       then Responded (redirect_response 302 (Some "/home"))
       else if String.eqb u home_url
            then Responded (ok_response (Some "text/html") home_html)
            else RequestError)
    silent.

(** *** A root that redirects to another host *)

Definition elsewhere_url : string := "http://other.test/x.html".

(** The root answers 302 with the address of the other host, which answers
    200. *)
Definition elsewhere_world : World :=
  with_client_get
    (fun _ u =>
       if String.eqb u root_url
       then Responded (redirect_response 302 (Some elsewhere_url))
       else Responded (ok_response (Some "text/html") "x"))
    silent.

(** *** A page whose first requests fail *)

Definition flaky_url : string := "http://example.test/flaky".

(** The requests pending at suspension points 0 and 2 raise
    [httpx.RequestError], the one pending at 4 is answered. *)
Definition flaky_world : World :=
  with_client_get
    (fun k _ =>
       if (k <? 4)%nat then RequestError
       else Responded (ok_response (Some "text/html") "late"))
    silent.

(** The request pending at suspension point 0 raises
    [httpx.RequestError], the one pending at 2 raises another exception,
    the one pending at 4 is answered. *)
Definition mixed_world : World :=
  with_client_get
    (fun k _ =>
       if (k <? 2)%nat then RequestError
       else if (k <? 4)%nat then OtherError
            else Responded (ok_response (Some "text/html") "late"))
    silent.

(** *** A redirect chain of two hops *)

Definition chain_a : string := "http://example.test/a".
Definition chain_b : string := "http://example.test/b".
Definition chain_c : string := "http://example.test/c".

(** [/a] answers 301 with [Location: /b], [/b] answers 302 with the
    absolute address of [/c], [/c] answers 200; [/lost] answers 307 without
    a [Location]. *)
Definition chain_world : World :=
  with_client_get
    (fun _ u =>
       if String.eqb u chain_a
       then Responded (redirect_response 301 (Some "/b"))
       else if String.eqb u chain_b
            then Responded (redirect_response 302 (Some chain_c))
            else if String.eqb u chain_c
                 then Responded (ok_response (Some "text/html") "hello")
                 else Responded (redirect_response 307 None))
    silent.

Definition lost_url : string := "http://example.test/lost".

(** *** A page the browser fails to load at first *)

Definition slow_url : string := "http://example.test/slow".

(** The load pending at suspension point 0 raises after the launch; the
    load pending at 2 succeeds. *)
Definition slow_world : World :=
  with_browser
    (fun k _ => if (k <? 2)%nat then PageRaised else Loaded "<html></html>")
    silent.

Definition browser_config : Config := with_browser_mode (config slow_url).

(** *** An asset whose first request fails while [stop()] is called *)

Definition asset_url : string := "http://example.test/logo.png".

(** The asset request pending at suspension point 0 raises
    [httpx.RequestError] and [stop()] is called meanwhile; the request
    pending at 2 is answered. *)
Definition stopped_world : World :=
  with_stop (fun k => (k =? 0)%nat)
    (with_client_get_follow
       (fun k _ =>
          if (k <? 2)%nat then RequestError
          else Responded (ok_response (Some "image/png") "PNG"))
       silent).

(** The same without the [stop()]. *)
Definition late_asset_world : World :=
  with_client_get_follow
    (fun k _ =>
       if (k <? 2)%nat then RequestError
       else Responded (ok_response (Some "image/png") "PNG"))
    silent.

(** *** A root page with an image and a link, crawled at depth 0 *)

(** [<img src=/logo.png><a href=/about>about us</a>] *)
Definition front_html : string :=
  "<img src=/logo.png><a href=/about>about us</a>".

Definition front_doc : Document :=
  {| elements :=
       [{| tag := "img"; attrs := [("src", "/logo.png")]; own_text := [];
           markup := "<img src=/logo.png>" |};
        {| tag := "a"; attrs := [("href", "/about")]; own_text := ["about us"];
           markup := "<a href=/about>about us</a>" |}];
     text_nodes := ["about us"] |}.

Definition front_env : Env :=
  env (fun c => if String.eqb c front_html then Some front_doc else None)
    (fun _ => None) (fun _ => []).

Definition front_world : World :=
  with_client_get
    (fun _ _ => Responded (ok_response (Some "text/html") front_html))
    (with_client_get_follow
       (fun _ _ => Responded (ok_response (Some "image/png") "PNG"))
       silent).

(** *** A server that has nothing *)

Definition missing_url : string := "http://example.test/missing.css".

(** Every request is answered 404. *)
Definition missing_world : World :=
  with_client_get
    (fun _ _ => Responded
                  {| status_code := 404; location := None;
                     content_type := None; text := EmptyString;
                     content := EmptyString |})
    (with_client_get_follow
       (fun _ _ => Responded
                     {| status_code := 404; location := None;
                        content_type := None; text := EmptyString;
                        content := EmptyString |})
       silent).

(** Every asset request raises an exception that is not a request
    error. *)
Definition broken_world : World :=
  with_client_get_follow (fun _ _ => OtherError) silent.

(** *** A mirror tree that cannot be written *)

(** No file under [site/src] can be opened. *)
Definition no_mirror_world : World :=
  {| client_get := client_get silent;
     client_get_follow := client_get_follow silent;
     httpx_get := httpx_get silent;
     browser := browser silent;
     stop_pressed := stop_pressed silent;
     mkdir_ok := mkdir_ok silent;
     open_ok := fun p => negb (String.prefix "site/src/" p);
     client_created := true;
     playwright_available := true;
     playwright_started := true |}.

(** *** A text without attributes to rewrite *)

Definition plain_text : string := "body { color: red }".

End Scenario.

(** ** Views of the trace *)

(** The events of the scheduler proper: additions to the visited set and
    hand-overs to the fetcher.  Every other event is [quiet]. *)
Definition quiet (e : Event) : bool :=
  match e with
  | VisitedAdd _ | Fetch _ _ => false
  | _ => true
  end.

Definition sched (t : list Event) : list Event :=
  List.filter (fun e => negb (quiet e)) t.

(** The URLs added to the visited set, in order. *)
Definition visits (t : list Event) : list string :=
  flat_map (fun e => match e with VisitedAdd u => [u] | _ => [] end) t.

(** The URLs handed to the fetcher by the scheduler, in order. *)
Definition handed (t : list Event) : list string :=
  flat_map (fun e => match e with Fetch _ u => [u] | _ => [] end) t.

(** The depths at which pages were handed to the fetcher, in order. *)
Definition page_depths (t : list Event) : list Z :=
  flat_map (fun e => match e with Fetch (Page d) _ => [d] | _ => [] end) t.

(** The requests of the fetcher with their attempt numbers, and the
    sleeps, in order. *)
Definition gets (t : list Event) : list (string * Z) :=
  flat_map (fun e => match e with Get u a => [(u, a)] | _ => [] end) t.

Definition sleeps (t : list Event) : list Z :=
  flat_map (fun e => match e with Sleep d => [d] | _ => [] end) t.

(** [s'] differs from [s] in nothing the scheduler keeps: same visited
    set, same sitemap, and only quiet events were added. *)
Definition same_sched (s s' : State) : Prop :=
  visited_urls s' = visited_urls s
  /\ sitemap s' = sitemap s
  /\ sched (trace s') = sched (trace s).


(** The sequence of the scheduler's events in a session at rest: for each
    URL taken up, the addition to the visited set and the hand-over to the
    fetcher. *)
Definition Entry : Type := FetchKind * string.

Definition blocks (l : list Entry) : list Event :=
  flat_map (fun en => [VisitedAdd (snd en); Fetch (fst en) (snd en)]) l.

Definition is_page (en : Entry) : bool :=
  match fst en with
  | Page _ => true
  | Asset => false
  end.

Definition urls (l : list Entry) : list string := List.map snd l.

Definition pages (l : list Entry) : list string :=
  List.map snd (List.filter is_page l).

Definition depths (l : list Entry) : list Z :=
  flat_map (fun en => match fst en with Page d => [d] | Asset => [] end) l.

(** The invariant of the scheduler: [l] lists what was taken up so far. *)
Definition Inv (s : State) (l : list Entry) : Prop :=
  sched (trace s) = blocks l
  /\ NoDup (urls l)
  /\ (forall u, u ∈ visited_urls s <-> In u (urls l))
  /\ sitemap s = pages l.

(** Depths of a depth-first descent that starts at depth [d] and stops at
    [limit]: every depth lies in between, and a depth above [d] comes after
    the depth just below it. *)
Definition descent (limit d : Z) (ds : list Z) : Prop :=
  Forall (fun k => d <= k <= limit) ds
  /\ forall pre k post, ds = pre ++ k :: post -> d < k -> In (k - 1) pre.

(** No depth is more than one above the depth before it; [prev] is the
    depth before the first. *)
Fixpoint climbs (prev : Z) (ds : list Z) : bool :=
  match ds with
  | [] => true
  | k :: rest => (k <=? prev + 1) && climbs k rest
  end.

(** The depths of the pages handed over in the loop over the links of a
    page at depth [d]: every one of them below [d] and within [limit], the
    first one level down, and none more than one level below the one
    before. *)
Definition below_of (limit d : Z) (ds : list Z) : bool :=
  forallb (fun k => (d <? k) && (k <=? limit)) ds && climbs d ds.

(** The depths of the pages handed over in one call of [_crawl_page] at
    depth [d]: none, or the page of the call at depth [d] itself, followed
    by what the loop over its links hands over. *)
Definition call_depths (limit d : Z) (ds : list Z) : bool :=
  match ds with
  | [] => true
  | k :: below => (k =? d) && (d <=? limit) && below_of limit d below
  end.

(** During a step the pages handed over had depths [ds], which satisfy
    [Q]. *)
Definition adds_pages (Q : list Z -> bool) (s s' : State) : Prop :=
  exists ds,
    page_depths (trace s') = page_depths (trace s) ++ ds /\ Q ds = true.

(** The sleep right before the request of attempt [n] for [u], if there is
    one. *)
Fixpoint delay_before (u : string) (n : Z) (t : list Event) : option Z :=
  match t with
  | [] => None
  | e :: r =>
      match e, r with
      | Sleep d, Get v m :: _ =>
          if String.eqb v u && (m =? n) then Some d else delay_before u n r
      | _, _ => delay_before u n r
      end
  end.

(** The same for the request of attempt [n] of the asset loop. *)
Fixpoint asset_delay_before (u : string) (n : Z) (t : list Event) : option Z :=
  match t with
  | [] => None
  | e :: r =>
      match e, r with
      | Sleep d, GetAsset v m :: _ =>
          if String.eqb v u && (m =? n) then Some d
          else asset_delay_before u n r
      | _, _ => asset_delay_before u n r
      end
  end.

(** A request that raised: [httpx.RequestError], handled in lines 208-211,
    or another exception, handled in lines 212-217. *)
Definition is_failure (ans : Answer) : bool :=
  match ans with
  | Responded _ => false
  | _ => true
  end.

(** What the handler of the failure logs. *)
Definition failure_log (u : string) (ans : Answer) : Event :=
  match ans with
  | OtherError => Log Error (MUnexpected u)
  | _ => Log Warning (MRequestError u)
  end.

(** What [k] failed attempts in a row, each followed by a retry, leave in
    the trace: the first of them is attempt [a], whose request is pending
    at suspension point [t]. *)
Fixpoint failed_attempts (W : World) (t : nat) (u : string) (a : Z) (k : nat)
    : list Event :=
  match k with
  | O => []
  | S k' =>
      [Get u a; failure_log u (client_get W t u); Sleep (2 ^ a)]
      ++ failed_attempts W (S (S t)) u (a + 1) k'
  end.

(** The session after these [k] attempts, when [stop()] was not called. *)
Fixpoint after_failures (W : World) (u : string) (a : Z) (k : nat)
    (s : State) : State :=
  match k with
  | O => s
  | S k' =>
      after_failures W u (a + 1) k'
        (Session.set_ticks (S (S (ticks s)))
           (Session.emit (Sleep (2 ^ a))
              (Session.emit (failure_log u (client_get W (ticks s) u))
                 (Session.emit (Get u a) s))))
  end.

(** What the last attempt of the retry budget leaves in the trace when it
    fails as well: the handler of [httpx.RequestError] sleeps and calls the
    fetcher once more, which gives up; the handler of other exceptions
    returns at once. *)
Definition last_failure (u : string) (limit : Z) (ans : Answer)
    : list Event :=
  failure_log u ans
  :: match ans with
     | OtherError => []
     | _ => [Sleep (2 ^ limit); Log Error (MMaxRetries u)]
     end.

(** What a fetch leaves in the trace when all the attempts of the retry
    budget fail, [k] being their number. *)
Definition exhausted (W : World) (t : nat) (u : string) (limit : Z) (k : nat)
    : list Event :=
  match k with
  | O => [Log Error (MMaxRetries u)]
  | S k0 =>
      failed_attempts W t u 1 k0
      ++ Get u limit :: last_failure u limit (client_get W (t + 2 * k0) u)
  end.

(** What [k] attempts of the asset loop in a row that end in
    [httpx.RequestError] leave in the trace, the first of them being
    attempt [a]; [limit] is [self.retries]. *)
Fixpoint asset_attempts_failed (u : string) (limit a : Z) (k : nat)
    : list Event :=
  match k with
  | O => []
  | S k' =>
      [GetAsset u a; Log Warning (MAssetAttempt u a)]
      ++ (if a <? limit then [Sleep (2 ^ a)] else [])
      ++ asset_attempts_failed u limit (a + 1) k'
  end.

(** The session of the asset loop after [k] failed attempts that were
    followed by a sleep, the request of the next attempt pending, when
    [stop()] was not called. *)
Fixpoint asset_after_failures (u : string) (a : Z) (k : nat) (s : State)
    : State :=
  match k with
  | O => s
  | S k' =>
      asset_after_failures u (a + 1) k'
        (Session.emit (GetAsset u (a + 1))
           (Session.set_ticks (S (S (ticks s)))
              (Session.emit (Sleep (2 ^ a))
                 (Session.log Warning (MAssetAttempt u a) s))))
  end.

(** [s'] has the trace of [s] and more. *)
Definition extends (s s' : State) : Prop :=
  exists added, trace s' = trace s ++ added.

(** A redirect chain as the server plays it from suspension point [t] on:
    the request for [u] is answered by a redirect to [next], and so on, up
    to [final], which either answers 200 with [last] (the chain ends in
    [Some last]) or answers with a redirect status and no [Location] (the
    chain ends in [None]).  [hops] pairs each redirected URL with the
    absolute URL it leads to.  A [stop()] during a hop ends the fetch, so
    none arrives before the last request. *)
Inductive redirect_chain (E : Env) (W : World)
    : nat -> string -> list (string * string) -> string -> option Response
      -> Prop :=
| chain_end (t : nat) (u : string) (last : Response) :
    client_get W t u = Responded last ->
    status_code last = 200 ->
    redirect_chain E W t u [] u (Some last)
| chain_lost (t : nat) (u : string) (r : Response) :
    client_get W t u = Responded r ->
    Crawler.is_redirect (status_code r) = true ->
    Analyzer.truthy_opt (location r) = None ->
    redirect_chain E W t u [] u None
| chain_hop (t : nat) (u : string) (r : Response) (next : string)
    (hops : list (string * string)) (final : string)
    (last : option Response) :
    client_get W t u = Responded r ->
    Crawler.is_redirect (status_code r) = true ->
    Analyzer.truthy_opt (location r) = Some next ->
    stop_pressed W t = false ->
    redirect_chain E W (S t) (urljoin E u next) hops final last ->
    redirect_chain E W t u ((u, urljoin E u next) :: hops) final last.

(** [self.redirects[url] = absolute_next_url], once per hop. *)
Definition record_hops (hops : list (string * string))
    (m : gmap string string) : gmap string string :=
  fold_left (fun acc h => <[fst h := snd h]> acc) hops m.

(** The launches and closings of browsers, in order. *)
Definition browser_events (t : list Event) : list Event :=
  List.filter
    (fun e =>
       match e with
       | BrowserLaunch _ _ | BrowserClose => true
       | _ => false
       end)
    t.

(** [s'] has the browser mode, the redirect map and the requests of [s]. *)
Definition browser_frame (s s' : State) : Prop :=
  use_browser s' = use_browser s
  /\ redirects s' = redirects s
  /\ gets (trace s') = gets (trace s).

(** What a step adds to the list of the invariant: [added] entries, none of
    them a page. *)
Definition adds_assets (s' : State) (l : list Entry) : Prop :=
  exists added, Inv s' (l ++ added) /\ depths added = [].

(** What a call of the scheduler at depth [d] adds: entries whose page
    depths form a descent from [d]. *)
Definition adds_descent (limit d : Z) (s' : State) (l : list Entry) : Prop :=
  exists added,
    Inv s' (l ++ added) /\ descent limit d (depths added).

(** [s'] differs from [s] at most in the list of API endpoints, which
    grew, and in what every suspension point may change (the oracle index,
    the trace, the stop flag). *)
Definition only_endpoints (s s' : State) : Prop :=
  visited_urls s' = visited_urls s
  /\ redirects s' = redirects s
  /\ sitemap s' = sitemap s
  /\ files s' = files s
  /\ use_browser s' = use_browser s
  /\ keywords (analysis s') = keywords (analysis s)
  /\ metadata (analysis s') = metadata (analysis s)
  /\ hidden_elements (analysis s') = hidden_elements (analysis s)
  /\ inline_scripts (analysis s') = inline_scripts (analysis s)
  /\ frontend_frameworks (analysis s') = frontend_frameworks (analysis s)
  /\ exists added,
       api_endpoints (analysis s') = api_endpoints (analysis s) ++ added.

(** The server never answers a page request with a redirect. *)
Definition redirect_free (W : World) : Prop :=
  forall t u r,
    client_get W t u = Responded r ->
    Crawler.is_redirect (status_code r) = false.

(** What the loop of [_download_asset] leaves in the trace when every
    request from attempt [a] on ends in [httpx.RequestError]: [rest] are
    the attempts after [a], [limit] is [self.retries]. *)
Fixpoint asset_failures (u : string) (limit a : Z) (rest : list Z)
    : list Event :=
  Log Warning (MAssetAttempt u a)
  :: (if a <? limit then [Sleep (2 ^ a)] else [])
  ++ match rest with
     | [] => []
     | a' :: rest' => GetAsset u a' :: asset_failures u limit a' rest'
     end.

(** The requests and browser loads of the page fetcher. *)
Definition is_page_request (e : Event) : bool :=
  match e with
  | Get _ _ | BrowserLaunch _ _ => true
  | _ => false
  end.

(** Every request of the page fetcher in [t] comes after a page was handed
    to the fetcher. *)
Definition requests_follow_pages (t : list Event) : Prop :=
  forall pre e post,
    t = pre ++ e :: post -> is_page_request e = true -> page_depths pre <> [].

(** ** Further views of a run *)

(** The answer of [_filter_url], which does not depend on the session. *)
Definition accepts (E : Env) (C : Config) (url : string) : bool :=
  match Crawler.include_rejects E C url with
  | None => true
  | Some true => false
  | Some false =>
      match Crawler.exclude_rejects E C url with
      | Some true => false
      | _ => true
      end
  end.

(** The URLs handed to the fetcher as pages, in order. *)
Definition page_urls (t : list Event) : list string :=
  flat_map (fun e => match e with Fetch (Page _) u => [u] | _ => [] end) t.

(** The requests of the asset loop with their attempt numbers, in order. *)
Definition asset_gets (t : list Event) : list (string * Z) :=
  flat_map (fun e => match e with GetAsset u a => [(u, a)] | _ => [] end) t.

(** [s'] has the trace of [s] and, after it, events that satisfy [P]. *)
Definition emits (P : Event -> Prop) (s s' : State) : Prop :=
  exists added, trace s' = trace s ++ added /\ Forall P added.

(** Requests carry an attempt number within the retry budget, and a sleep
    lasts 2 to the power of such a number. *)
Definition within_budget (C : Config) (e : Event) : Prop :=
  match e with
  | Get _ a | GetAsset _ a | BrowserLaunch _ a => 1 <= a <= retries C
  | Sleep d => exists a, 1 <= a <= retries C /\ d = 2 ^ a
  | _ => True
  end.

(** What is taken up passed the filter, and a page taken up is on the host
    of the root URL. *)
Definition taken_up_ok (E : Env) (C : Config) (e : Event) : Prop :=
  match e with
  | VisitedAdd u | Fetch Asset u => accepts E C u = true
  | Fetch (Page _) u =>
      accepts E C u = true /\ url_netloc E u = Crawler.root_domain E C
  | _ => True
  end.

(** The pending asset tasks have their attempts within the retry budget. *)
Definition tasks_within (C : Config) (tasks : list (string * (Z * list Z)))
    : Prop :=
  Forall
    (fun t => 1 <= fst (snd t) <= retries C
              /\ Forall (fun a' => 1 <= a' <= retries C) (snd (snd t)))
    tasks.

(** * Properties *)

(** ** Asset store *)

Section AssetStoreFacts.
Import AssetStore.
Context (E : Env).

(** After lines 264-271 the extension is one of the known ones. *)
Lemma base_path_ext_known (url : string) :
  mem (snd (base_path E url)) known_ext = true.
Proof.
  unfold base_path.
  destruct (PyStr.truthy (PyStr.lstrip "/" (url_path E url))); cbn [negb];
    [|reflexivity].
  destruct (mem (path_suffix E (PyStr.lstrip "/" (url_path E url))) known_ext)
    eqn:Hm; cbn [negb snd]; [exact Hm|reflexivity].
Qed.

Lemma mem_known_truthy (ext : string) :
  mem ext known_ext = true -> PyStr.truthy ext = true.
Proof.
  destruct ext; [discriminate|reflexivity].
Qed.

(** The default of line 287 is never taken: the extension that
    [_save_file] ends with is never [.bin]. *)
Lemma derive_ext_not_bin (url ctype : string) :
  d_ext (derive E url ctype) <> ".bin".
Proof.
  unfold derive.
  pose proof (base_path_ext_known url) as Hk.
  destruct (base_path E url) as [path ext]; cbn [snd] in Hk.
  unfold classify.
  destruct (PyStr.startswith ctype "text/html"); [discriminate|].
  destruct (PyStr.startswith ctype "text/css"); [discriminate|].
  destruct (_ || _); [discriminate|].
  destruct (PyStr.startswith ctype "image/"); cbn [d_ext].
  - destruct (mem ext image_ext); [|discriminate].
    intros ->. discriminate.
  - unfold PyStr.or_else. rewrite (mem_known_truthy _ Hk).
    intros ->. discriminate.
Qed.

End AssetStoreFacts.

(** C5: a URL with no recognisable extension and an unknown content type
    is stored under [other/] at [<path>/index.html], with [.html] in [ext];
    the [.bin] default of the derivation is not applied.  The claim says it
    is saved as [.bin]. *)
Theorem C5_unknown_type_keeps_index_html :
  AssetStore.derive Demo.plain_env "http://example.test/data"
    "application/octet-stream"
  = {| AssetStore.d_path := "data/index.html"; AssetStore.d_ext := ".html";
       AssetStore.d_subdir := "other" |}
  /\ AssetStore.input_path Demo.plain_env "site" "http://example.test/data"
       "application/octet-stream"
     = "site/example.test/other/data/index.html"
  /\ AssetStore.src_path Demo.plain_env "site/src" "http://example.test/data"
       "application/octet-stream"
     = "site/src/data/index.html".
Proof. repeat split; vm_compute; reflexivity. Qed.

(** ** URL rewriter *)

(** C8: on a text with an empty attribute value the rewriter raises inside
    [replace_url], logs the error and returns the text as it was: the
    non-empty attribute before it is not rewritten either.  On a value that
    also occurs in the attribute name, [str.replace] rewrites the name too.
    The claim says every value is replaced and the rest is unchanged. *)
Theorem C8_rewrite_misses_and_damages :
  Rewriter.rewrite_urls Demo.plain_env Scenario.empty_href_text
    Scenario.page_url
  = (Scenario.empty_href_text, true)
  /\ Rewriter.rewrite_urls Demo.plain_env Scenario.short_href_text
       Scenario.page_url
     = (Scenario.short_href_rewritten, false)
  /\ Scenario.short_href_rewritten <> Scenario.short_href_expected.
Proof. repeat split; vm_compute; try reflexivity. discriminate. Qed.

(** ** Content analyzer *)

Lemma fold_insert_same (name value : string) (ms : list Element)
    (acc : gmap string string) :
  fold_left (fun (a : gmap string string) (_ : Element) => <[name := value]> a)
    ms (<[name := value]> acc)
  = <[name := value]> acc.
Proof.
  induction ms as [|m ms IH]; cbn [fold_left]; [reflexivity|].
  rewrite insert_insert_eq. exact IH.
Qed.

Lemma fold_keep (ms : list Element) (acc : gmap string string) :
  fold_left (fun (a : gmap string string) (_ : Element) => a) ms acc = acc.
Proof. induction ms as [|m ms IH]; cbn [fold_left]; [reflexivity|exact IH]. Qed.

(** What the loop of lines 331-335 leaves: nothing new, or one entry, the
    first name (or property) of the document with the first content of the
    document. *)
Lemma record_metadata_one_entry (d : Document) (md : gmap string string) :
  Analyzer.record_metadata d md
  = match Query.meta_elements d,
          Analyzer.truthy_opt (Query.get (Query.name_or_property d)),
          Analyzer.truthy_opt (Query.get (Query.content_attrs d)) with
    | _ :: _, Some name, Some value => <[name := value]> md
    | _, _, _ => md
    end.
Proof.
  unfold Analyzer.record_metadata.
  destruct (Analyzer.truthy_opt (Query.get (Query.name_or_property d)))
    as [name|];
    destruct (Analyzer.truthy_opt (Query.get (Query.content_attrs d)))
    as [value|];
    destruct (Query.meta_elements d) as [|m ms]; try reflexivity;
    cbn [fold_left]; auto using fold_insert_same, fold_keep.
Qed.

(** In the aggregate a later page's value for a key replaces the earlier
    one. *)
Lemma record_metadata_last_wins (d : Document) (md : gmap string string)
    (name value : string) :
  Query.meta_elements d <> [] ->
  Analyzer.truthy_opt (Query.get (Query.name_or_property d)) = Some name ->
  Analyzer.truthy_opt (Query.get (Query.content_attrs d)) = Some value ->
  Analyzer.record_metadata d md !! name = Some value.
Proof.
  intros Hm Hn Hv. rewrite record_metadata_one_entry, Hn, Hv.
  destruct (Query.meta_elements d); [congruence|].
  apply lookup_insert_eq.
Qed.

(** C9: on a page with two [meta] elements, [author] and [description],
    the analyzer records the pair of the first one only, once per element:
    the loop queries the whole document, not the element at hand.  The
    claim says each element's own pair is recorded. *)
Theorem C9_second_meta_not_recorded :
  metadata
    (Analyzer.analyze_content Demo.plain_env Scenario.two_metas EmptyString
       Analyzer.empty_analysis)
  = {[ "author" := "Ann" ]}
  /\ metadata
       (Analyzer.analyze_content Demo.plain_env Scenario.two_metas EmptyString
          Analyzer.empty_analysis) !! "description" = None.
Proof.
  cbn [Analyzer.analyze_content metadata].
  rewrite record_metadata_one_entry.
  split; vm_compute; reflexivity.
Qed.

(** ** The session under the operations of the processor *)

Import Session.

Ltac session_simpl :=
  cbn [running use_browser visited_urls redirects sitemap analysis files
       ticks trace set_running set_use_browser set_visited set_redirects
       set_sitemap set_analysis set_files set_ticks emit log visited_add
       sitemap_append write res_state res_value] in *.

(** Split on the innermost [match] or [if] of the goal. *)
Ltac innermost_case :=
  match goal with
  | |- context [match ?x with _ => _ end] =>
      lazymatch x with
      | context [match _ with _ => _ end] => fail
      | _ => destruct x
      end
  end.

Lemma sched_app (a b : list Event) : sched (a ++ b) = sched a ++ sched b.
Proof. apply List.filter_app. Qed.

Lemma same_sched_refl (s : State) : same_sched s s.
Proof. repeat split. Qed.

Lemma same_sched_trans (a b c : State) :
  same_sched a b -> same_sched b c -> same_sched a c.
Proof.
  intros (H1 & H2 & H3) (H4 & H5 & H6).
  repeat split; congruence.
Qed.

Lemma same_sched_emit (e : Event) (s : State) :
  quiet e = true -> same_sched s (emit e s).
Proof.
  intros Hq. repeat split. session_simpl.
  rewrite sched_app. cbn [sched List.filter]. rewrite Hq. cbn [negb].
  apply app_nil_r.
Qed.

Create HintDb sched discriminated.
#[local] Hint Resolve same_sched_refl : sched.

Section SchedFacts.
Context (E : Env) (W : World) (C : Config).

Lemma ss_emit (e : Event) (s s' : State) :
  quiet e = true -> same_sched s s' -> same_sched s (emit e s').
Proof.
  intros Hq H. eapply same_sched_trans; [exact H|]. now apply same_sched_emit.
Qed.

Lemma ss_log (lvl : Level) (m : Msg) (s s' : State) :
  same_sched s s' -> same_sched s (log lvl m s').
Proof. intros H. apply ss_emit; [reflexivity|exact H]. Qed.

Lemma ss_set_running (b : bool) (s s' : State) :
  same_sched s s' -> same_sched s (set_running b s').
Proof. intros H. exact H. Qed.

Lemma ss_set_redirects (r : gmap string string) (s s' : State) :
  same_sched s s' -> same_sched s (set_redirects r s').
Proof. intros H. exact H. Qed.

Lemma ss_set_analysis (a : Analysis) (s s' : State) :
  same_sched s s' -> same_sched s (set_analysis a s').
Proof. intros H. exact H. Qed.

Lemma ss_set_ticks (n : nat) (s s' : State) :
  same_sched s s' -> same_sched s (set_ticks n s').
Proof. intros H. exact H. Qed.

Lemma ss_write (p : string) (b : Body) (s s' : State) :
  same_sched s s' -> same_sched s (write p b s').
Proof. intros H. unfold write. apply ss_emit; [reflexivity|exact H]. Qed.

Lemma ss_stop (s s' : State) :
  same_sched s s' -> same_sched s (Crawler.stop s').
Proof. intros H. unfold Crawler.stop. apply ss_log. exact H. Qed.

Lemma ss_await (s s' : State) :
  same_sched s s' -> same_sched s (Crawler.await W s').
Proof.
  intros H. unfold Crawler.await.
  destruct (stop_pressed W (ticks s')); [apply ss_stop|]; exact H.
Qed.

Lemma ss_sleep (secs : Z) (s s' : State) :
  same_sched s s' -> same_sched s (Crawler.sleep W secs s').
Proof.
  intros H. unfold Crawler.sleep.
  apply ss_await, ss_emit; [reflexivity|exact H].
Qed.

Hint Resolve ss_emit ss_log ss_set_running ss_set_redirects ss_set_analysis
  ss_set_ticks ss_write ss_stop ss_await ss_sleep : sched.
Hint Extern 1 (quiet _ = true) => reflexivity : sched.

Ltac sched_cases :=
  repeat innermost_case; cbn [snd res_state]; auto 10 with sched.

Lemma ss_filter_url (url : string) (s s' : State) :
  same_sched s s' -> same_sched s (snd (Crawler.filter_url E C url s')).
Proof. intros H. unfold Crawler.filter_url. sched_cases. Qed.

Lemma ss_save_file (url : string) (b : Body) (bin : bool) (ctype : string)
    (s s' : State) :
  same_sched s s' -> same_sched s (Crawler.save_file E W C url b bin ctype s').
Proof. intros H. unfold Crawler.save_file. sched_cases. Qed.

Lemma ss_probe (api_url : string) (s s' : State) :
  same_sched s s' -> same_sched s (Crawler.probe W api_url s').
Proof.
  intros H. unfold Crawler.probe.
  destruct (httpx_get W (ticks s') api_url); auto 10 with sched.
Qed.

Lemma ss_analyze_js (content url : string) (s s' : State) :
  same_sched s s' -> same_sched s (Crawler.analyze_js E W content url s').
Proof.
  intros H. unfold Crawler.analyze_js. cbv zeta.
  revert s' H. induction (find_api_urls E content) as [|u us IH];
    intros s' H; cbn [fold_left]; [exact H|].
  apply IH, ss_probe, H.
Qed.

Lemma ss_analyze_content (d : Document) (content : string) (s s' : State) :
  same_sched s s' -> same_sched s (Crawler.analyze_content E d content s').
Proof. intros H. exact H. Qed.

Hint Resolve ss_filter_url ss_save_file ss_probe ss_analyze_js
  ss_analyze_content : sched.

Lemma ss_asset_success (url : string) (r : Response) (s s' : State) :
  same_sched s s' -> same_sched s (Crawler.asset_success E W C url r s').
Proof.
  intros H. unfold Crawler.asset_success. cbv zeta.
  destruct (_ && _); auto with sched.
Qed.

Hint Resolve ss_asset_success : sched.

Lemma ss_asset_await (rest : list Z) (url : string) (a : Z) (s s' : State) :
  same_sched s s' -> same_sched s (Crawler.asset_await E W C rest url a s').
Proof.
  revert a s'. induction rest as [|a' rest IH]; intros a s' H;
    cbn [Crawler.asset_await]; sched_cases.
Qed.

Lemma ss_fetch (fuel : nat) (url : string) (a : Z) (s s' : State) :
  same_sched s s' ->
  same_sched s (res_state (Crawler.fetch_with_redirects E W C fuel url a s')).
Proof.
  revert url a s'. induction fuel as [|fuel IH]; intros url a s' H;
    cbn [Crawler.fetch_with_redirects]; [exact H|].
  sched_cases.
Qed.

End SchedFacts.

(** ** The invariant of the scheduler *)

Lemma Inv_same_sched (s s' : State) (l : list Entry) :
  Inv s l -> same_sched s s' -> Inv s' l.
Proof.
  intros (H1 & H2 & H3 & H4) (E1 & E2 & E3).
  unfold Inv. rewrite E1, E2, E3. auto.
Qed.

Lemma blocks_app (a b : list Entry) : blocks (a ++ b) = blocks a ++ blocks b.
Proof. apply flat_map_app. Qed.

Lemma urls_app (a b : list Entry) : urls (a ++ b) = urls a ++ urls b.
Proof. apply List.map_app. Qed.

Lemma pages_app (a b : list Entry) : pages (a ++ b) = pages a ++ pages b.
Proof. unfold pages. now rewrite List.filter_app, List.map_app. Qed.

Lemma depths_app (a b : list Entry) : depths (a ++ b) = depths a ++ depths b.
Proof. apply flat_map_app. Qed.

(** Taking up a URL that is not in the visited set keeps the invariant. *)
Lemma Inv_take (s : State) (l : list Entry) (k : FetchKind) (u : string) :
  Inv s l -> u ∉ visited_urls s ->
  Inv (emit (Fetch k u)
         (match k with
          | Page _ => sitemap_append u (visited_add u s)
          | Asset => visited_add u s
          end))
      (l ++ [(k, u)]).
Proof.
  intros (H1 & H2 & H3 & H4) Hu.
  assert (Hnot : ~ In u (urls l)) by (intros Hin; apply Hu, H3, Hin).
  unfold Inv. rewrite blocks_app, urls_app, pages_app.
  repeat split.
  - destruct k; session_simpl; rewrite !sched_app, H1, <- app_assoc;
      reflexivity.
  - apply NoDup_app. split; [exact H2|]. split.
    + intros x Hx Hx'. cbn in Hx'. apply list_elem_of_In in Hx, Hx'.
      destruct Hx' as [<-|[]]. contradiction.
    + cbn. apply NoDup_singleton.
  - intros Hin. apply in_or_app.
    assert (Hv : u0 ∈ ({[u]} ∪ visited_urls s : gset string))
      by (destruct k; exact Hin).
    apply elem_of_union in Hv as [Hv|Hv].
    + right. apply elem_of_singleton in Hv. subst. now left.
    + left. now apply H3.
  - intros Hin.
    assert (Hv : u0 ∈ ({[u]} ∪ visited_urls s : gset string)).
    { apply in_app_or in Hin as [Hin|[<-|[]]].
      - apply elem_of_union_r. now apply H3.
      - apply elem_of_union_l. now apply elem_of_singleton. }
    destruct k; exact Hv.
  - destruct k; session_simpl; rewrite H4; [reflexivity|].
    symmetry. apply app_nil_r.
Qed.

Lemma descent_nil (limit d : Z) : descent limit d [].
Proof.
  split; [constructor|].
  intros pre k post Heq. destruct pre; discriminate.
Qed.

Lemma descent_app (limit d : Z) (a b : list Z) :
  descent limit d a -> descent limit d b -> descent limit d (a ++ b).
Proof.
  intros [Fa Pa] [Fb Pb]. split.
  - apply Forall_app. auto.
  - intros pre k post Heq Hk.
    apply app_eq_app in Heq as [m [[Ha Hm]|[Hp Hb]]].
    + destruct m as [|x m].
      * cbn in Hm. exfalso.
        assert (Hin : In (k - 1) []) by (apply (Pb [] k post); auto).
        destruct Hin.
      * cbn in Hm. injection Hm as -> ->.
        eapply Pa; eauto.
    + subst pre. apply in_or_app. right. eapply Pb; eauto.
Qed.

Lemma descent_node (limit d : Z) (below : list Z) :
  d <= limit -> descent limit (d + 1) below -> descent limit d (d :: below).
Proof.
  intros Hd [Fb Pb]. split.
  - constructor; [lia|].
    eapply Forall_impl; [exact Fb|]. cbn. intros k Hk. lia.
  - intros pre k post Heq Hk.
    destruct pre as [|x pre]; cbn in Heq; injection Heq as Hx Heq.
    + lia.
    + subst x. destruct (Z.eq_dec k (d + 1)) as [->|Hne].
      * left. lia.
      * right. eapply Pb; eauto. lia.
Qed.

(** The views of the trace, read off the invariant. *)
Lemma visits_sched (t : list Event) : visits (sched t) = visits t.
Proof.
  induction t as [|e t IH]; [reflexivity|].
  destruct e; cbn; try exact IH. f_equal. exact IH.
Qed.

Lemma handed_sched (t : list Event) : handed (sched t) = handed t.
Proof.
  induction t as [|e t IH]; [reflexivity|].
  destruct e; cbn; try exact IH. f_equal. exact IH.
Qed.

Lemma page_depths_sched (t : list Event) :
  page_depths (sched t) = page_depths t.
Proof.
  induction t as [|e t IH]; [reflexivity|].
  destruct e as [| |[]| | | | | | |]; cbn; try exact IH. f_equal. exact IH.
Qed.

Lemma visits_blocks (l : list Entry) : visits (blocks l) = urls l.
Proof.
  induction l as [|[k u] l IH]; cbn; [reflexivity|]. f_equal. exact IH.
Qed.

Lemma handed_blocks (l : list Entry) : handed (blocks l) = urls l.
Proof.
  induction l as [|[k u] l IH]; cbn; [reflexivity|]. f_equal. exact IH.
Qed.

Lemma page_depths_blocks (l : list Entry) : page_depths (blocks l) = depths l.
Proof.
  induction l as [|[[d|] u] l IH]; cbn; [reflexivity| |];
    [f_equal|]; exact IH.
Qed.

(** In a sequence of blocks every hand-over comes right after the addition
    of its URL. *)
Lemma blocks_fetch_after_add (l : list Entry) (pre post : list Event)
    (k : FetchKind) (u : string) :
  blocks l = pre ++ Fetch k u :: post -> In (VisitedAdd u) pre.
Proof.
  revert pre. induction l as [|[k' u'] l IH]; intros pre Heq.
  - destruct pre; discriminate.
  - cbn in Heq. destruct pre as [|x [|y pre]]; cbn in Heq.
    + discriminate.
    + inversion Heq; subst. now left.
    + inversion Heq; subst. right. right. now apply IH.
Qed.

Lemma pages_NoDup (l : list Entry) : NoDup (urls l) -> NoDup (pages l).
Proof.
  unfold urls, pages. induction l as [|en l IH]; cbn; intros Hn.
  - constructor.
  - apply NoDup_cons in Hn as [Hx Hn].
    destruct (is_page en); cbn; [|now apply IH].
    apply NoDup_cons. split; [|now apply IH].
    intros Hin. apply Hx.
    apply list_elem_of_In in Hin. apply list_elem_of_In.
    apply in_map_iff in Hin as (y & Hy & Hin).
    apply in_map_iff. exists y. split; [exact Hy|].
    now apply List.filter_In in Hin as [Hin _].
Qed.

Section SchedulerInvariant.
Context (E : Env) (W : World) (C : Config).

Hint Resolve ss_emit ss_log ss_set_running ss_set_redirects ss_set_analysis
  ss_set_ticks ss_write ss_stop ss_await ss_sleep ss_filter_url ss_save_file
  ss_probe ss_analyze_js ss_analyze_content ss_asset_success ss_asset_await
  ss_fetch : sched.
Hint Extern 1 (quiet _ = true) => reflexivity : sched.


Lemma asset_begin_inv (url : string) (s : State) (l : list Entry) :
  Inv s l -> adds_assets (snd (Crawler.asset_begin E C url s)) l.
Proof.
  intros HI. unfold Crawler.asset_begin.
  destruct (negb (running s)).
  { exists []. rewrite app_nil_r. auto. }
  case_bool_decide as Hv.
  { exists []. rewrite app_nil_r. auto. }
  pose proof (ss_filter_url E C url s s (same_sched_refl s)) as Hf.
  destruct (Crawler.filter_url E C url s) as [ok s1]. cbn [snd] in Hf.
  destruct ok; cbn [negb].
  2:{ exists []. rewrite app_nil_r. split; [|reflexivity].
      eapply Inv_same_sched; eauto. }
  exists [(Asset, url)]. split; [|reflexivity].
  assert (HI1 : Inv s1 l) by (eapply Inv_same_sched; eauto).
  assert (Hv1 : url ∉ visited_urls s1).
  { destruct Hf as (-> & _). exact Hv. }
  pose proof (Inv_take s1 l Asset url HI1 Hv1) as HI2.
  destruct (Crawler.attempts C); cbn [snd]; [exact HI2|].
  eapply Inv_same_sched; [exact HI2|]. auto with sched.
Qed.

Lemma begin_all_inv (us : list string) (s : State) (l : list Entry) :
  Inv s l -> adds_assets (snd (Crawler.begin_all E C us s)) l.
Proof.
  revert s l. induction us as [|u us IH]; intros s l HI;
    cbn [Crawler.begin_all].
  { exists []. rewrite app_nil_r. auto. }
  destruct (asset_begin_inv u s l HI) as (a1 & HI1 & Hd1).
  destruct (Crawler.asset_begin E C u s) as [p s1]. cbn [snd] in HI1.
  destruct (IH s1 _ HI1) as (a2 & HI2 & Hd2).
  destruct (Crawler.begin_all E C us s1) as [ps s2]. cbn [snd] in *.
  exists (a1 ++ a2). rewrite app_assoc. split; [exact HI2|].
  now rewrite depths_app, Hd1, Hd2.
Qed.

Lemma ss_await_all (tasks : list (string * (Z * list Z))) (s s' : State) :
  same_sched s s' -> same_sched s (Crawler.await_all E W C tasks s').
Proof.
  revert s'. induction tasks as [|[u [a rest]] tasks IH]; intros s' H;
    cbn [Crawler.await_all]; auto with sched.
Qed.

Lemma gather_assets_inv (us : list string) (s : State) (l : list Entry) :
  Inv s l -> adds_assets (Crawler.gather_assets E W C us s) l.
Proof.
  intros HI. unfold Crawler.gather_assets.
  destruct (begin_all_inv us s l HI) as (a & HI1 & Hd).
  destruct (Crawler.begin_all E C us s) as [tasks s1]. cbn [snd] in HI1.
  exists a. split; [|exact Hd].
  eapply Inv_same_sched; [exact HI1|].
  apply ss_await_all, same_sched_refl.
Qed.


Lemma adds_descent_none (d : Z) (s : State) (l : list Entry) :
  Inv s l -> adds_descent (crawl_depth C) d s l.
Proof.
  intros HI. exists []. rewrite app_nil_r. split; [exact HI|apply descent_nil].
Qed.

Lemma each_link_inv (d : Z) (visit : string -> State -> Res unit)
    (links : list string) :
  (forall u s l,
      Inv s l -> adds_descent (crawl_depth C) d (res_state (visit u s)) l) ->
  forall s l,
    Inv s l ->
    adds_descent (crawl_depth C) d
      (res_state (Crawler.each_link visit links s)) l.
Proof.
  intros Hvisit. induction links as [|u links IH]; intros s l HI;
    cbn [Crawler.each_link].
  { now apply adds_descent_none. }
  destruct (Hvisit u s l HI) as (a1 & HI1 & Hd1).
  destruct (visit u s) as [[] s1|s1]; cbn [res_state] in *.
  - destruct (IH s1 _ HI1) as (a2 & HI2 & Hd2).
    exists (a1 ++ a2). rewrite app_assoc. split; [exact HI2|].
    rewrite depths_app. now apply descent_app.
  - exists a1. auto.
Qed.

Lemma crawl_page_inv (fuel : nat) (url : string) (d : Z) (s : State)
    (l : list Entry) :
  Inv s l ->
  adds_descent (crawl_depth C) d
    (res_state (Crawler.crawl_page E W C fuel url d s)) l.
Proof.
  revert url d s l. induction fuel as [|fuel IH]; intros url d s l HI;
    cbn [Crawler.crawl_page].
  { now apply adds_descent_none. }
  destruct (negb (running s)); cbn [orb].
  { now apply adds_descent_none. }
  destruct (d >? crawl_depth C) eqn:Hd; cbn [orb].
  { now apply adds_descent_none. }
  case_bool_decide as Hv.
  { now apply adds_descent_none. }
  pose proof (ss_filter_url E C url s s (same_sched_refl s)) as Hf.
  destruct (Crawler.filter_url E C url s) as [ok s1]. cbn [snd] in Hf.
  assert (HI1 : Inv s1 l) by (eapply Inv_same_sched; eauto).
  destruct ok; cbn [negb].
  2:{ now apply adds_descent_none. }
  assert (Hv1 : url ∉ visited_urls s1).
  { destruct Hf as (-> & _). exact Hv. }
  assert (Hle : d <= crawl_depth C) by lia.
  (* the page is taken up *)
  set (s2 := emit (Fetch (Page d) url)
               (log Info (MCrawling url d)
                  (sitemap_append url (visited_add url s1)))).
  assert (HI2 : Inv s2 (l ++ [(Page d, url)])).
  { pose proof (Inv_take s1 l (Page d) url HI1 Hv1) as HT.
    destruct HT as (T1 & T2 & T3 & T4). unfold Inv, s2. session_simpl.
    repeat split; try assumption; try apply T3.
    rewrite <- T1. session_simpl. rewrite !sched_app. cbn.
    now rewrite app_nil_r. }
  assert (Hone : forall s',
             same_sched s2 s' -> adds_descent (crawl_depth C) d s' l).
  { intros s' Hs. exists [(Page d, url)]. split.
    - eapply Inv_same_sched; eauto.
    - cbn. apply descent_node; [exact Hle|apply descent_nil]. }
  pose proof (ss_fetch E W C fuel url 1 s2 s2 (same_sched_refl s2)) as Hfetch.
  destruct (Crawler.fetch_with_redirects E W C fuel url 1 s2)
    as [[final_url fetched] s3|s3]; cbn [res_state] in *.
  2:{ now apply Hone. }
  destruct (Analyzer.truthy_opt fetched) as [html|].
  2:{ now apply Hone. }
  destruct (parse_html E html) as [selector|].
  2:{ apply Hone. cbn [res_state]. auto with sched. }
  (* assets, then links *)
  set (s5 := Crawler.analyze_content E selector html
               (Crawler.save_file E W C final_url (Str html) false
                  "text/html" s3)).
  assert (HI5 : Inv s5 (l ++ [(Page d, url)])).
  { eapply Inv_same_sched; [exact HI2|]. unfold s5. auto with sched. }
  destruct (gather_assets_inv
              (List.map (urljoin E final_url) (Query.asset_refs selector))
              s5 _ HI5) as (assets & HI6 & Hd6).
  match goal with
  | |- adds_descent _ d (res_state (Crawler.each_link ?v ?ls ?s6)) l =>
      destruct (each_link_inv (d + 1) v ls) with (s := s6)
        (l := (l ++ [(Page d, url)]) ++ assets) as (below & HI7 & Hd7)
  end.
  - intros u s7 l7 HI7.
    destruct (String.eqb _ _); [apply IH, HI7|now apply adds_descent_none].
  - exact HI6.
  - exists ([(Page d, url)] ++ assets ++ below). split.
    + now rewrite !app_assoc.
    + rewrite !depths_app, Hd6. cbn.
      now apply descent_node.
Qed.

End SchedulerInvariant.

(** ** Requests of the page fetcher *)

Lemma page_depths_app (a b : list Event) :
  page_depths (a ++ b) = page_depths a ++ page_depths b.
Proof. apply flat_map_app. Qed.

Lemma requests_follow_pages_nil : requests_follow_pages [].
Proof. intros pre e post Heq. destruct pre; discriminate. Qed.

(** Once a page was handed over, anything may follow. *)
Lemma requests_follow_pages_after (t added : list Event) :
  requests_follow_pages t -> page_depths t <> [] ->
  requests_follow_pages (t ++ added).
Proof.
  intros Ht Hp pre e post Heq He.
  apply app_eq_app in Heq as [m [[Hl Hm]|[Hl Hm]]].
  - destruct m as [|x m].
    + rewrite app_nil_r in Hl. now subst pre.
    + cbn in Hm. injection Hm as -> ->. eapply Ht; [exact Hl|exact He].
  - subst pre. rewrite page_depths_app. intros Hnil.
    apply app_eq_nil in Hnil as [Hnil _]. contradiction.
Qed.

(** Before that, whatever follows holds no request of the page fetcher. *)
Lemma requests_follow_pages_quiet (t added : list Event) :
  requests_follow_pages t ->
  forallb (fun e => negb (is_page_request e)) added = true ->
  requests_follow_pages (t ++ added).
Proof.
  intros Ht Ha pre e post Heq He.
  apply app_eq_app in Heq as [m [[Hl Hm]|[Hl Hm]]].
  - destruct m as [|x m].
    + cbn in Hm. subst added. cbn in Ha. rewrite He in Ha. discriminate.
    + cbn in Hm. injection Hm as -> ->. eapply Ht; [exact Hl|exact He].
  - subst added. rewrite forallb_app in Ha.
    apply andb_prop in Ha as [_ Ha]. cbn in Ha. rewrite He in Ha.
    discriminate.
Qed.

Lemma extends_refl (s : State) : extends s s.
Proof. exists []. now rewrite app_nil_r. Qed.

Lemma extends_trans (a b c : State) : extends a b -> extends b c -> extends a c.
Proof.
  intros [x Hx] [y Hy]. exists (x ++ y). now rewrite Hy, Hx, app_assoc.
Qed.

Section TraceGrows.
Context (E : Env) (W : World) (C : Config).

Lemma ex_emit (e : Event) (s s' : State) :
  extends s s' -> extends s (emit e s').
Proof.
  intros [x Hx]. exists (x ++ [e]). session_simpl. now rewrite Hx, app_assoc.
Qed.

Lemma ex_log (lvl : Level) (m : Msg) (s s' : State) :
  extends s s' -> extends s (log lvl m s').
Proof. apply ex_emit. Qed.

Lemma ex_set_running (b : bool) (s s' : State) :
  extends s s' -> extends s (set_running b s').
Proof. intros H. exact H. Qed.

Lemma ex_set_redirects (r : gmap string string) (s s' : State) :
  extends s s' -> extends s (set_redirects r s').
Proof. intros H. exact H. Qed.

Lemma ex_set_analysis (a : Analysis) (s s' : State) :
  extends s s' -> extends s (set_analysis a s').
Proof. intros H. exact H. Qed.

Lemma ex_set_ticks (n : nat) (s s' : State) :
  extends s s' -> extends s (set_ticks n s').
Proof. intros H. exact H. Qed.

Lemma ex_write (p : string) (b : Body) (s s' : State) :
  extends s s' -> extends s (write p b s').
Proof. intros H. unfold write. apply ex_emit. exact H. Qed.

Lemma ex_visited_add (u : string) (s s' : State) :
  extends s s' -> extends s (visited_add u s').
Proof. intros H. unfold visited_add. apply ex_emit. exact H. Qed.

Lemma ex_sitemap_append (u : string) (s s' : State) :
  extends s s' -> extends s (sitemap_append u s').
Proof. intros H. exact H. Qed.

Lemma ex_stop (s s' : State) : extends s s' -> extends s (Crawler.stop s').
Proof. intros H. unfold Crawler.stop. apply ex_log. exact H. Qed.

Lemma ex_await (s s' : State) :
  extends s s' -> extends s (Crawler.await W s').
Proof.
  intros H. unfold Crawler.await.
  destruct (stop_pressed W (ticks s')); [apply ex_stop|]; exact H.
Qed.

Lemma ex_sleep (secs : Z) (s s' : State) :
  extends s s' -> extends s (Crawler.sleep W secs s').
Proof. intros H. unfold Crawler.sleep. apply ex_await, ex_emit, H. Qed.

Create HintDb grows discriminated.

Hint Resolve ex_emit ex_log ex_set_running ex_set_redirects ex_set_analysis
  ex_set_ticks ex_write ex_visited_add ex_sitemap_append ex_stop ex_await
  ex_sleep : grows.

Ltac grows_cases :=
  repeat innermost_case; cbn [snd res_state]; auto 10 with grows.

Lemma ex_filter_url (url : string) (s s' : State) :
  extends s s' -> extends s (snd (Crawler.filter_url E C url s')).
Proof. intros H. unfold Crawler.filter_url. grows_cases. Qed.

Lemma ex_save_file (url : string) (b : Body) (bin : bool) (ctype : string)
    (s s' : State) :
  extends s s' -> extends s (Crawler.save_file E W C url b bin ctype s').
Proof. intros H. unfold Crawler.save_file. grows_cases. Qed.

Lemma ex_probe (api_url : string) (s s' : State) :
  extends s s' -> extends s (Crawler.probe W api_url s').
Proof. intros H. unfold Crawler.probe. grows_cases. Qed.

Lemma ex_analyze_js (content url : string) (s s' : State) :
  extends s s' -> extends s (Crawler.analyze_js E W content url s').
Proof.
  intros H. unfold Crawler.analyze_js. cbv zeta.
  revert s' H. induction (find_api_urls E content) as [|u us IH];
    intros s' H; cbn [fold_left]; [exact H|].
  apply IH, ex_probe, H.
Qed.

Lemma ex_analyze_content (d : Document) (content : string) (s s' : State) :
  extends s s' -> extends s (Crawler.analyze_content E d content s').
Proof. intros H. exact H. Qed.

Hint Resolve ex_filter_url ex_save_file ex_probe ex_analyze_js
  ex_analyze_content : grows.

Lemma ex_asset_success (url : string) (r : Response) (s s' : State) :
  extends s s' -> extends s (Crawler.asset_success E W C url r s').
Proof.
  intros H. unfold Crawler.asset_success. cbv zeta.
  destruct (_ && _); auto with grows.
Qed.

Hint Resolve ex_asset_success : grows.

Lemma ex_asset_await (rest : list Z) (url : string) (a : Z) (s s' : State) :
  extends s s' -> extends s (Crawler.asset_await E W C rest url a s').
Proof.
  revert a s'. induction rest as [|a' rest IH]; intros a s' H;
    cbn [Crawler.asset_await]; grows_cases.
Qed.

Lemma ex_fetch (fuel : nat) (url : string) (a : Z) (s s' : State) :
  extends s s' ->
  extends s (res_state (Crawler.fetch_with_redirects E W C fuel url a s')).
Proof.
  revert url a s'. induction fuel as [|fuel IH]; intros url a s' H;
    cbn [Crawler.fetch_with_redirects]; [exact H|].
  grows_cases.
Qed.

Lemma ex_asset_begin (url : string) (s s' : State) :
  extends s s' -> extends s (snd (Crawler.asset_begin E C url s')).
Proof.
  intros H. unfold Crawler.asset_begin.
  destruct (negb (running s')); [exact H|].
  case_bool_decide; [exact H|].
  pose proof (ex_filter_url url s s' H) as Hf.
  destruct (Crawler.filter_url E C url s') as [[|] s1]; cbn [snd negb] in *;
    [|exact Hf].
  destruct (Crawler.attempts C); cbn [snd]; auto 10 with grows.
Qed.

Lemma ex_gather_assets (us : list string) (s s' : State) :
  extends s s' -> extends s (Crawler.gather_assets E W C us s').
Proof.
  intros H. unfold Crawler.gather_assets.
  assert (Ha : extends s (snd (Crawler.begin_all E C us s'))).
  { revert s' H. induction us as [|u us IH]; intros s' H;
      cbn [Crawler.begin_all]; [exact H|].
    pose proof (ex_asset_begin u s s' H) as H1.
    destruct (Crawler.asset_begin E C u s') as [p s1]. cbn [snd] in H1.
    specialize (IH s1 H1).
    destruct (Crawler.begin_all E C us s1) as [ps s2]. exact IH. }
  destruct (Crawler.begin_all E C us s') as [tasks s1]. cbn [snd] in Ha.
  clear H. revert s1 Ha.
  induction tasks as [|[u [a rest]] tasks IH]; intros s1 Ha;
    cbn [Crawler.await_all]; [exact Ha|].
  apply IH, ex_asset_await, Ha.
Qed.

Lemma ex_each_link (visit : string -> State -> Res unit) (links : list string) :
  (forall u s s', extends s s' -> extends s (res_state (visit u s'))) ->
  forall s s', extends s s' ->
               extends s (res_state (Crawler.each_link visit links s')).
Proof.
  intros Hv. induction links as [|u links IH]; intros s s' H;
    cbn [Crawler.each_link]; [exact H|].
  pose proof (Hv u s s' H) as H1.
  destruct (visit u s') as [[] s1|s1]; cbn [res_state] in *; auto.
Qed.

Lemma ex_crawl_page (fuel : nat) (url : string) (d : Z) (s s' : State) :
  extends s s' ->
  extends s (res_state (Crawler.crawl_page E W C fuel url d s')).
Proof.
  revert s url d s'. induction fuel as [|fuel IH]; intros s url d s' H;
    cbn [Crawler.crawl_page]; [exact H|].
  destruct (_ || _); [exact H|].
  pose proof (ex_filter_url url s s' H) as Hf.
  destruct (Crawler.filter_url E C url s') as [[|] s1]; cbn [snd negb] in *;
    [|exact Hf].
  match goal with
  | |- context [Crawler.fetch_with_redirects E W C fuel url 1 ?s2] =>
      pose proof (ex_fetch fuel url 1 s s2) as Hfetch;
        destruct (Crawler.fetch_with_redirects E W C fuel url 1 s2)
        as [[final_url fetched] s3|s3]
  end; cbn [res_state] in *.
  2:{ apply Hfetch. auto 10 with grows. }
  assert (H3 : extends s s3) by (apply Hfetch; auto 10 with grows).
  destruct (Analyzer.truthy_opt fetched) as [html|]; [|exact H3].
  destruct (parse_html E html) as [selector|];
    [|cbn [res_state]; auto with grows].
  apply ex_each_link.
  - intros u x x' Hx. destruct (String.eqb _ _); [apply IH, Hx|exact Hx].
  - apply ex_gather_assets. auto with grows.
Qed.

(** A call of the scheduler sends the requests of the page fetcher only
    after it handed a page over. *)
Lemma crawl_page_requests (fuel : nat) (url : string) (d : Z) (s : State) :
  requests_follow_pages (trace s) ->
  requests_follow_pages
    (trace (res_state (Crawler.crawl_page E W C fuel url d s))).
Proof.
  intros Hs. destruct fuel as [|fuel]; cbn [Crawler.crawl_page]; [exact Hs|].
  destruct (_ || _); [exact Hs|].
  assert (Hf : requests_follow_pages
                 (trace (snd (Crawler.filter_url E C url s)))).
  { unfold Crawler.filter_url.
    repeat innermost_case; cbn [snd]; try exact Hs; session_simpl;
      now apply requests_follow_pages_quiet. }
  destruct (Crawler.filter_url E C url s) as [[|] s1]; cbn [snd negb] in *;
    [|exact Hf].
  set (s2 := emit (Fetch (Page d) url)
               (log Info (MCrawling url d)
                  (sitemap_append url (visited_add url s1)))).
  assert (H2 : requests_follow_pages (trace s2)
               /\ page_depths (trace s2) <> []).
  { unfold s2. session_simpl. split.
    - rewrite <- !app_assoc. now apply requests_follow_pages_quiet.
    - rewrite !page_depths_app. cbn. intros Hnil.
      apply app_eq_nil in Hnil as [_ Hnil]. discriminate. }
  destruct H2 as [H2 Hp].
  assert (Hall : forall s', extends s2 s' -> requests_follow_pages (trace s')).
  { intros s' [x ->]. now apply requests_follow_pages_after. }
  apply Hall.
  pose proof (ex_fetch fuel url 1 s2 s2 (extends_refl s2)) as H3.
  fold s2.
  destruct (Crawler.fetch_with_redirects E W C fuel url 1 s2)
    as [[final_url fetched] s3|s3]; cbn [res_state] in *; [|exact H3].
  destruct (Analyzer.truthy_opt fetched) as [html|]; [|exact H3].
  destruct (parse_html E html) as [selector|];
    [|cbn [res_state]; auto with grows].
  apply ex_each_link.
  - intros u x x' Hx.
    destruct (String.eqb _ _); [apply ex_crawl_page, Hx|exact Hx].
  - apply ex_gather_assets. auto with grows.
Qed.

End TraceGrows.

Section Run.
Context (E : Env) (W : World) (C : Config).

Lemma ss_save_sitemap (s s' : State) :
  same_sched s s' -> same_sched s (Crawler.save_sitemap E W C s').
Proof.
  intros H. unfold Crawler.save_sitemap.
  destruct (open_ok W _); auto using ss_log, ss_write.
Qed.

Lemma ss_save_analysis (s s' : State) :
  same_sched s s' -> same_sched s (Crawler.save_analysis E W C s').
Proof.
  intros H. unfold Crawler.save_analysis.
  destruct (open_ok W _); auto using ss_log, ss_write.
Qed.

Lemma ss_create_zip (s s' : State) :
  same_sched s s' -> same_sched s (Crawler.create_zip E W C s').
Proof.
  intros H. unfold Crawler.create_zip.
  destruct (open_ok W _); auto using ss_log, ss_emit.
Qed.

Lemma Inv_init : Inv (Crawler.init_state W C) [].
Proof.
  repeat split; cbn; try constructor; try tauto.
  intros Hu. now apply not_elem_of_empty in Hu.
Qed.

(** The invariant holds where a run ends, or where it is cut off, and the
    pages were taken up in a descent from depth 0. *)
Lemma run_inv (fuel : nat) :
  exists l,
    Inv (res_state (Crawler.download_website E W C fuel)) l
    /\ descent (crawl_depth C) 0 (depths l).
Proof.
  unfold Crawler.download_website.
  set (s0 := set_running true (Crawler.init_state W C)).
  assert (H0 : Inv s0 []) by exact Inv_init.
  destruct (negb (PyStr.truthy (cfg_url C))).
  { exists []. split; [|apply descent_nil]. cbn [res_state].
    eapply Inv_same_sched; [exact H0|].
    apply ss_log, same_sched_refl. }
  destruct (negb (client_created W)).
  { exists []. split; [|apply descent_nil]. cbn [res_state].
    eapply Inv_same_sched; [exact H0|].
    apply ss_set_running, ss_log, ss_log, same_sched_refl. }
  match goal with
  | |- context [Crawler.crawl_page E W C fuel _ 0 ?s2] =>
      assert (H2 : Inv s2 [])
  end.
  { eapply Inv_same_sched; [exact H0|].
    destruct (_ && _); [apply (ss_log Warning MPlaywrightFailed)|];
      apply ss_log, same_sched_refl. }
  destruct (crawl_page_inv E W C fuel (cfg_url C) 0 _ [] H2)
    as (l & HI & Hd).
  cbn [app] in HI. exists l. split; [|exact Hd].
  destruct (Crawler.crawl_page E W C fuel (cfg_url C) 0 _) as [[] s3|s3];
    cbn [res_state] in *; [|exact HI].
  eapply Inv_same_sched; [exact HI|].
  apply ss_set_running, ss_log, ss_create_zip, ss_save_analysis,
    ss_save_sitemap, same_sched_refl.
Qed.

Lemma rfp_emit (e : Event) (s : State) :
  requests_follow_pages (trace s) -> is_page_request e = false ->
  requests_follow_pages (trace (emit e s)).
Proof.
  intros Hs He. session_simpl. apply requests_follow_pages_quiet; [exact Hs|].
  cbn. now rewrite He.
Qed.

(** In a run every request of the page fetcher follows a hand-over. *)
Lemma run_requests (fuel : nat) :
  requests_follow_pages
    (trace (res_state (Crawler.download_website E W C fuel))).
Proof.
  unfold Crawler.download_website.
  assert (H0 : requests_follow_pages
                 (trace (set_running true (Crawler.init_state W C))))
    by exact requests_follow_pages_nil.
  destruct (negb (PyStr.truthy (cfg_url C))).
  { cbn [res_state]. now apply rfp_emit. }
  destruct (negb (client_created W)).
  { cbn [res_state]. apply rfp_emit; [|reflexivity]. now apply rfp_emit. }
  match goal with
  | |- context [Crawler.crawl_page E W C fuel _ 0 ?s2] =>
      assert (H2 : requests_follow_pages (trace s2))
  end.
  { destruct (_ && _); [apply (rfp_emit (Log Warning MPlaywrightFailed));
                        [|reflexivity]|];
      now apply rfp_emit. }
  pose proof (crawl_page_requests E W C fuel (cfg_url C) 0 _ H2) as H3.
  destruct (Crawler.crawl_page E W C fuel (cfg_url C) 0 _) as [[] s3|s3];
    cbn [res_state] in *; [|exact H3].
  unfold Crawler.create_zip, Crawler.save_analysis, Crawler.save_sitemap,
    write, log.
  repeat innermost_case;
    repeat first [exact H3 | apply rfp_emit; [|reflexivity]].
Qed.

End Run.

(** C1 (as amended): in every run, finished or cut off, each URL string is
    added to the visited set at most once, the scheduler hands each URL to
    the fetcher at most once, as a page or as an asset, and only after the
    URL was added to the visited set, and each page URL is on the sitemap
    at most once.  The visited set holds exactly the URLs that were added:
    strings are compared as they are. *)
Theorem C1_each_url_taken_up_once (E : Env) (W : World) (C : Config)
    (fuel : nat) :
  let s := res_state (Crawler.download_website E W C fuel) in
  NoDup (visits (trace s))
  /\ (forall u, u ∈ visited_urls s <-> In u (visits (trace s)))
  /\ NoDup (handed (trace s))
  /\ (forall pre k u post,
        trace s = pre ++ Fetch k u :: post -> In (VisitedAdd u) pre)
  /\ NoDup (sitemap s).
Proof.
  cbv zeta. destruct (run_inv E W C fuel) as (l & (H1 & H2 & H3 & H4) & _).
  assert (Hv : visits (trace (res_state (Crawler.download_website E W C fuel)))
               = urls l)
    by (rewrite <- visits_sched, H1; apply visits_blocks).
  assert (Hh : handed (trace (res_state (Crawler.download_website E W C fuel)))
               = urls l)
    by (rewrite <- handed_sched, H1; apply handed_blocks).
  rewrite Hv, Hh, H4. repeat split; auto.
  - apply H3.
  - apply H3.
  - intros pre k u post Heq.
    assert (Hs : blocks l = sched pre ++ Fetch k u :: sched post).
    { rewrite <- H1, Heq, sched_app. reflexivity. }
    apply blocks_fetch_after_add in Hs.
    now apply List.filter_In in Hs as [Hs _].
  - now apply pages_NoDup.
Qed.

(** ** The depths of the calls of the scheduler *)

Lemma climbs_weaken (p q : Z) (ds : list Z) :
  p <= q -> climbs p ds = true -> climbs q ds = true.
Proof.
  intros Hpq. destruct ds as [|k ds]; [reflexivity|]. cbn [climbs].
  intros [Hk Hc]%andb_true_iff. apply andb_true_iff. split; [lia|exact Hc].
Qed.

Lemma climbs_app (limit d : Z) (b a : list Z) (p : Z) :
  d <= p ->
  forallb (fun k => (d <? k) && (k <=? limit)) a = true ->
  climbs p a = true -> climbs d b = true -> climbs p (a ++ b) = true.
Proof.
  revert p. induction a as [|k a IH]; intros p Hp Ha Hc Hb.
  - now apply (climbs_weaken d).
  - cbn [forallb climbs app] in *.
    apply andb_true_iff in Ha as [Hk Ha]. apply andb_true_iff in Hc as [Hs Hc].
    apply andb_true_iff. split; [exact Hs|]. apply IH; try assumption. lia.
Qed.

Lemma below_of_nil (limit d : Z) : below_of limit d [] = true.
Proof. reflexivity. Qed.

Lemma below_of_app (limit d : Z) (a b : list Z) :
  below_of limit d a = true -> below_of limit d b = true ->
  below_of limit d (a ++ b) = true.
Proof.
  unfold below_of. intros [Fa Ca]%andb_true_iff [Fb Cb]%andb_true_iff.
  apply andb_true_iff. split.
  - rewrite forallb_app, Fa, Fb. reflexivity.
  - apply (climbs_app limit d); try assumption. lia.
Qed.

(** What a call one level down hands over is part of what the loop of its
    caller hands over. *)
Lemma call_depths_below (limit d : Z) (ds : list Z) :
  call_depths limit (d + 1) ds = true -> below_of limit d ds = true.
Proof.
  destruct ds as [|k below]; [reflexivity|]. unfold call_depths, below_of.
  intros [[Hk Hd]%andb_true_iff [Fb Cb]%andb_true_iff]%andb_true_iff.
  apply Z.eqb_eq in Hk. subst k. cbn [forallb climbs].
  apply andb_true_iff. split.
  - apply andb_true_iff. split; [lia|].
    rewrite forallb_forall in Fb |- *. intros x Hx.
    specialize (Fb x Hx). lia.
  - apply andb_true_iff. split; [lia|exact Cb].
Qed.

Lemma call_depths_node (limit d : Z) (below : list Z) :
  d <= limit -> below_of limit d below = true ->
  call_depths limit d (d :: below) = true.
Proof.
  intros Hd Hb. unfold call_depths. rewrite Hb, Z.eqb_refl.
  apply andb_true_iff. split; [|reflexivity]. cbn. lia.
Qed.

Lemma climbs_step (p : Z) (l pre : list Z) (x y : Z) (post : list Z) :
  climbs p l = true -> l = pre ++ x :: y :: post -> y <= x + 1.
Proof.
  revert p l. induction pre as [|z pre IH]; intros p l Hc ->.
  - cbn in Hc. lia.
  - cbn [app climbs] in Hc. apply andb_true_iff in Hc as [_ Hc].
    now apply (IH z _ Hc).
Qed.

(** Read as a statement on neighbours: after the first, every depth lies
    below the depth of the call and at most one below the depth before. *)
Lemma call_depths_steps (limit d : Z) (ds pre : list Z) (x y : Z)
    (post : list Z) :
  call_depths limit d ds = true -> ds = pre ++ x :: y :: post ->
  d + 1 <= y <= x + 1.
Proof.
  intros Hc ->. destruct pre as [|k pre]; cbn [app call_depths] in Hc;
    apply andb_true_iff in Hc as [[Hk _]%andb_true_iff Hb];
    apply Z.eqb_eq in Hk; unfold below_of in Hb;
    apply andb_true_iff in Hb as [Fb Cb].
  - subst x. cbn in Fb, Cb. lia.
  - subst k. assert (Hy : In y (pre ++ x :: y :: post))
      by (apply in_or_app; right; right; now left).
    rewrite forallb_forall in Fb. specialize (Fb y Hy).
    pose proof (climbs_step d _ pre x y post Cb eq_refl). lia.
Qed.

Section CallDepths.
Context (E : Env) (W : World) (C : Config).

Lemma pd_same_sched (s s' : State) :
  same_sched s s' -> page_depths (trace s') = page_depths (trace s).
Proof.
  intros (_ & _ & H).
  now rewrite <- (page_depths_sched (trace s')), H, page_depths_sched.
Qed.

Lemma pd_asset_begin (url : string) (s : State) :
  page_depths (trace (snd (Crawler.asset_begin E C url s)))
  = page_depths (trace s).
Proof.
  unfold Crawler.asset_begin.
  destruct (negb (running s)); [reflexivity|].
  case_bool_decide; [reflexivity|].
  pose proof (ss_filter_url E C url s s (same_sched_refl s)) as Hf.
  apply pd_same_sched in Hf.
  destruct (Crawler.filter_url E C url s) as [ok s1]. cbn [snd] in Hf.
  destruct ok; cbn [negb snd]; [|exact Hf].
  destruct (Crawler.attempts C); cbn [snd]; session_simpl;
    rewrite !page_depths_app; cbn; rewrite ?app_nil_r; exact Hf.
Qed.

Lemma pd_begin_all (us : list string) (s : State) :
  page_depths (trace (snd (Crawler.begin_all E C us s)))
  = page_depths (trace s).
Proof.
  revert s. induction us as [|u us IH]; intros s; cbn [Crawler.begin_all];
    [reflexivity|].
  pose proof (pd_asset_begin u s) as H1.
  destruct (Crawler.asset_begin E C u s) as [p s1]. cbn [snd] in H1.
  pose proof (IH s1) as H2.
  destruct (Crawler.begin_all E C us s1) as [ps s2]. cbn [snd] in *.
  congruence.
Qed.

Lemma pd_gather_assets (us : list string) (s : State) :
  page_depths (trace (Crawler.gather_assets E W C us s))
  = page_depths (trace s).
Proof.
  unfold Crawler.gather_assets.
  pose proof (pd_begin_all us s) as H1.
  destruct (Crawler.begin_all E C us s) as [tasks s1]. cbn [snd] in H1.
  rewrite <- H1. apply pd_same_sched, ss_await_all, same_sched_refl.
Qed.

Lemma adds_pages_none (Q : list Z -> bool) (s s' : State) :
  Q [] = true -> page_depths (trace s') = page_depths (trace s) ->
  adds_pages Q s s'.
Proof. intros HQ H. exists []. now rewrite app_nil_r. Qed.

Lemma each_link_depths (d : Z) (visit : string -> State -> Res unit)
    (links : list string) :
  (forall u s,
      adds_pages (call_depths (crawl_depth C) (d + 1)) s
        (res_state (visit u s))) ->
  forall s,
    adds_pages (below_of (crawl_depth C) d) s
      (res_state (Crawler.each_link visit links s)).
Proof.
  intros Hvisit. induction links as [|u links IH]; intros s;
    cbn [Crawler.each_link].
  { now apply adds_pages_none. }
  destruct (Hvisit u s) as (a1 & H1 & Q1). apply call_depths_below in Q1.
  destruct (visit u s) as [[] s1|s1]; cbn [res_state] in *.
  - destruct (IH s1) as (a2 & H2 & Q2).
    exists (a1 ++ a2). split; [now rewrite H2, H1, app_assoc|].
    now apply below_of_app.
  - now exists a1.
Qed.

(** A call of [_crawl_page] at depth [d] hands over its own page at depth
    [d], if any, and through its loop only pages at depth [d + 1] and
    below. *)
Lemma crawl_page_depths (fuel : nat) (url : string) (d : Z) (s : State) :
  adds_pages (call_depths (crawl_depth C) d) s
    (res_state (Crawler.crawl_page E W C fuel url d s)).
Proof.
  revert url d s. induction fuel as [|fuel IH]; intros url d s;
    cbn [Crawler.crawl_page].
  { now apply adds_pages_none. }
  destruct (negb (running s)); cbn [orb].
  { now apply adds_pages_none. }
  destruct (d >? crawl_depth C) eqn:Hd; cbn [orb].
  { now apply adds_pages_none. }
  case_bool_decide as Hv.
  { now apply adds_pages_none. }
  pose proof (ss_filter_url E C url s s (same_sched_refl s)) as Hf.
  apply pd_same_sched in Hf.
  destruct (Crawler.filter_url E C url s) as [ok s1]. cbn [snd] in Hf.
  destruct ok; cbn [negb].
  2:{ now apply adds_pages_none. }
  assert (Hle : d <= crawl_depth C) by lia.
  set (s2 := emit (Fetch (Page d) url)
               (log Info (MCrawling url d)
                  (sitemap_append url (visited_add url s1)))).
  assert (H2 : page_depths (trace s2) = page_depths (trace s) ++ [d]).
  { unfold s2. session_simpl. rewrite !page_depths_app, Hf. cbn.
    now rewrite !app_nil_r. }
  assert (Hone : forall s',
             same_sched s2 s' ->
             adds_pages (call_depths (crawl_depth C) d) s s').
  { intros s' Hs. exists [d]. split.
    - now rewrite (pd_same_sched _ _ Hs).
    - now apply call_depths_node. }
  pose proof (ss_fetch E W C fuel url 1 s2 s2 (same_sched_refl s2)) as Hfetch.
  destruct (Crawler.fetch_with_redirects E W C fuel url 1 s2)
    as [[final_url fetched] s3|s3]; cbn [res_state] in *.
  2:{ now apply Hone. }
  destruct (Analyzer.truthy_opt fetched) as [html|].
  2:{ now apply Hone. }
  destruct (parse_html E html) as [selector|].
  2:{ apply Hone. cbn [res_state]. now apply ss_log. }
  set (s5 := Crawler.analyze_content E selector html
               (Crawler.save_file E W C final_url (Str html) false
                  "text/html" s3)).
  assert (H5 : page_depths (trace s5) = page_depths (trace s) ++ [d]).
  { rewrite <- H2. apply pd_same_sched. unfold s5.
    apply ss_analyze_content, ss_save_file, Hfetch. }
  match goal with
  | |- adds_pages _ s (res_state (Crawler.each_link ?v ?ls ?s6)) =>
      destruct (each_link_depths d v ls) with (s := s6) as (below & H7 & Q7)
  end.
  - intros u s7.
    destruct (String.eqb _ _); [apply IH|now apply adds_pages_none].
  - exists (d :: below). split.
    + rewrite H7, pd_gather_assets, H5, <- app_assoc. reflexivity.
    + now apply call_depths_node.
Qed.

(** A run is one call at depth 0. *)
Lemma run_depths (fuel : nat) :
  call_depths (crawl_depth C) 0
    (page_depths (trace (res_state (Crawler.download_website E W C fuel))))
  = true.
Proof.
  unfold Crawler.download_website.
  set (s0 := set_running true (Crawler.init_state W C)).
  destruct (negb (PyStr.truthy (cfg_url C))); [reflexivity|].
  destruct (negb (client_created W)); [reflexivity|].
  match goal with
  | |- context [Crawler.crawl_page E W C fuel _ 0 ?s2] =>
      assert (H2 : page_depths (trace s2) = []);
        [|destruct (crawl_page_depths fuel (cfg_url C) 0 s2) as (ds & Hd & Q)]
  end.
  { destruct (_ && _); reflexivity. }
  rewrite H2 in Hd. cbn [app] in Hd.
  destruct (Crawler.crawl_page E W C fuel (cfg_url C) 0 _) as [[] s3|s3];
    cbn [res_state] in *; [|now rewrite Hd].
  rewrite (pd_same_sched s3); [now rewrite Hd|].
  apply ss_set_running, ss_log, ss_create_zip, ss_save_analysis,
    ss_save_sitemap, same_sched_refl.
Qed.

End CallDepths.

(** C2: in every run, finished or cut off, every page handed to the
    fetcher is handed over at a depth between 0 and the configured maximum,
    and a page at a depth above 0 comes after a page at the depth just
    below.  The page fetcher sends no request and loads no page before such
    a hand-over.  Each recursion goes exactly one level down from its
    caller: a call of [_crawl_page] at depth [d], from any session, hands
    over its own page at depth [d], if it takes it up, and after it only
    pages at depths above [d], the first of them at [d + 1] and none more
    than one level below the page before it.  A run is such a call at depth
    0: only its first page is at depth 0, and with a maximum of 0 no second
    page is handed over. *)
Theorem C2_page_depths_within_limit (E : Env) (W : World) (C : Config)
    (fuel : nat) :
  let t := trace (res_state (Crawler.download_website E W C fuel)) in
  Forall (fun d => 0 <= d <= crawl_depth C) (page_depths t)
  /\ (forall pre d post,
        page_depths t = pre ++ d :: post -> 0 < d -> In (d - 1) pre)
  /\ requests_follow_pages t
  /\ call_depths (crawl_depth C) 0 (page_depths t) = true
  /\ (forall pre d d' post,
        page_depths t = pre ++ d :: d' :: post -> 1 <= d' <= d + 1)
  /\ (crawl_depth C = 0 -> (List.length (page_depths t) <= 1)%nat)
  /\ (forall fuel' url d s,
        exists ds,
          page_depths
            (trace (res_state (Crawler.crawl_page E W C fuel' url d s)))
          = page_depths (trace s) ++ ds
          /\ call_depths (crawl_depth C) d ds = true
          /\ (forall pre x y post,
                ds = pre ++ x :: y :: post -> d + 1 <= y <= x + 1)).
Proof.
  cbv zeta. destruct (run_inv E W C fuel) as (l & (H1 & _) & [Hd1 Hd2]).
  pose proof (run_depths E W C fuel) as Hc.
  rewrite <- page_depths_sched, H1, page_depths_blocks in Hc |- *.
  split; [exact Hd1|]. split; [exact Hd2|]. split; [apply run_requests|].
  split; [exact Hc|]. split.
  { intros pre d d' post Heq.
    pose proof (call_depths_steps _ _ _ _ _ _ _ Hc Heq). lia. }
  split.
  { intros Hzero. destruct (depths l) as [|x [|y rest]] eqn:Hl; cbn; try lia.
    pose proof (call_depths_steps _ _ _ [] x y rest Hc eq_refl) as Hs.
    rewrite Forall_forall in Hd1.
    assert (0 <= y <= crawl_depth C)
      by (apply Hd1, list_elem_of_In; right; now left).
    lia. }
  intros fuel' url d s.
  destruct (crawl_page_depths E W C fuel' url d s) as (ds & Hds & Q).
  exists ds. split; [exact Hds|]. split; [exact Q|].
  intros pre x y post Heq. exact (call_depths_steps _ _ _ _ _ _ _ Q Heq).
Qed.

(** C1 (as stated) fails: the root redirects to [/home], whose page links
    to [/home].  The redirect target is requested without being added to
    the visited set, so the link is taken up and [/home] is requested a
    second time, with no failure in between. *)
Lemma C1_redirect_target_requested_twice :
  let s := res_state
             (Crawler.download_website Scenario.home_env Scenario.home_world
                (Scenario.config Scenario.root_url) 10) in
  gets (trace s)
  = [(Scenario.root_url, 1); (Scenario.home_url, 1); (Scenario.home_url, 1)]
  /\ sitemap s = [Scenario.root_url; Scenario.home_url]
  /\ ~ NoDup (List.map fst (gets (trace s))).
Proof.
  cbv zeta.
  assert (Hg : gets (trace (res_state
             (Crawler.download_website Scenario.home_env Scenario.home_world
                (Scenario.config Scenario.root_url) 10)))
          = [(Scenario.root_url, 1); (Scenario.home_url, 1);
             (Scenario.home_url, 1)])
    by (vm_compute; reflexivity).
  split; [exact Hg|]. split; [vm_compute; reflexivity|].
  rewrite Hg. cbn [List.map fst]. intros Hn.
  apply NoDup_cons in Hn as [_ Hn]. apply NoDup_cons in Hn as [Hn _].
  apply Hn. now left.
Qed.

(** ** JavaScript analysis *)


Lemma only_endpoints_refl (s : State) : only_endpoints s s.
Proof. repeat split. exists []. now rewrite app_nil_r. Qed.

Lemma only_endpoints_trans (a b c : State) :
  only_endpoints a b -> only_endpoints b c -> only_endpoints a c.
Proof.
  unfold only_endpoints.
  intros (A1 & A2 & A3 & A4 & A5 & A6 & A7 & A8 & A9 & A10 & x & Ax)
         (B1 & B2 & B3 & B4 & B5 & B6 & B7 & B8 & B9 & B10 & y & By).
  repeat split; try congruence.
  exists (x ++ y). now rewrite By, Ax, app_assoc.
Qed.

Lemma only_endpoints_await (W : World) (s : State) :
  only_endpoints s (Crawler.await W s).
Proof.
  unfold Crawler.await.
  destruct (stop_pressed W (ticks s)); repeat split;
    exists []; session_simpl; now rewrite app_nil_r.
Qed.

Lemma only_endpoints_probe (W : World) (api_url : string) (s : State) :
  only_endpoints s (Crawler.probe W api_url s).
Proof.
  unfold Crawler.probe.
  pose proof (only_endpoints_await W (emit (Probe api_url) s)) as Ha.
  destruct (httpx_get W (ticks s) api_url) as [r| |]; try exact Ha.
  eapply only_endpoints_trans; [exact Ha|].
  repeat split. session_simpl. eexists. reflexivity.
Qed.

Lemma only_endpoints_analyze_js (E : Env) (W : World) (content url : string)
    (s : State) :
  only_endpoints s (Crawler.analyze_js E W content url s).
Proof.
  unfold Crawler.analyze_js. cbv zeta.
  generalize (find_api_urls E content) as us. intros us. revert s.
  induction us as [|u us IH]; intros s; cbn [fold_left].
  - apply only_endpoints_refl.
  - eapply only_endpoints_trans; [apply only_endpoints_probe|apply IH].
Qed.

(** C10 (as amended): [_analyze_js] changes nothing of the session but the
    list of API endpoints, to which it appends; the visited set, the
    redirect map, the sitemap, the other fields of the report and the files
    on disk are as before.  Its outcome does not depend on the script
    parser, so it is the same whether the parse succeeds or not.  The file
    of a script asset holds what [_save_file] wrote before the analysis. *)
Theorem C10_analyze_js_touches_endpoints_only (E : Env) (W : World)
    (C : Config) (content url : string) (r : Response) (s : State) :
  only_endpoints s (Crawler.analyze_js E W content url s)
  /\ (forall parse print,
        Crawler.analyze_js (with_script_parser parse print E) W content url s
        = Crawler.analyze_js E W content url s)
  /\ files (Crawler.asset_success E W C url r s)
     = files (Crawler.save_file E W C url (Crawler.asset_body E r)
                (Crawler.asset_is_binary E r) (Crawler.asset_ctype E r) s).
Proof.
  split; [apply only_endpoints_analyze_js|]. split; [reflexivity|].
  unfold Crawler.asset_success. cbv zeta.
  destruct (_ && _); [|reflexivity].
  now destruct (only_endpoints_analyze_js E W (text r) url
                  (Crawler.save_file E W C url (Crawler.asset_body E r)
                     (Crawler.asset_is_binary E r) (Crawler.asset_ctype E r) s))
    as (_ & _ & _ & Hf & _).
Qed.

(** C10 (as stated) fails: a script that holds markup is saved with its
    [src] value rewritten, so the file is not the fetched text. *)
Lemma C10_saved_script_is_rewritten :
  files
    (Crawler.download_asset Demo.plain_env Scenario.script_world
       (Scenario.config Scenario.root_url) Scenario.script_url
       (Scenario.started Scenario.script_world
          (Scenario.config Scenario.root_url)))
    !! "site/src/app.js"
  = Some (Str Scenario.script_saved)
  /\ Scenario.script_saved <> Scenario.script_text.
Proof. split; [vm_compute; reflexivity|]. vm_compute. discriminate. Qed.

(** ** The fetcher *)

Section FetcherFacts.
Context (E : Env) (W : World) (C : Config).

(** The session after failed attempts: only the oracle index and the trace
    have moved. *)
Lemma after_failures_running (u : string) (a : Z) (k : nat) (s : State) :
  running (after_failures W u a k s) = running s.
Proof.
  revert a s. induction k as [|k IH]; intros a s; cbn; [|rewrite IH];
    reflexivity.
Qed.

Lemma after_failures_use_browser (u : string) (a : Z) (k : nat) (s : State) :
  use_browser (after_failures W u a k s) = use_browser s.
Proof.
  revert a s. induction k as [|k IH]; intros a s; cbn; [|rewrite IH];
    reflexivity.
Qed.

Lemma after_failures_redirects (u : string) (a : Z) (k : nat) (s : State) :
  redirects (after_failures W u a k s) = redirects s.
Proof.
  revert a s. induction k as [|k IH]; intros a s; cbn; [|rewrite IH];
    reflexivity.
Qed.

Lemma after_failures_ticks (u : string) (a : Z) (k : nat) (s : State) :
  ticks (after_failures W u a k s) = (ticks s + 2 * k)%nat.
Proof.
  revert a s. induction k as [|k IH]; intros a s; cbn [after_failures].
  - lia.
  - rewrite IH. session_simpl. lia.
Qed.

Lemma after_failures_trace (u : string) (a : Z) (k : nat) (s : State) :
  trace (after_failures W u a k s)
  = trace s ++ failed_attempts W (ticks s) u a k.
Proof.
  revert a s. induction k as [|k IH]; intros a s;
    cbn [after_failures failed_attempts].
  - now rewrite app_nil_r.
  - rewrite IH. session_simpl. now rewrite <- !app_assoc.
Qed.

(** [k] failing attempts, one after the other, each of them retried: the
    handler of [httpx.RequestError] always retries, the handler of other
    exceptions does below the retry budget. *)
Lemma fetch_after_failures (k fuel : nat) (u : string) (a : Z) (s : State) :
  running s = true -> use_browser s = false ->
  a + Z.of_nat k <= retries C + 1 ->
  (forall i,
      (i < k)%nat ->
      client_get W (ticks s + 2 * i)%nat u = RequestError
      \/ (client_get W (ticks s + 2 * i)%nat u = OtherError
          /\ a + Z.of_nat i < retries C)) ->
  (forall j, (j < 2 * k)%nat -> stop_pressed W (ticks s + j)%nat = false) ->
  Crawler.fetch_with_redirects E W C (k + fuel) u a s
  = Crawler.fetch_with_redirects E W C fuel u (a + Z.of_nat k)
      (after_failures W u a k s).
Proof.
  revert a s. induction k as [|k IH]; intros a s Hr Hb Ha Hget Hstop.
  - cbn [after_failures Nat.add]. f_equal. lia.
  - cbn [Nat.add Crawler.fetch_with_redirects].
    rewrite Hr, Hb. cbn [negb].
    replace (a >? retries C) with false by lia.
    pose proof (Hget 0%nat ltac:(lia)) as H0.
    rewrite Nat.mul_0_r, Nat.add_0_r in H0.
    pose proof (Hstop 0%nat ltac:(lia)) as S0. rewrite Nat.add_0_r in S0.
    pose proof (Hstop 1%nat ltac:(lia)) as S1.
    assert (Hnext :
      Crawler.fetch_with_redirects E W C (k + fuel) u (a + 1)
        (set_ticks (S (S (ticks s)))
           (emit (Sleep (2 ^ a))
              (emit (failure_log u (client_get W (ticks s) u))
                 (emit (Get u a) s))))
      = Crawler.fetch_with_redirects E W C fuel u (a + Z.of_nat (S k))
          (after_failures W u a (S k) s)).
    { rewrite IH.
      + cbn [after_failures]. f_equal. lia.
      + exact Hr.
      + exact Hb.
      + lia.
      + intros i Hi. session_simpl.
        replace (S (S (ticks s)) + 2 * i)%nat with (ticks s + 2 * S i)%nat
          by lia.
        destruct (Hget (S i) ltac:(lia)) as [Hq|[Hq Hlt]];
          [now left|right; split; [exact Hq|lia]].
      + intros j Hj. session_simpl.
        replace (S (S (ticks s)) + j)%nat with (ticks s + (2 + j))%nat by lia.
        apply Hstop. lia. }
    rewrite <- Hnext.
    unfold Crawler.sleep, Crawler.await. session_simpl.
    rewrite S0. session_simpl.
    replace (S (ticks s)) with (ticks s + 1)%nat by lia. rewrite S1.
    replace (ticks s + 1)%nat with (S (ticks s)) by lia.
    destruct H0 as [H0|[H0 Hlt]]; rewrite H0; cbn [failure_log].
    + reflexivity.
    + replace (a <? retries C) with true by lia. reflexivity.
Qed.

End FetcherFacts.

Lemma failed_attempts_snoc (W : World) (u : string) (k : nat) :
  forall t a,
    failed_attempts W t u a (S k)
    = failed_attempts W t u a k
      ++ [Get u (a + Z.of_nat k);
          failure_log u (client_get W (t + 2 * k)%nat u);
          Sleep (2 ^ (a + Z.of_nat k))].
Proof.
  induction k as [|k IH]; intros t a.
  - cbn. now rewrite Z.add_0_r, Nat.add_0_r.
  - change (failed_attempts W t u a (S (S k)))
      with ([Get u a; failure_log u (client_get W t u); Sleep (2 ^ a)]
              ++ failed_attempts W (S (S t)) u (a + 1) (S k)).
    rewrite IH. cbn [failed_attempts]. rewrite <- !app_assoc.
    replace (a + 1 + Z.of_nat k) with (a + Z.of_nat (S k)) by lia.
    replace (S (S t) + 2 * k)%nat with (t + 2 * S k)%nat by lia.
    reflexivity.
Qed.

(** After failed attempts, the next request is the head of what follows. *)
Lemma failed_attempts_head (W : World) (t : nat) (u : string) (a : Z)
    (k : nat) (tail : list Event) :
  exists rest,
    failed_attempts W t u a k ++ Get u (a + Z.of_nat k) :: tail
    = Get u a :: rest.
Proof.
  destruct k as [|k].
  - cbn. rewrite Z.add_0_r. now exists tail.
  - cbn. eexists. reflexivity.
Qed.

(** The sleep before attempt [n] is 2 to the power of the attempt that
    failed before it. *)
Lemma delay_before_next_attempt (W : World) (u : string) (k : nat) :
  forall t a n tail,
    a + 1 <= n <= a + Z.of_nat k ->
    delay_before u n
      (failed_attempts W t u a k ++ Get u (a + Z.of_nat k) :: tail)
    = Some (2 ^ (n - 1)).
Proof.
  induction k as [|k IH]; intros t a n tail Hn; [lia|].
  cbn [failed_attempts app delay_before].
  replace (a + Z.of_nat (S k)) with (a + 1 + Z.of_nat k) by lia.
  destruct (failed_attempts_head W (S (S t)) u (a + 1) k tail)
    as [rest Hrest].
  rewrite Hrest.
  destruct (failure_log u (client_get W t u)) eqn:Hfl;
    try (now destruct (client_get W t u)).
  rewrite String.eqb_refl. cbn [andb].
  destruct (a + 1 =? n) eqn:Heq.
  - apply Z.eqb_eq in Heq. subst n. do 2 f_equal. lia.
  - apply Z.eqb_neq in Heq. rewrite <- Hrest. apply IH. lia.
Qed.

Lemma delay_before_earlier_attempt (W : World) (t : nat) (u : string)
    (k : nat) (a n : Z) (tail : list Event) :
  a + 1 <= n < a + Z.of_nat k ->
  delay_before u n (failed_attempts W t u a k ++ tail) = Some (2 ^ (n - 1)).
Proof.
  intros Hn. destruct k as [|k]; [lia|].
  rewrite failed_attempts_snoc, <- app_assoc. cbn [app].
  apply delay_before_next_attempt. lia.
Qed.

(** *** The loop of the asset downloader *)

Lemma filter_url_accepts (E : Env) (C : Config) (url : string) (s : State) :
  fst (Crawler.filter_url E C url s) = accepts E C url.
Proof.
  unfold Crawler.filter_url, accepts.
  destruct (Crawler.include_rejects E C url) as [[|]|]; try reflexivity.
  destruct (Crawler.exclude_rejects E C url) as [[|]|]; reflexivity.
Qed.


Lemma asset_attempts_failed_snoc (u : string) (limit : Z) (k : nat) :
  forall a,
    asset_attempts_failed u limit a (S k)
    = asset_attempts_failed u limit a k
      ++ [GetAsset u (a + Z.of_nat k);
          Log Warning (MAssetAttempt u (a + Z.of_nat k))]
      ++ (if a + Z.of_nat k <? limit
          then [Sleep (2 ^ (a + Z.of_nat k))] else []).
Proof.
  induction k as [|k IH]; intros a.
  - cbn. rewrite Z.add_0_r. now rewrite !app_nil_r.
  - change (asset_attempts_failed u limit a (S (S k)))
      with ([GetAsset u a; Log Warning (MAssetAttempt u a)]
              ++ (if a <? limit then [Sleep (2 ^ a)] else [])
              ++ asset_attempts_failed u limit (a + 1) (S k)).
    rewrite IH. cbn [asset_attempts_failed]. rewrite <- !app_assoc.
    replace (a + 1 + Z.of_nat k) with (a + Z.of_nat (S k)) by lia.
    reflexivity.
Qed.

Lemma asset_attempts_failed_head (u : string) (limit a : Z) (k : nat)
    (tail : list Event) :
  exists rest,
    asset_attempts_failed u limit a k ++ GetAsset u (a + Z.of_nat k) :: tail
    = GetAsset u a :: rest.
Proof.
  destruct k as [|k].
  - cbn. rewrite Z.add_0_r. now exists tail.
  - cbn. eexists. reflexivity.
Qed.

Lemma asset_delay_before_next_attempt (u : string) (limit : Z) (k : nat) :
  forall a n tail,
    a + 1 <= n <= a + Z.of_nat k -> a + Z.of_nat k <= limit ->
    asset_delay_before u n
      (asset_attempts_failed u limit a k
         ++ GetAsset u (a + Z.of_nat k) :: tail)
    = Some (2 ^ (n - 1)).
Proof.
  induction k as [|k IH]; intros a n tail Hn Hl; [lia|].
  cbn [asset_attempts_failed].
  replace (a <? limit) with true by lia.
  cbn [app asset_delay_before].
  replace (a + Z.of_nat (S k)) with (a + 1 + Z.of_nat k) by lia.
  destruct (asset_attempts_failed_head u limit (a + 1) k tail)
    as [rest Hrest].
  rewrite Hrest. rewrite String.eqb_refl. cbn [andb].
  destruct (a + 1 =? n) eqn:Heq.
  - apply Z.eqb_eq in Heq. subst n. do 2 f_equal. lia.
  - apply Z.eqb_neq in Heq. rewrite <- Hrest. apply IH; lia.
Qed.

Lemma asset_delay_before_earlier_attempt (u : string) (limit : Z) (k : nat)
    (a n : Z) (tail : list Event) :
  a + 1 <= n < a + Z.of_nat k -> a + Z.of_nat k <= limit + 1 ->
  asset_delay_before u n (asset_attempts_failed u limit a k ++ tail)
  = Some (2 ^ (n - 1)).
Proof.
  intros Hn Hl. destruct k as [|k]; [lia|].
  rewrite asset_attempts_failed_snoc, <- !app_assoc. cbn [app].
  apply asset_delay_before_next_attempt; lia.
Qed.

Lemma asset_after_failures_ticks (u : string) (k : nat) :
  forall a s, ticks (asset_after_failures u a k s) = (ticks s + 2 * k)%nat.
Proof.
  induction k as [|k IH]; intros a s; cbn [asset_after_failures].
  - lia.
  - rewrite IH. session_simpl. lia.
Qed.

Lemma asset_after_failures_trace (u : string) (limit : Z) (k : nat) :
  forall a s pre,
    trace s = pre ++ [GetAsset u a] -> a + Z.of_nat k <= limit ->
    trace (asset_after_failures u a k s)
    = pre ++ asset_attempts_failed u limit a k
      ++ [GetAsset u (a + Z.of_nat k)].
Proof.
  induction k as [|k IH]; intros a s pre Hs Hl;
    cbn [asset_after_failures asset_attempts_failed].
  - now rewrite Z.add_0_r.
  - rewrite (IH _ _ (pre ++ [GetAsset u a; Log Warning (MAssetAttempt u a);
                             Sleep (2 ^ a)])).
    + replace (a <? limit) with true by lia.
      rewrite <- !app_assoc. cbn [app].
      replace (a + 1 + Z.of_nat k) with (a + Z.of_nat (S k)) by lia.
      reflexivity.
    + session_simpl. rewrite Hs, <- !app_assoc. reflexivity.
    + lia.
Qed.

Section AssetRetries.
Context (E : Env) (W : World) (C : Config).

Lemma filter_url_session (url : string) (s : State) :
  running (snd (Crawler.filter_url E C url s)) = running s
  /\ visited_urls (snd (Crawler.filter_url E C url s)) = visited_urls s
  /\ ticks (snd (Crawler.filter_url E C url s)) = ticks s.
Proof.
  unfold Crawler.filter_url. repeat innermost_case; cbn [snd]; auto.
Qed.

(** [k] failing attempts of the loop, each followed by a sleep and the
    next request; [n] is the attempt whose request is pending, [m] the
    number of attempts left after it. *)
Lemma asset_await_after_failures (u : string) (k : nat) :
  forall (n m : nat) (s : State),
    (k <= m)%nat -> retries C = Z.of_nat (n + m) ->
    (forall i,
        (i < k)%nat ->
        client_get_follow W (ticks s + 2 * i)%nat u = RequestError) ->
    (forall j, (j < 2 * k)%nat -> stop_pressed W (ticks s + j)%nat = false) ->
    Crawler.asset_await E W C (List.map Z.of_nat (seq (S n) m)) u
      (Z.of_nat n) s
    = Crawler.asset_await E W C
        (List.map Z.of_nat (seq (S (n + k)) (m - k))) u (Z.of_nat (n + k))
        (asset_after_failures u (Z.of_nat n) k s).
Proof.
  induction k as [|k IH]; intros n m s Hk Hret Hget Hstop.
  - cbn [asset_after_failures]. rewrite Nat.add_0_r, Nat.sub_0_r.
    reflexivity.
  - destruct m as [|m]; [lia|].
    pose proof (Hget 0%nat ltac:(lia)) as H0.
    rewrite Nat.mul_0_r, Nat.add_0_r in H0.
    pose proof (Hstop 0%nat ltac:(lia)) as S0. rewrite Nat.add_0_r in S0.
    pose proof (Hstop 1%nat ltac:(lia)) as S1.
    replace (ticks s + 1)%nat with (S (ticks s)) in S1 by lia.
    cbn [seq List.map Crawler.asset_await]. rewrite H0.
    replace (Z.of_nat n <? retries C) with true by lia.
    unfold Crawler.sleep, Crawler.await. session_simpl.
    rewrite S0. session_simpl. rewrite S1.
    rewrite (IH (S n) m).
    + cbn [asset_after_failures Nat.sub].
      replace (n + S k)%nat with (S n + k)%nat by lia.
      replace (Z.of_nat n + 1) with (Z.of_nat (S n)) by lia.
      reflexivity.
    + lia.
    + rewrite Hret. f_equal. lia.
    + intros i Hi. session_simpl.
      replace (S (S (ticks s)) + 2 * i)%nat with (ticks s + 2 * S i)%nat
        by lia.
      apply Hget. lia.
    + intros j Hj. session_simpl.
      replace (S (S (ticks s)) + j)%nat with (ticks s + (2 + j))%nat by lia.
      apply Hstop. lia.
Qed.

Lemma download_asset_failures (u : string) (k : nat) (s : State) :
  running s = true -> u ∉ visited_urls s -> accepts E C u = true ->
  Z.of_nat k <= retries C ->
  (forall i,
      (i < k)%nat ->
      client_get_follow W (ticks s + 2 * i)%nat u = RequestError) ->
  (forall j, (j < 2 * k)%nat -> stop_pressed W (ticks s + j)%nat = false) ->
  exists rest,
    trace (Crawler.download_asset E W C u s)
    = trace (snd (Crawler.filter_url E C u s))
      ++ [VisitedAdd u; Fetch Asset u]
      ++ asset_attempts_failed u (retries C) 1 k ++ rest
    /\ (Z.of_nat k < retries C ->
        exists rest', rest = GetAsset u (1 + Z.of_nat k) :: rest')
    /\ (Z.of_nat k = retries C -> rest = []).
Proof.
  intros Hr Hv Hacc Hk Hget Hstop.
  unfold Crawler.download_asset, Crawler.asset_begin. rewrite Hr. cbn [negb].
  rewrite bool_decide_eq_false_2 by exact Hv.
  pose proof (filter_url_accepts E C u s) as Hf.
  destruct (filter_url_session u s) as (_ & _ & Ht).
  destruct (Crawler.filter_url E C u s) as [ok s1]. cbn [fst snd] in *.
  rewrite Hf, Hacc. cbn [negb].
  set (s2 := emit (Fetch Asset u) (visited_add u s1)).
  assert (Ht2 : ticks s2 = ticks s) by exact Ht.
  assert (Htr2 : trace s2 = trace s1 ++ [VisitedAdd u; Fetch Asset u]).
  { unfold s2. session_simpl. now rewrite <- app_assoc. }
  unfold Crawler.attempts.
  destruct (Z.to_nat (retries C)) as [|m] eqn:HR.
  { (* no attempt at all *)
    cbn [seq List.map]. exists []. assert (k = 0%nat) by lia. subst k.
    cbn [asset_attempts_failed]. rewrite Htr2, !app_nil_r.
    split; [reflexivity|]. split; [lia|reflexivity]. }
  cbn [seq List.map].
  set (s3 := emit (GetAsset u (Z.of_nat 1)) s2).
  assert (Ht3 : ticks s3 = ticks s) by exact Ht2.
  assert (Htr3 : trace s3 = (trace s1 ++ [VisitedAdd u; Fetch Asset u])
                            ++ [GetAsset u 1]).
  { unfold s3. session_simpl. now rewrite Htr2. }
  assert (Hret : retries C = Z.of_nat (1 + m)) by lia.
  destruct (Z.eq_dec (Z.of_nat k) (retries C)) as [Hlast|Hmore].
  - (* every attempt of the budget fails *)
    destruct k as [|k0]; [lia|].
    assert (Hm : k0 = m) by lia. subst k0.
    rewrite (asset_await_after_failures u m 1 m s3); try lia.
    2:{ intros i Hi. rewrite Ht3. apply Hget. lia. }
    2:{ intros j Hj. rewrite Ht3. apply Hstop. lia. }
    rewrite Nat.sub_diag. cbn [seq List.map Crawler.asset_await].
    pose proof (asset_after_failures_ticks u m 1 s3) as Hta.
    pose proof (asset_after_failures_trace u (retries C) m 1 s3 _ Htr3
                  ltac:(lia)) as Htra.
    change (Z.of_nat 1) with 1.
    set (sa := asset_after_failures u 1 m s3) in *. clearbody sa.
    rewrite Hta, Ht3. rewrite (Hget m) by lia.
    rewrite (proj2 (Z.ltb_ge (Z.of_nat (1 + m)) (retries C))) by lia.
    unfold Crawler.await. rewrite Hta, Ht3.
    rewrite (Hstop (2 * m)%nat) by lia. session_simpl. rewrite Htra.
    exists []. split; [|split; [lia|reflexivity]].
    rewrite asset_attempts_failed_snoc.
    replace (1 + Z.of_nat m <? retries C) with false by lia.
    rewrite !app_nil_r, <- !app_assoc. cbn [app].
    replace (Z.of_nat (1 + m)) with (1 + Z.of_nat m) by lia. reflexivity.
  - (* the budget is not exhausted *)
    assert (Hkm : (k <= m)%nat) by lia.
    rewrite (asset_await_after_failures u k 1 m s3); try lia.
    2:{ intros i Hi. rewrite Ht3. apply Hget. lia. }
    2:{ intros j Hj. rewrite Ht3. apply Hstop. lia. }
    pose proof (asset_after_failures_trace u (retries C) k 1 s3 _ Htr3
                  ltac:(lia)) as Htra.
    change (Z.of_nat 1) with 1.
    set (sa := asset_after_failures u 1 k s3) in *. clearbody sa.
    destruct (ex_asset_await E W C
                (List.map Z.of_nat (seq (S (1 + k)) (m - k))) u
                (Z.of_nat (1 + k)) sa sa (extends_refl sa)) as [x Hx].
    exists (GetAsset u (1 + Z.of_nat k) :: x).
    split; [|split; [intros _; eexists; reflexivity|intros; lia]].
    rewrite Hx, Htra, <- !app_assoc. cbn [app]. reflexivity.
Qed.

End AssetRetries.

(** *** The page fetcher when the retry budget runs out *)

Section Exhausted.
Context (E : Env) (W : World) (C : Config).

Lemma fetch_failures_retried (k fuel : nat) (u : string) (s : State) :
  running s = true -> use_browser s = false ->
  Z.of_nat k < retries C ->
  (forall i,
      (i < k)%nat ->
      is_failure (client_get W (ticks s + 2 * i)%nat u) = true) ->
  (forall j, (j < 2 * k)%nat -> stop_pressed W (ticks s + j)%nat = false) ->
  Crawler.fetch_with_redirects E W C (k + fuel) u 1 s
  = Crawler.fetch_with_redirects E W C fuel u (1 + Z.of_nat k)
      (after_failures W u 1 k s).
Proof.
  intros Hr Hb Hk Hget Hstop.
  apply fetch_after_failures; try assumption; [lia|].
  intros i Hi. specialize (Hget i Hi).
  destruct (client_get W (ticks s + 2 * i) u); [discriminate|now left|].
  right. split; [reflexivity|lia].
Qed.

Lemma fetch_exhausted (k fuel : nat) (u : string) (s : State) :
  running s = true -> use_browser s = false ->
  Z.of_nat k = retries C ->
  (forall i,
      (i < k)%nat ->
      is_failure (client_get W (ticks s + 2 * i)%nat u) = true) ->
  (forall j, (j < 2 * k)%nat -> stop_pressed W (ticks s + j)%nat = false) ->
  let r := Crawler.fetch_with_redirects E W C (k + S fuel) u 1 s in
  res_value r = Some (u, None)
  /\ trace (res_state r) = trace s ++ exhausted W (ticks s) u (retries C) k.
Proof.
  intros Hr Hb Hk Hget Hstop. cbv zeta.
  destruct k as [|k0].
  { cbn [Nat.add Crawler.fetch_with_redirects exhausted].
    rewrite Hr. cbn [negb]. replace (1 >? retries C) with true by lia.
    split; reflexivity. }
  replace (S k0 + S fuel)%nat with (k0 + S (S fuel))%nat by lia.
  rewrite fetch_failures_retried; try assumption; try lia.
  2:{ intros i Hi. apply Hget. lia. }
  2:{ intros j Hj. apply Hstop. lia. }
  pose proof (after_failures_running W u 1 k0 s) as Hra.
  pose proof (after_failures_use_browser W u 1 k0 s) as Hba.
  pose proof (after_failures_ticks W u 1 k0 s) as Hta.
  pose proof (after_failures_trace W u 1 k0 s) as Htra.
  rewrite Hr in Hra. rewrite Hb in Hba.
  set (sa := after_failures W u 1 k0 s) in *. clearbody sa.
  pose proof (Hget k0 ltac:(lia)) as Hfail.
  pose proof (Hstop (2 * k0)%nat ltac:(lia)) as S0.
  pose proof (Hstop (2 * k0 + 1)%nat ltac:(lia)) as S1.
  cbn [Crawler.fetch_with_redirects exhausted]. rewrite Hra, Hba. cbn [negb].
  replace (1 + Z.of_nat k0 >? retries C) with false by lia.
  replace (1 + Z.of_nat k0) with (retries C) by lia.
  rewrite Hta.
  unfold Crawler.sleep, Crawler.await. session_simpl. rewrite Hta, S0.
  destruct (client_get W (ticks s + 2 * k0) u) as [r0| |];
    [discriminate| |]; cbn [last_failure failure_log].
  - session_simpl.
    replace (S (ticks s + 2 * k0)) with (ticks s + (2 * k0 + 1))%nat by lia.
    rewrite S1. session_simpl. rewrite Hra. cbn [negb].
    replace (retries C + 1 >? retries C) with true by lia.
    session_simpl. rewrite Htra, <- !app_assoc. split; reflexivity.
  - replace (retries C <? retries C) with false by lia.
    session_simpl. rewrite Htra, <- !app_assoc. split; reflexivity.
Qed.

End Exhausted.

(** C4 (as amended): every fetch sends attempt 1 at once and, after failed
    attempt m, sleeps 2^m before attempt m + 1, so that the delay before
    attempt n >= 2 is 2^(n-1); no request is sent past the retry budget.
    This holds of the page fetcher, whichever of its two handlers takes
    the failures ([httpx.RequestError], lines 208-211, or another
    exception, lines 212-217), and of the loop of the asset downloader
    (lines 240-243).  When all the attempts of the budget fail, the page
    fetcher returns nothing after the handler of the last failure (a sleep
    and the error of line 182 after a request error, nothing more after
    another exception), and the asset loop ends without a sleep. *)
Theorem C4_delay_doubles_from_two (E : Env) (W : World) (C : Config)
    (u : string) :
  (forall (k fuel : nat) (s : State),
      running s = true -> use_browser s = false ->
      Z.of_nat k <= retries C ->
      (forall i,
          (i < k)%nat ->
          is_failure (client_get W (ticks s + 2 * i)%nat u) = true) ->
      (forall j, (j < 2 * k)%nat -> stop_pressed W (ticks s + j)%nat = false) ->
      let r := Crawler.fetch_with_redirects E W C (k + S fuel) u 1 s in
      (Z.of_nat k < retries C ->
       exists rest',
         trace (res_state r)
         = trace s ++ failed_attempts W (ticks s) u 1 k
           ++ Get u (1 + Z.of_nat k) :: rest')
      /\ (Z.of_nat k = retries C ->
          res_value r = Some (u, None)
          /\ trace (res_state r)
             = trace s ++ exhausted W (ticks s) u (retries C) k))
  /\ (forall (k : nat) (s : State),
        running s = true -> u ∉ visited_urls s -> accepts E C u = true ->
        Z.of_nat k <= retries C ->
        (forall i,
            (i < k)%nat ->
            client_get_follow W (ticks s + 2 * i)%nat u = RequestError) ->
        (forall j,
            (j < 2 * k)%nat -> stop_pressed W (ticks s + j)%nat = false) ->
        exists rest,
          trace (Crawler.download_asset E W C u s)
          = trace (snd (Crawler.filter_url E C u s))
            ++ [VisitedAdd u; Fetch Asset u]
            ++ asset_attempts_failed u (retries C) 1 k ++ rest
          /\ (Z.of_nat k < retries C ->
              exists rest', rest = GetAsset u (1 + Z.of_nat k) :: rest')
          /\ (Z.of_nat k = retries C -> rest = []))
  /\ (forall t k n tail,
        2 <= n <= Z.of_nat k ->
        delay_before u n (failed_attempts W t u 1 k ++ tail)
        = Some (2 ^ (n - 1)))
  /\ (forall t k tail,
        (1 <= k)%nat ->
        delay_before u (1 + Z.of_nat k)
          (failed_attempts W t u 1 k ++ Get u (1 + Z.of_nat k) :: tail)
        = Some (2 ^ Z.of_nat k))
  /\ (forall t k tail, exists rest,
        failed_attempts W t u 1 k ++ Get u (1 + Z.of_nat k) :: tail
        = Get u 1 :: rest)
  /\ (forall k n tail,
        2 <= n <= Z.of_nat k -> Z.of_nat k <= retries C ->
        asset_delay_before u n
          (asset_attempts_failed u (retries C) 1 k ++ tail)
        = Some (2 ^ (n - 1)))
  /\ (forall k tail,
        (1 <= k)%nat -> Z.of_nat k < retries C ->
        asset_delay_before u (1 + Z.of_nat k)
          (asset_attempts_failed u (retries C) 1 k
             ++ GetAsset u (1 + Z.of_nat k) :: tail)
        = Some (2 ^ Z.of_nat k))
  /\ (forall k tail, exists rest,
        asset_attempts_failed u (retries C) 1 k
          ++ GetAsset u (1 + Z.of_nat k) :: tail
        = GetAsset u 1 :: rest).
Proof.
  split.
  { intros k fuel s Hr Hb Hk Hget Hstop r. split.
    - intros Hlt. unfold r.
      rewrite fetch_failures_retried; try assumption.
      pose proof (after_failures_trace W u 1 k s) as Ht.
      pose proof (after_failures_running W u 1 k s) as Hr'.
      pose proof (after_failures_use_browser W u 1 k s) as Hb'.
      rewrite Hr in Hr'. rewrite Hb in Hb'.
      set (sa := after_failures W u 1 k s) in *. clearbody sa.
      cbn [Crawler.fetch_with_redirects]. rewrite Hr', Hb'. cbn [negb].
      replace (1 + Z.of_nat k >? retries C) with false by lia.
      set (s1 := Crawler.await W (emit (Get u (1 + Z.of_nat k)) sa)).
      assert (H1 : exists d, trace s1
                 = trace s ++ failed_attempts W (ticks s) u 1 k
                   ++ Get u (1 + Z.of_nat k) :: d).
      { unfold s1, Crawler.await, Crawler.stop.
        destruct (stop_pressed W _); session_simpl; rewrite Ht;
          rewrite <- !app_assoc; eexists; reflexivity. }
      destruct H1 as [d Hd].
      assert (Hx : forall s', extends s1 s' ->
                exists rest',
                  trace s' = trace s ++ failed_attempts W (ticks s) u 1 k
                             ++ Get u (1 + Z.of_nat k) :: rest').
      { intros s' [x Hx]. exists (d ++ x).
        rewrite Hx, Hd. now rewrite <- !app_assoc. }
      apply Hx.
      repeat innermost_case; cbn [res_state]; unfold log;
        auto 10 using extends_refl, ex_emit, ex_set_redirects, ex_await,
          ex_sleep, ex_fetch.
    - intros Heq. now apply fetch_exhausted. }
  split.
  { intros k s. apply download_asset_failures. }
  split.
  { intros t k n tail Hn. apply delay_before_earlier_attempt. lia. }
  split.
  { intros t k tail Hk1.
    rewrite (delay_before_next_attempt W u k t 1 (1 + Z.of_nat k) tail);
      [|lia].
    do 2 f_equal. lia. }
  split.
  { intros t k tail. apply failed_attempts_head. }
  split.
  { intros k n tail Hn Hk. apply asset_delay_before_earlier_attempt; lia. }
  split.
  { intros k tail Hk1 Hlt.
    rewrite (asset_delay_before_next_attempt u (retries C) k 1
               (1 + Z.of_nat k) tail); [|lia|lia].
    do 2 f_equal. lia. }
  intros k tail. apply asset_attempts_failed_head.
Qed.

(** C4 at a page whose first attempt ends in a request error and whose
    second ends in another exception, and at an asset whose three attempts
    all end in a request error, with three retries. *)
Lemma C4_delay_doubles_from_two_witness :
  (let s := Scenario.started Scenario.mixed_world
              (Scenario.config Scenario.flaky_url) in
   let r := Crawler.fetch_with_redirects Demo.plain_env Scenario.mixed_world
              (Scenario.config Scenario.flaky_url) (2 + 1) Scenario.flaky_url
              1 s in
   exists rest',
     trace (res_state r)
     = trace s
       ++ [Get Scenario.flaky_url 1;
           Log Warning (MRequestError Scenario.flaky_url); Sleep 2;
           Get Scenario.flaky_url 2;
           Log Error (MUnexpected Scenario.flaky_url); Sleep 4]
       ++ Get Scenario.flaky_url 3 :: rest')
  /\ (let s := Scenario.started Scenario.silent
                 (Scenario.config Scenario.root_url) in
      exists rest,
        trace (Crawler.download_asset Demo.plain_env Scenario.silent
                 (Scenario.config Scenario.root_url) Scenario.asset_url s)
        = trace s
          ++ [VisitedAdd Scenario.asset_url; Fetch Asset Scenario.asset_url]
          ++ [GetAsset Scenario.asset_url 1;
              Log Warning (MAssetAttempt Scenario.asset_url 1); Sleep 2;
              GetAsset Scenario.asset_url 2;
              Log Warning (MAssetAttempt Scenario.asset_url 2); Sleep 4;
              GetAsset Scenario.asset_url 3;
              Log Warning (MAssetAttempt Scenario.asset_url 3)]
          ++ rest
        /\ rest = []).
Proof.
  split.
  - destruct (C4_delay_doubles_from_two Demo.plain_env Scenario.mixed_world
                (Scenario.config Scenario.flaky_url) Scenario.flaky_url)
      as (Hpage & _).
    destruct (Hpage 2%nat 0%nat
                (Scenario.started Scenario.mixed_world
                   (Scenario.config Scenario.flaky_url))) as (Hmore & _).
    + reflexivity.
    + reflexivity.
    + vm_compute. discriminate.
    + intros i Hi. destruct i as [|[|i]]; [reflexivity|reflexivity|lia].
    + intros j Hj. reflexivity.
    + apply Hmore. reflexivity.
  - destruct (C4_delay_doubles_from_two Demo.plain_env Scenario.silent
                (Scenario.config Scenario.root_url) Scenario.asset_url)
      as (_ & Hasset & _).
    destruct (Hasset 3%nat
                (Scenario.started Scenario.silent
                   (Scenario.config Scenario.root_url)))
      as (rest & Htrace & _ & Hrest).
    + reflexivity.
    + apply not_elem_of_empty.
    + reflexivity.
    + vm_compute. discriminate.
    + intros i Hi. reflexivity.
    + intros j Hj. reflexivity.
    + exists rest. split; [exact Htrace|]. apply Hrest. reflexivity.
Defined.

(** C4 (as stated) fails: after one failed attempt the fetcher sleeps 2
    time units, not 2^2, before attempt 2. *)
Lemma C4_second_attempt_after_two_units :
  let t := trace (res_state
             (Crawler.fetch_with_redirects Demo.plain_env Scenario.flaky_world
                (Scenario.config Scenario.flaky_url) 5 Scenario.flaky_url 1
                (Scenario.started Scenario.flaky_world
                   (Scenario.config Scenario.flaky_url)))) in
  delay_before Scenario.flaky_url 2 t = Some 2
  /\ delay_before Scenario.flaky_url 2 t <> Some (2 ^ 2).
Proof. split; vm_compute; [reflexivity|discriminate]. Qed.

Lemma gets_app (a b : list Event) : gets (a ++ b) = gets a ++ gets b.
Proof. apply flat_map_app. Qed.

Lemma sleeps_app (a b : list Event) : sleeps (a ++ b) = sleeps a ++ sleeps b.
Proof. apply flat_map_app. Qed.

(** A suspension point adds no request and no sleep of its own, and
    leaves the redirect map alone. *)
Lemma await_views (W : World) (s : State) :
  gets (trace (Crawler.await W s)) = gets (trace s)
  /\ sleeps (trace (Crawler.await W s)) = sleeps (trace s)
  /\ redirects (Crawler.await W s) = redirects s
  /\ use_browser (Crawler.await W s) = use_browser s.
Proof.
  unfold Crawler.await, Crawler.stop.
  destruct (stop_pressed W (ticks s)); session_simpl;
    rewrite ?gets_app, ?sleeps_app; cbn; rewrite ?app_nil_r; auto.
Qed.

Lemma record_hops_fresh (hops : list (string * string))
    (m : gmap string string) (k : string) :
  ~ In k (List.map fst hops) -> record_hops hops m !! k = m !! k.
Proof.
  revert m. induction hops as [|h hops IH]; intros m Hk; [reflexivity|].
  cbn [record_hops fold_left]. fold (record_hops hops (<[fst h := snd h]> m)).
  rewrite IH by (intros Hin; apply Hk; now right).
  apply lookup_insert_ne. intros Heq. apply Hk. now left.
Qed.

Lemma record_hops_lookup (hops : list (string * string))
    (m : gmap string string) (h : string * string) :
  NoDup (List.map fst hops) -> In h hops ->
  record_hops hops m !! fst h = Some (snd h).
Proof.
  revert m. induction hops as [|h0 hops IH]; intros m Hn Hin; [destruct Hin|].
  cbn [List.map] in Hn. apply NoDup_cons in Hn as [Hfresh Hn].
  cbn [record_hops fold_left]. fold (record_hops hops (<[fst h0 := snd h0]> m)).
  destruct Hin as [->|Hin].
  - rewrite record_hops_fresh.
    + apply lookup_insert_eq.
    + intros Hin. apply Hfresh. now apply list_elem_of_In.
  - now apply IH.
Qed.

Section Redirects.
Context (E : Env) (W : World) (C : Config).

Lemma fetch_follows_chain (t : nat) (u : string)
    (hops : list (string * string)) (final : string)
    (last : option Response) :
  redirect_chain E W t u hops final last ->
  forall (fuel : nat) (a : Z) (s : State),
    ticks s = t -> running s = true -> use_browser s = false ->
    a <= retries C -> (List.length hops < fuel)%nat ->
    let r := Crawler.fetch_with_redirects E W C fuel u a s in
    res_value r = Some (final, text <$> last)
    /\ redirects (res_state r) = record_hops hops (redirects s)
    /\ gets (trace (res_state r))
       = gets (trace s) ++ List.map (fun h => (fst h, a)) hops ++ [(final, a)]
    /\ sleeps (trace (res_state r)) = sleeps (trace s).
Proof.
  induction 1 as [t u last Hget H200|t u r0 Hget Hred Hloc
                  |t u r next hops final last Hget Hred Hloc Hstop Hchain IH];
    intros fuel a s Ht Hr Hb Ha Hfuel;
    (destruct fuel as [|fuel]; [cbn in Hfuel; lia|]);
    cbv zeta; cbn [Crawler.fetch_with_redirects];
    rewrite Hr, Hb; cbn [negb];
    replace (a >? retries C) with false by lia;
    rewrite Ht, Hget.
  - rewrite H200. cbn [Crawler.is_redirect existsb Z.eqb orb negb Pos.eqb].
    cbn [res_value res_state List.map app fmap option_fmap option_map].
    destruct (await_views W (emit (Get u a) s)) as (Hg & Hs & Hm & _).
    rewrite Hg, Hs, Hm. session_simpl.
    rewrite gets_app, sleeps_app. cbn. rewrite app_nil_r. auto.
  - rewrite Hred, Hloc.
    cbn [res_value res_state List.map app fmap option_fmap option_map].
    destruct (await_views W (emit (Get u a) s)) as (Hg & Hs & Hm & _).
    session_simpl. rewrite gets_app, sleeps_app, Hg, Hs, Hm. session_simpl.
    rewrite gets_app, sleeps_app. cbn. rewrite !app_nil_r. auto.
  - rewrite Hred, Hloc.
    unfold Crawler.await. session_simpl. rewrite Ht, Hstop.
    specialize (IH fuel a
      (log Info (MRedirect u (urljoin E u next))
         (set_redirects (<[u := urljoin E u next]> (redirects s))
            (set_ticks (S t) (emit (Get u a) s))))).
    cbv zeta in IH. session_simpl.
    destruct IH as (I1 & I2 & I3 & I4); try assumption; try reflexivity.
    { cbn in Hfuel. lia. }
    rewrite I1, I2, I3, I4. session_simpl.
    rewrite !gets_app, !sleeps_app. cbn. rewrite !app_nil_r, <- app_assoc.
    auto.
Qed.

End Redirects.

(** C3: in HTTP mode, a fetch that meets a redirect chain returns the last
    URL of the chain, has written one entry of the redirect map per hop
    (each redirected URL mapped to the absolute URL its [Location] resolves
    to), has sent every request of the chain with the attempt number it was
    called with, and has not slept.  When the chain ends in a 200 answer
    the fetch returns the body of that answer.  When it ends in a redirect
    answer without a [Location], at the first request or after some hops,
    the fetch returns no content: that answer adds no entry, no sleep and
    no further request. *)
Theorem C3_redirect_chain_recorded (E : Env) (W : World) (C : Config)
    (fuel : nat) (u : string) (a : Z) (s : State)
    (hops : list (string * string)) (final : string)
    (last : option Response) :
  running s = true -> use_browser s = false -> a <= retries C ->
  redirect_chain E W (ticks s) u hops final last ->
  (List.length hops < fuel)%nat ->
  let r := Crawler.fetch_with_redirects E W C fuel u a s in
  res_value r = Some (final, text <$> last)
  /\ redirects (res_state r) = record_hops hops (redirects s)
  /\ (NoDup (List.map fst hops) ->
      forall h, In h hops -> redirects (res_state r) !! fst h = Some (snd h))
  /\ gets (trace (res_state r))
     = gets (trace s) ++ List.map (fun h => (fst h, a)) hops ++ [(final, a)]
  /\ sleeps (trace (res_state r)) = sleeps (trace s).
Proof.
  intros Hr Hb Ha Hchain Hfuel r.
  destruct (fetch_follows_chain E W C _ _ _ _ _ Hchain fuel a s)
    as (H1 & H2 & H3 & H4); try assumption; try reflexivity.
  fold r in H1, H2, H3, H4.
  split; [exact H1|]. split; [exact H2|]. split.
  { intros Hn h Hin. rewrite H2. now apply record_hops_lookup. }
  split; [exact H3|exact H4].
Qed.

(** The chain of the example: [/a] to [/b] to [/c]. *)
Lemma chain_world_chain :
  redirect_chain Demo.plain_env Scenario.chain_world 0 Scenario.chain_a
    [(Scenario.chain_a, Scenario.chain_b); (Scenario.chain_b, Scenario.chain_c)]
    Scenario.chain_c (Some (Scenario.ok_response (Some "text/html") "hello")).
Proof.
  apply (chain_hop Demo.plain_env Scenario.chain_world 0 Scenario.chain_a
           (Scenario.redirect_response 301 (Some "/b")) "/b");
    try reflexivity.
  apply (chain_hop Demo.plain_env Scenario.chain_world 1 Scenario.chain_b
           (Scenario.redirect_response 302 (Some Scenario.chain_c))
           Scenario.chain_c);
    try reflexivity.
  apply chain_end; reflexivity.
Defined.

(** The chain of one request at the address without a [Location]. *)
Lemma chain_world_lost_chain :
  redirect_chain Demo.plain_env Scenario.chain_world 0 Scenario.lost_url []
    Scenario.lost_url None.
Proof.
  apply (chain_lost Demo.plain_env Scenario.chain_world 0 Scenario.lost_url
           (Scenario.redirect_response 307 None));
    reflexivity.
Defined.

Lemma chain_world_sources_distinct :
  NoDup (List.map fst
           [(Scenario.chain_a, Scenario.chain_b);
            (Scenario.chain_b, Scenario.chain_c)]).
Proof.
  cbn [List.map fst]. apply NoDup_cons. split; [|apply NoDup_singleton].
  intros Hin. apply list_elem_of_In in Hin. destruct Hin as [Heq|[]].
  discriminate Heq.
Qed.

(** C3 at the chain [/a] to [/b] to [/c], and at the address that answers
    307 without a [Location]. *)
Lemma C3_redirect_chain_recorded_witness :
  (let s := Scenario.started Scenario.chain_world
              (Scenario.config Scenario.chain_a) in
   let r := Crawler.fetch_with_redirects Demo.plain_env Scenario.chain_world
              (Scenario.config Scenario.chain_a) 3 Scenario.chain_a 1 s in
   res_value r = Some (Scenario.chain_c, Some "hello")
   /\ redirects (res_state r) !! Scenario.chain_a = Some Scenario.chain_b
   /\ redirects (res_state r) !! Scenario.chain_b = Some Scenario.chain_c
   /\ gets (trace (res_state r))
      = [(Scenario.chain_a, 1); (Scenario.chain_b, 1); (Scenario.chain_c, 1)]
   /\ sleeps (trace (res_state r)) = [])
  /\ (let s := Scenario.started Scenario.chain_world
                 (Scenario.config Scenario.chain_a) in
      let r := Crawler.fetch_with_redirects Demo.plain_env
                 Scenario.chain_world (Scenario.config Scenario.chain_a) 1
                 Scenario.lost_url 1 s in
      res_value r = Some (Scenario.lost_url, None)
      /\ redirects (res_state r) = redirects s
      /\ gets (trace (res_state r)) = [(Scenario.lost_url, 1)]
      /\ sleeps (trace (res_state r)) = []).
Proof.
  split.
  - intros s r.
    destruct (C3_redirect_chain_recorded Demo.plain_env Scenario.chain_world
                (Scenario.config Scenario.chain_a) 3 Scenario.chain_a 1 s
                [(Scenario.chain_a, Scenario.chain_b);
                 (Scenario.chain_b, Scenario.chain_c)]
                Scenario.chain_c
                (Some (Scenario.ok_response (Some "text/html") "hello")))
      as (H1 & _ & H3 & H4 & H5).
    + reflexivity.
    + reflexivity.
    + vm_compute. discriminate.
    + exact chain_world_chain.
    + cbn. lia.
    + split; [exact H1|].
      split; [apply (H3 chain_world_sources_distinct
                       (Scenario.chain_a, Scenario.chain_b)); now left|].
      split; [apply (H3 chain_world_sources_distinct
                       (Scenario.chain_b, Scenario.chain_c)); right; now left|].
      split; [exact H4|exact H5].
  - intros s r.
    destruct (C3_redirect_chain_recorded Demo.plain_env Scenario.chain_world
                (Scenario.config Scenario.chain_a) 1 Scenario.lost_url 1 s
                [] Scenario.lost_url None)
      as (H1 & H2 & _ & H4 & H5).
    + reflexivity.
    + reflexivity.
    + vm_compute. discriminate.
    + exact chain_world_lost_chain.
    + cbn. lia.
    + split; [exact H1|]. split; [exact H2|]. split; [exact H4|exact H5].
Defined.

(** The address without a [Location] of the example: one request, no
    content. *)
Example chain_world_lost :
  let r := Crawler.fetch_with_redirects Demo.plain_env Scenario.chain_world
             (Scenario.config Scenario.chain_a) 3 Scenario.lost_url 1
             (Scenario.started Scenario.chain_world
                (Scenario.config Scenario.chain_a)) in
  res_value r = Some (Scenario.lost_url, None)
  /\ trace (res_state r)
     = [Get Scenario.lost_url 1; Log Warning (MNoLocation Scenario.lost_url)].
Proof. split; vm_compute; reflexivity. Qed.

(** ** The fetcher in headless-browser mode *)

Lemma browser_frame_refl (s : State) : browser_frame s s.
Proof. repeat split. Qed.

Lemma browser_frame_trans (a b c : State) :
  browser_frame a b -> browser_frame b c -> browser_frame a c.
Proof. intros (A1 & A2 & A3) (B1 & B2 & B3). repeat split; congruence. Qed.

Section BrowserMode.
Context (E : Env) (W : World) (C : Config).

Lemma bf_emit (e : Event) (s s' : State) :
  (forall u a, e <> Get u a) ->
  browser_frame s s' -> browser_frame s (emit e s').
Proof.
  intros He (H1 & H2 & H3). repeat split; try assumption.
  session_simpl. rewrite gets_app, H3.
  destruct e; cbn; rewrite ?app_nil_r; try reflexivity.
  now destruct (He url attempt).
Qed.

Lemma bf_await (s s' : State) :
  browser_frame s s' -> browser_frame s (Crawler.await W s').
Proof.
  intros H. eapply browser_frame_trans; [exact H|].
  destruct (await_views W s') as (Hg & _ & Hm & Hb).
  repeat split; assumption.
Qed.

Lemma bf_sleep (secs : Z) (s s' : State) :
  browser_frame s s' -> browser_frame s (Crawler.sleep W secs s').
Proof.
  intros H. unfold Crawler.sleep.
  apply bf_await, bf_emit; [discriminate|exact H].
Qed.

(** In browser mode the fetcher writes no entry of the redirect map and
    sends no request of its own. *)
Lemma fetch_browser_frame (fuel : nat) (u : string) (a : Z) (s s' : State) :
  use_browser s' = true -> browser_frame s s' ->
  browser_frame s (res_state (Crawler.fetch_with_redirects E W C fuel u a s')).
Proof.
  revert a s'. induction fuel as [|fuel IH]; intros a s' Hb H;
    cbn [Crawler.fetch_with_redirects]; [exact H|].
  rewrite Hb.
  assert (Hkeep : forall x, browser_frame s' x -> use_browser x = true).
  { intros x (Hx & _). now rewrite Hx. }
  repeat innermost_case; cbn [res_state]; unfold log;
    repeat first
      [ assumption
      | apply IH
      | apply Hkeep
      | apply bf_sleep
      | apply bf_await
      | apply bf_emit; [discriminate|]
      | apply browser_frame_refl ].
Qed.

End BrowserMode.

(** C7 (as amended): in headless-browser mode the fetcher never writes the
    redirect map and sends no HTTP request.  A fetch whose page loads
    launches one browser and closes it before it returns, without a sleep
    and with the attempt number it was called with.  A fetch whose browser
    step raises is retried: while the attempt is below the retry budget it
    sleeps 2^attempt and calls itself with the next attempt. *)
Theorem C7_browser_mode_fetch (E : Env) (W : World) (C : Config)
    (fuel : nat) (u : string) (a : Z) (s : State) :
  use_browser s = true ->
  let r := Crawler.fetch_with_redirects E W C (S fuel) u a s in
  redirects (res_state r) = redirects s
  /\ gets (trace (res_state r)) = gets (trace s)
  /\ (forall html,
        running s = true -> a <= retries C ->
        browser W (ticks s) u = Loaded html ->
        res_value r = Some (u, Some html)
        /\ sleeps (trace (res_state r)) = sleeps (trace s)
        /\ browser_events (trace (res_state r))
           = browser_events (trace s) ++ [BrowserLaunch u a; BrowserClose])
  /\ (running s = true -> a < retries C ->
      browser W (ticks s) u = PageRaised ->
      r = Crawler.fetch_with_redirects E W C fuel u (a + 1)
            (Crawler.sleep W (2 ^ a)
               (log Error (MUnexpected u)
                  (Crawler.await W (emit (BrowserLaunch u a) s)))))
  /\ (running s = true -> a < retries C ->
      browser W (ticks s) u = LaunchRaised ->
      r = Crawler.fetch_with_redirects E W C fuel u (a + 1)
            (Crawler.sleep W (2 ^ a)
               (log Error (MUnexpected u) (Crawler.await W s)))).
Proof.
  intros Hb r.
  destruct (fetch_browser_frame E W C (S fuel) u a s s Hb
              (browser_frame_refl s))
    as (_ & Hm & Hg).
  fold r in Hm, Hg. split; [exact Hm|]. split; [exact Hg|].
  subst r. cbn [Crawler.fetch_with_redirects]. rewrite Hb.
  split; [|split]; intros;
    repeat match goal with
           | H : running s = true |- _ => rewrite H; clear H
           | H : browser W _ _ = _ |- _ => rewrite H; clear H
           end; cbn [negb].
  - replace (a >? retries C) with false by lia.
    cbn [res_value res_state]. split; [reflexivity|].
    unfold Crawler.await, Crawler.stop. session_simpl.
    destruct (stop_pressed W (ticks s)); session_simpl;
      unfold browser_events; rewrite ?sleeps_app, ?List.filter_app; cbn;
      rewrite ?app_nil_r, <- ?app_assoc; auto.
  - replace (a >? retries C) with false by lia.
    replace (a <? retries C) with true by lia. reflexivity.
  - replace (a >? retries C) with false by lia.
    replace (a <? retries C) with true by lia. reflexivity.
Qed.

(** C7 at a page the browser fails to load at first. *)
Lemma C7_browser_mode_fetch_witness :
  let s := Scenario.started Scenario.slow_world Scenario.browser_config in
  let r := Crawler.fetch_with_redirects Demo.plain_env Scenario.slow_world
             Scenario.browser_config 4 Scenario.slow_url 1 s in
  redirects (res_state r) = redirects s
  /\ gets (trace (res_state r)) = gets (trace s)
  /\ r = Crawler.fetch_with_redirects Demo.plain_env Scenario.slow_world
           Scenario.browser_config 3 Scenario.slow_url (1 + 1)
           (Crawler.sleep Scenario.slow_world (2 ^ 1)
              (log Error (MUnexpected Scenario.slow_url)
                 (Crawler.await Scenario.slow_world
                    (emit (BrowserLaunch Scenario.slow_url 1) s)))).
Proof.
  intros s r.
  destruct (C7_browser_mode_fetch Demo.plain_env Scenario.slow_world
              Scenario.browser_config 3 Scenario.slow_url 1 s)
    as (H1 & H2 & _ & H4 & _).
  - reflexivity.
  - split; [exact H1|]. split; [exact H2|].
    apply H4; [reflexivity|vm_compute; reflexivity|reflexivity].
Defined.

(** C7 (as stated) fails: when the first load raises, the fetch in browser
    mode sleeps 2 time units and starts attempt 2 with a second browser. *)
Lemma C7_browser_fetch_sleeps_and_retries :
  let t := trace (res_state
             (Crawler.fetch_with_redirects Demo.plain_env Scenario.slow_world
                Scenario.browser_config 5 Scenario.slow_url 1
                (Scenario.started Scenario.slow_world
                   Scenario.browser_config))) in
  t = [BrowserLaunch Scenario.slow_url 1;
       Log Error (MUnexpected Scenario.slow_url);
       Sleep 2;
       BrowserLaunch Scenario.slow_url 2;
       BrowserClose]
  /\ sleeps t = [2]
  /\ In (BrowserLaunch Scenario.slow_url 2) t.
Proof.
  cbv zeta.
  assert (Ht : trace (res_state
             (Crawler.fetch_with_redirects Demo.plain_env Scenario.slow_world
                Scenario.browser_config 5 Scenario.slow_url 1
                (Scenario.started Scenario.slow_world Scenario.browser_config)))
          = [BrowserLaunch Scenario.slow_url 1;
             Log Error (MUnexpected Scenario.slow_url);
             Sleep 2;
             BrowserLaunch Scenario.slow_url 2;
             BrowserClose])
    by (vm_compute; reflexivity).
  rewrite Ht. split; [reflexivity|]. split; [reflexivity|].
  cbn. auto.
Qed.

(** ** Cancellation *)

Section Cancellation.
Context (E : Env) (W : World) (C : Config).

(** Each entry point tests the flag first: with the flag down a page
    crawl, a fetch and an asset download return at once, and nothing is
    done. *)
Lemma crawl_page_stopped (fuel : nat) (url : string) (d : Z) (s : State) :
  running s = false ->
  Crawler.crawl_page E W C (S fuel) url d s = Done tt s.
Proof. intros Hr. cbn [Crawler.crawl_page]. now rewrite Hr. Qed.

Lemma fetch_stopped (fuel : nat) (url : string) (a : Z) (s : State) :
  running s = false ->
  Crawler.fetch_with_redirects E W C (S fuel) url a s = Done (url, None) s.
Proof. intros Hr. cbn [Crawler.fetch_with_redirects]. now rewrite Hr. Qed.

Lemma download_asset_stopped (url : string) (s : State) :
  running s = false -> Crawler.download_asset E W C url s = s.
Proof.
  intros Hr. unfold Crawler.download_asset, Crawler.asset_begin.
  now rewrite Hr.
Qed.

Lemma gather_assets_stopped (us : list string) (s : State) :
  running s = false -> Crawler.gather_assets E W C us s = s.
Proof.
  intros Hr. unfold Crawler.gather_assets.
  assert (Ha : Crawler.begin_all E C us s = ([], s)).
  { induction us as [|u us IH]; [reflexivity|].
    cbn [Crawler.begin_all]. unfold Crawler.asset_begin at 1.
    rewrite Hr. cbn [negb]. now rewrite IH. }
  now rewrite Ha.
Qed.

End Cancellation.

(** C6: [stop()] is called while the first request for an asset is
    pending, and that request fails.  The loop of [_download_asset] does
    not test the flag: it sleeps, sends attempt 2 and saves the answer.
    The claim says no new fetch is started once the flag is set, retry
    iterations of an asset download included. *)
Theorem C6_asset_retry_after_stop :
  let s := Crawler.download_asset Demo.plain_env Scenario.stopped_world
             (Scenario.config Scenario.root_url) Scenario.asset_url
             (Scenario.started Scenario.stopped_world
                (Scenario.config Scenario.root_url)) in
  running s = false
  /\ trace s
     = [VisitedAdd Scenario.asset_url;
        Fetch Asset Scenario.asset_url;
        GetAsset Scenario.asset_url 1;
        Log Warning MStopping;
        Log Warning (MAssetAttempt Scenario.asset_url 1);
        Sleep 2;
        GetAsset Scenario.asset_url 2;
        WriteFile "site/example.test/images/logo.png";
        WriteFile "site/src/logo.png";
        Log Info
          (MSaved Scenario.asset_url "site/example.test/images/logo.png"
             "site/src/logo.png")].
Proof. split; vm_compute; reflexivity. Qed.

Section Cancelled.
Context (E : Env) (W : World) (C : Config).

(** A [stop()] that arrives while a page request is pending lets that
    request finish; the fetcher sends no other. *)
Lemma fetch_stop_in_flight (fuel : nat) (u : string) (a : Z) (s : State) :
  running s = true -> use_browser s = false -> a <= retries C ->
  stop_pressed W (ticks s) = true ->
  gets (trace (res_state
                 (Crawler.fetch_with_redirects E W C (S fuel) u a s)))
  = gets (trace s) ++ [(u, a)].
Proof.
  intros Hr Hb Ha Hstop. cbn [Crawler.fetch_with_redirects].
  rewrite Hr, Hb. cbn [negb]. replace (a >? retries C) with false by lia.
  unfold Crawler.sleep, Crawler.await, Crawler.stop. session_simpl.
  rewrite Hstop.
  assert (Hdown : forall fuel' u' a' s',
             running s' = false ->
             res_state (Crawler.fetch_with_redirects E W C fuel' u' a' s')
             = s').
  { intros [|fuel'] u' a' s' Hs'; [reflexivity|].
    cbn [Crawler.fetch_with_redirects]. now rewrite Hs'. }
  repeat innermost_case; cbn [res_state]; rewrite ?Hdown by reflexivity;
    session_simpl; rewrite ?gets_app; cbn; rewrite ?app_nil_r; reflexivity.
Qed.

End Cancelled.

(** ** Runs that return *)

Section Returns.
Context (E : Env) (W : World) (C : Config).
Hypothesis no_redirect : redirect_free W.

(** Without redirects the fetcher returns: its calls nest no deeper than
    the attempts that are left. *)
Lemma fetch_returns (fuel : nat) :
  forall u a s,
    (Z.to_nat (retries C + 1 - a) < fuel)%nat ->
    exists v s', Crawler.fetch_with_redirects E W C fuel u a s = Done v s'.
Proof.
  induction fuel as [|fuel IH]; intros u a s Hf; [lia|].
  cbn [Crawler.fetch_with_redirects].
  destruct (negb (running s)); [eauto|].
  destruct (a >? retries C) eqn:Ha; [eauto|].
  assert (Hnext : (Z.to_nat (retries C + 1 - (a + 1)) < fuel)%nat) by lia.
  destruct (use_browser s).
  - destruct (browser W (ticks s) u); destruct (a <? retries C); eauto.
  - destruct (client_get W (ticks s) u) as [r| |] eqn:Hget.
    + rewrite (no_redirect _ _ _ Hget). destruct (negb _); eauto.
    + eauto.
    + destruct (a <? retries C); eauto.
Qed.

Lemma each_link_returns (visit : string -> State -> Res unit)
    (links : list string) :
  (forall u s, exists v s', visit u s = Done v s') ->
  forall s, exists v s', Crawler.each_link visit links s = Done v s'.
Proof.
  intros Hv. induction links as [|u links IH]; intros s;
    cbn [Crawler.each_link]; [eauto|].
  destruct (Hv u s) as (v & s' & ->). apply IH.
Qed.

Lemma crawl_page_returns (fuel : nat) :
  forall url d s,
    (Z.to_nat (crawl_depth C + 1 - d) + Z.to_nat (retries C) < fuel)%nat ->
    exists v s', Crawler.crawl_page E W C fuel url d s = Done v s'.
Proof.
  induction fuel as [|fuel IH]; intros url d s Hf; [lia|].
  cbn [Crawler.crawl_page].
  destruct (negb (running s)); cbn [orb]; [eauto|].
  destruct (d >? crawl_depth C) eqn:Hd; cbn [orb]; [eauto|].
  case_bool_decide; [eauto|].
  destruct (Crawler.filter_url E C url s) as [[|] s1]; cbn [negb]; [|eauto].
  match goal with
  | |- context [Crawler.fetch_with_redirects E W C fuel url 1 ?s2] =>
      destruct (fetch_returns fuel url 1 s2) as ([final fetched] & s3 & ->);
        [lia|]
  end.
  destruct (Analyzer.truthy_opt fetched) as [html|]; [|eauto].
  destruct (parse_html E html) as [selector|]; [|eauto].
  apply each_link_returns. intros u s7.
  destruct (String.eqb _ _); [|eauto].
  apply IH. lia.
Qed.

(** A run without redirects returns, given room for the depth of the
    crawl and the retries of one fetch. *)
Lemma download_website_returns (fuel : nat) :
  (Z.to_nat (crawl_depth C + 1) + Z.to_nat (retries C) < fuel)%nat ->
  exists b s, Crawler.download_website E W C fuel = Done b s.
Proof.
  intros Hf. unfold Crawler.download_website.
  destruct (negb (PyStr.truthy (cfg_url C))); [eauto|].
  destruct (negb (client_created W)); [eauto|].
  match goal with
  | |- context [Crawler.crawl_page E W C fuel ?u 0 ?s2] =>
      destruct (crawl_page_returns fuel u 0 s2) as (v & s3 & ->);
        [rewrite Z.sub_0_r; exact Hf|]
  end.
  eauto.
Qed.

End Returns.

Section AssetBackoff.
Context (E : Env) (W : World) (C : Config).
Hypothesis always_fails : forall t u, client_get_follow W t u = RequestError.
Hypothesis never_stopped : forall t, stop_pressed W t = false.

(** The loop of [_download_asset] under failing requests: a sleep of
    2^attempt after every failed attempt but the last. *)
Lemma asset_await_failures (rest : list Z) (u : string) (a : Z) (s : State) :
  trace (Crawler.asset_await E W C rest u a s)
  = trace s ++ asset_failures u (retries C) a rest.
Proof.
  revert a s. induction rest as [|a' rest IH]; intros a s;
    cbn [Crawler.asset_await asset_failures];
    rewrite always_fails; unfold Crawler.sleep, Crawler.await;
    session_simpl; rewrite !never_stopped;
    destruct (a <? retries C); session_simpl; rewrite ?never_stopped;
    rewrite ?IH; session_simpl; rewrite <- ?app_assoc; reflexivity.
Qed.

End AssetBackoff.

(** The end-to-end scenario of the specification: a crawl of depth 0 takes
    up the root page and its image, leaves the link alone and writes a
    sitemap of one line. *)
Example depth_zero_run :
  let r := Crawler.download_website Scenario.front_env Scenario.front_world
             (Scenario.with_depth 0 (Scenario.config Scenario.root_url)) 5 in
  res_value r = Some true
  /\ sitemap (res_state r) = [Scenario.root_url]
  /\ handed (trace (res_state r))
     = [Scenario.root_url; "http://example.test/logo.png"]
  /\ files (res_state r) !! "site/sitemap.txt"
     = Some (Str ("http://example.test/" +:+ Crawler.newline))
  /\ keywords (analysis (res_state r)) = ["about"].
Proof. repeat split; vm_compute; reflexivity. Qed.

(** * Further properties of the code *)

(** ** What a run emits *)

Lemma emits_refl (P : Event -> Prop) (s : State) : emits P s s.
Proof. exists []. split; [now rewrite app_nil_r|constructor]. Qed.

Lemma emits_trans (P : Event -> Prop) (a b c : State) :
  emits P a b -> emits P b c -> emits P a c.
Proof.
  intros (x & Hx & Px) (y & Hy & Py). exists (x ++ y). split.
  - now rewrite Hy, Hx, app_assoc.
  - apply Forall_app. auto.
Qed.

Lemma emits_Forall (P : Event -> Prop) (s s' : State) :
  emits P s s' -> Forall P (trace s) -> Forall P (trace s').
Proof. intros (x & -> & Px) Hs. apply Forall_app. auto. Qed.

Lemma attempts_within (C : Config) :
  Forall (fun a => 1 <= a <= retries C) (Crawler.attempts C).
Proof.
  unfold Crawler.attempts. apply Forall_forall. intros a Ha.
  apply list_elem_of_In, in_map_iff in Ha as (n & <- & Hn).
  apply in_seq in Hn. lia.
Qed.

Section Emits.
Context (E : Env) (W : World) (C : Config) (P : Event -> Prop).
Hypothesis P_log : forall lvl m, P (Log lvl m).
Hypothesis P_write : forall p, P (WriteFile p).
Hypothesis P_probe : forall u, P (Probe u).
Hypothesis P_close : P BrowserClose.
Hypothesis P_get : forall u a, 1 <= a <= retries C -> P (Get u a).
Hypothesis P_get_asset : forall u a, 1 <= a <= retries C -> P (GetAsset u a).
Hypothesis P_launch : forall u a, 1 <= a <= retries C -> P (BrowserLaunch u a).
Hypothesis P_sleep : forall a, 1 <= a <= retries C -> P (Sleep (2 ^ a)).
Hypothesis P_visited : forall u, accepts E C u = true -> P (VisitedAdd u).
Hypothesis P_asset : forall u, accepts E C u = true -> P (Fetch Asset u).
Hypothesis P_page :
  forall d u,
    accepts E C u = true -> url_netloc E u = Crawler.root_domain E C ->
    P (Fetch (Page d) u).

Lemma em_emit (e : Event) (s s' : State) :
  P e -> emits P s s' -> emits P s (emit e s').
Proof.
  intros He (x & Hx & Px). exists (x ++ [e]). session_simpl. split.
  - now rewrite Hx, app_assoc.
  - apply Forall_app. split; [exact Px|]. now constructor.
Qed.

Lemma em_log (lvl : Level) (m : Msg) (s s' : State) :
  emits P s s' -> emits P s (log lvl m s').
Proof. apply em_emit, P_log. Qed.

Lemma em_set_running (b : bool) (s s' : State) :
  emits P s s' -> emits P s (set_running b s').
Proof. intros H. exact H. Qed.

Lemma em_set_use_browser (b : bool) (s s' : State) :
  emits P s s' -> emits P s (set_use_browser b s').
Proof. intros H. exact H. Qed.

Lemma em_set_redirects (r : gmap string string) (s s' : State) :
  emits P s s' -> emits P s (set_redirects r s').
Proof. intros H. exact H. Qed.

Lemma em_set_analysis (a : Analysis) (s s' : State) :
  emits P s s' -> emits P s (set_analysis a s').
Proof. intros H. exact H. Qed.

Lemma em_set_ticks (n : nat) (s s' : State) :
  emits P s s' -> emits P s (set_ticks n s').
Proof. intros H. exact H. Qed.

Lemma em_write (p : string) (b : Body) (s s' : State) :
  emits P s s' -> emits P s (write p b s').
Proof. intros H. unfold write. apply em_emit; [apply P_write|exact H]. Qed.

Lemma em_stop (s s' : State) : emits P s s' -> emits P s (Crawler.stop s').
Proof. intros H. unfold Crawler.stop. apply em_log. exact H. Qed.

Lemma em_await (s s' : State) :
  emits P s s' -> emits P s (Crawler.await W s').
Proof.
  intros H. unfold Crawler.await.
  destruct (stop_pressed W (ticks s')); [apply em_stop|]; exact H.
Qed.

Lemma em_sleep (a : Z) (s s' : State) :
  1 <= a <= retries C ->
  emits P s s' -> emits P s (Crawler.sleep W (2 ^ a) s').
Proof.
  intros Ha H. unfold Crawler.sleep.
  apply em_await, em_emit; [now apply P_sleep|exact H].
Qed.

Create HintDb emits discriminated.

Hint Resolve em_log em_set_running em_set_use_browser em_set_redirects
  em_set_analysis em_set_ticks em_write em_stop em_await : emits.
Hint Extern 1 (P (Log _ _)) => apply P_log : emits.
Hint Extern 1 (P (Probe _)) => apply P_probe : emits.
Hint Extern 1 (P (WriteFile _)) => apply P_write : emits.
Hint Extern 1 (P BrowserClose) => apply P_close : emits.
Hint Extern 2 (emits P _ (emit _ _)) => apply em_emit : emits.

Ltac emits_cases :=
  repeat innermost_case; cbn [snd res_state]; auto 10 with emits.

Lemma em_filter_url (url : string) (s s' : State) :
  emits P s s' -> emits P s (snd (Crawler.filter_url E C url s')).
Proof. intros H. unfold Crawler.filter_url. emits_cases. Qed.

Lemma em_save_file (url : string) (b : Body) (bin : bool) (ctype : string)
    (s s' : State) :
  emits P s s' -> emits P s (Crawler.save_file E W C url b bin ctype s').
Proof. intros H. unfold Crawler.save_file. emits_cases. Qed.

Lemma em_probe (api_url : string) (s s' : State) :
  emits P s s' -> emits P s (Crawler.probe W api_url s').
Proof. intros H. unfold Crawler.probe. emits_cases. Qed.

Lemma em_analyze_js (content url : string) (s s' : State) :
  emits P s s' -> emits P s (Crawler.analyze_js E W content url s').
Proof.
  intros H. unfold Crawler.analyze_js. cbv zeta.
  revert s' H. induction (find_api_urls E content) as [|u us IH];
    intros s' H; cbn [fold_left]; [exact H|].
  apply IH, em_probe, H.
Qed.

Hint Resolve em_filter_url em_save_file em_probe em_analyze_js : emits.

Lemma em_asset_success (url : string) (r : Response) (s s' : State) :
  emits P s s' -> emits P s (Crawler.asset_success E W C url r s').
Proof.
  intros H. unfold Crawler.asset_success. cbv zeta.
  destruct (_ && _); auto with emits.
Qed.

Lemma em_asset_await (rest : list Z) (url : string) (a : Z) (s s' : State) :
  1 <= a <= retries C ->
  Forall (fun a' => 1 <= a' <= retries C) rest ->
  emits P s s' -> emits P s (Crawler.asset_await E W C rest url a s').
Proof.
  revert a s'. induction rest as [|a' rest IH]; intros a s' Ha Hrest H;
    cbn [Crawler.asset_await].
  - destruct (client_get_follow W (ticks s') url) as [r| |].
    + destruct (status_code r =? 200);
        auto using em_asset_success with emits.
    + destruct (a <? retries C); auto using em_sleep with emits.
    + auto with emits.
  - apply Forall_cons in Hrest as [Ha' Hrest].
    destruct (client_get_follow W (ticks s') url) as [r| |].
    + destruct (status_code r =? 200);
        [auto using em_asset_success with emits|].
      apply IH; try assumption. apply em_emit; [now apply P_get_asset|].
      auto with emits.
    + apply IH; try assumption. apply em_emit; [now apply P_get_asset|].
      destruct (a <? retries C); auto using em_sleep with emits.
    + auto with emits.
Qed.

Lemma em_asset_begin (url : string) (s s' : State) :
  emits P s s' -> emits P s (snd (Crawler.asset_begin E C url s')).
Proof.
  intros H. unfold Crawler.asset_begin.
  destruct (negb (running s')); [exact H|].
  case_bool_decide; [exact H|].
  pose proof (em_filter_url url s s' H) as Hf.
  pose proof (filter_url_accepts E C url s') as Hacc.
  destruct (Crawler.filter_url E C url s') as [[|] s1]; cbn [fst snd negb] in *;
    [|exact Hf].
  assert (H2 : emits P s (emit (Fetch Asset url) (visited_add url s1))).
  { apply em_emit; [now apply P_asset|]. unfold visited_add.
    apply em_emit; [now apply P_visited|exact Hf]. }
  pose proof (attempts_within C) as Hatt.
  destruct (Crawler.attempts C) as [|a rest]; cbn [snd]; [exact H2|].
  apply Forall_cons in Hatt as [Ha _].
  apply em_emit; [now apply P_get_asset|exact H2].
Qed.

Lemma asset_begin_task (url : string) (s : State) (a : Z) (rest : list Z) :
  fst (Crawler.asset_begin E C url s) = Some (a, rest) ->
  1 <= a <= retries C /\ Forall (fun a' => 1 <= a' <= retries C) rest.
Proof.
  unfold Crawler.asset_begin.
  destruct (negb (running s)); [discriminate|].
  case_bool_decide; [discriminate|].
  destruct (Crawler.filter_url E C url s) as [[|] s1]; cbn [negb];
    [|discriminate].
  pose proof (attempts_within C) as Hatt.
  destruct (Crawler.attempts C) as [|a0 rest0]; cbn [fst]; [discriminate|].
  intros [= <- <-]. now apply Forall_cons in Hatt.
Qed.

Lemma em_begin_all (us : list string) (s s' : State) :
  emits P s s' ->
  emits P s (snd (Crawler.begin_all E C us s'))
  /\ tasks_within C (fst (Crawler.begin_all E C us s')).
Proof.
  revert s'. induction us as [|u us IH]; intros s' H; cbn [Crawler.begin_all].
  { split; [exact H|constructor]. }
  pose proof (em_asset_begin u s s' H) as H1.
  pose proof (asset_begin_task u s') as Ht.
  destruct (Crawler.asset_begin E C u s') as [p s1]. cbn [fst snd] in *.
  destruct (IH s1 H1) as [H2 Hts].
  destruct (Crawler.begin_all E C us s1) as [ps s2]. cbn [fst snd] in *.
  split; [exact H2|].
  destruct p as [[a rest]|]; [|exact Hts].
  constructor; [|exact Hts]. cbn [fst snd]. now apply Ht.
Qed.

Lemma em_await_all (tasks : list (string * (Z * list Z))) (s s' : State) :
  tasks_within C tasks ->
  emits P s s' -> emits P s (Crawler.await_all E W C tasks s').
Proof.
  revert s'. induction tasks as [|[u [a rest]] tasks IH]; intros s' Ht H;
    cbn [Crawler.await_all]; [exact H|].
  apply Forall_cons in Ht as [[Ha Hrest] Ht]. cbn [fst snd] in *.
  apply IH; [exact Ht|]. now apply em_asset_await.
Qed.

Lemma em_gather_assets (us : list string) (s s' : State) :
  emits P s s' -> emits P s (Crawler.gather_assets E W C us s').
Proof.
  intros H. unfold Crawler.gather_assets.
  destruct (em_begin_all us s s' H) as [H1 Ht].
  destruct (Crawler.begin_all E C us s') as [tasks s1]. cbn [fst snd] in *.
  now apply em_await_all.
Qed.

Lemma em_fetch (fuel : nat) (url : string) (a : Z) (s s' : State) :
  1 <= a ->
  emits P s s' ->
  emits P s (res_state (Crawler.fetch_with_redirects E W C fuel url a s')).
Proof.
  revert url a s'. induction fuel as [|fuel IH]; intros url a s' Ha H;
    cbn [Crawler.fetch_with_redirects]; [exact H|].
  destruct (negb (running s')); [exact H|].
  destruct (a >? retries C) eqn:Hgt; [cbn [res_state]; auto with emits|].
  assert (Hin : 1 <= a <= retries C) by lia.
  assert (Hnext : 1 <= a + 1) by lia.
  destruct (use_browser s').
  - destruct (browser W (ticks s') url); destruct (a <? retries C);
      cbn [res_state];
      repeat first
        [ apply IH; [exact Hnext|]
        | apply em_sleep; [exact Hin|]
        | apply em_log
        | apply em_await
        | apply em_emit; [first [apply P_close | now apply P_launch]|]
        | exact H ].
  - assert (H1 : emits P s (Crawler.await W (emit (Get url a) s'))).
    { apply em_await, em_emit; [now apply P_get|exact H]. }
    destruct (client_get W (ticks s') url) as [r| |].
    + destruct (Crawler.is_redirect (status_code r)).
      * destruct (Analyzer.truthy_opt (location r));
          cbn [res_state]; auto with emits.
      * destruct (negb _); cbn [res_state]; auto with emits.
    + apply IH; [exact Hnext|]. apply em_sleep; [exact Hin|].
      auto with emits.
    + destruct (a <? retries C); cbn [res_state]; [|auto with emits].
      apply IH; [exact Hnext|]. apply em_sleep; [exact Hin|].
      auto with emits.
Qed.

Lemma em_each_link (visit : string -> State -> Res unit)
    (links : list string) :
  (forall u s s', emits P s s' -> emits P s (res_state (visit u s'))) ->
  forall s s', emits P s s' ->
               emits P s (res_state (Crawler.each_link visit links s')).
Proof.
  intros Hv. induction links as [|u links IH]; intros s s' H;
    cbn [Crawler.each_link]; [exact H|].
  pose proof (Hv u s s' H) as H1.
  destruct (visit u s') as [[] s1|s1]; cbn [res_state] in *; auto.
Qed.

Lemma em_crawl_page (fuel : nat) (url : string) (d : Z) (s s' : State) :
  url_netloc E url = Crawler.root_domain E C ->
  emits P s s' ->
  emits P s (res_state (Crawler.crawl_page E W C fuel url d s')).
Proof.
  revert s url d s'. induction fuel as [|fuel IH]; intros s url d s' Hhost H;
    cbn [Crawler.crawl_page]; [exact H|].
  destruct (_ || _); [exact H|].
  pose proof (em_filter_url url s s' H) as Hf.
  pose proof (filter_url_accepts E C url s') as Hacc.
  destruct (Crawler.filter_url E C url s') as [[|] s1]; cbn [fst snd negb] in *;
    [|exact Hf].
  match goal with
  | |- context [Crawler.fetch_with_redirects E W C fuel url 1 ?s2] =>
      assert (H2 : emits P s s2)
  end.
  { apply em_emit; [now apply P_page|]. apply em_log.
    unfold sitemap_append, visited_add.
    apply em_emit; [now apply P_visited|exact Hf]. }
  match goal with
  | |- context [Crawler.fetch_with_redirects E W C fuel url 1 ?s2] =>
      pose proof (em_fetch fuel url 1 s s2 ltac:(lia) H2) as H3;
        destruct (Crawler.fetch_with_redirects E W C fuel url 1 s2)
        as [[final_url fetched] s3|s3]
  end; cbn [res_state] in *; [|exact H3].
  destruct (Analyzer.truthy_opt fetched) as [html|]; [|exact H3].
  destruct (parse_html E html) as [selector|];
    [|cbn [res_state]; auto with emits].
  apply em_each_link.
  - intros u x x' Hx.
    destruct (String.eqb _ _) eqn:Heq; [|exact Hx].
    apply IH; [|exact Hx]. now apply String.eqb_eq.
  - apply em_gather_assets. unfold Crawler.analyze_content.
    auto with emits.
Qed.

(** A run emits only events that satisfy [P]. *)
Lemma em_run (fuel : nat) :
  Forall P (trace (res_state (Crawler.download_website E W C fuel))).
Proof.
  apply emits_Forall with (s := Crawler.init_state W C); [|constructor].
  unfold Crawler.download_website.
  assert (H0 : emits P (Crawler.init_state W C)
                 (set_running true (Crawler.init_state W C)))
    by apply em_set_running, emits_refl.
  destruct (PyStr.truthy (cfg_url C)) eqn:Hurl; cbn [negb res_state];
    [|auto with emits].
  destruct (negb (client_created W)); cbn [res_state]; [auto with emits|].
  match goal with
  | |- context [Crawler.crawl_page E W C fuel _ 0 ?s2] =>
      assert (H2 : emits P (Crawler.init_state W C) s2)
  end.
  { destruct (_ && _); auto with emits. }
  assert (Hhost : url_netloc E (cfg_url C) = Crawler.root_domain E C).
  { unfold Crawler.root_domain. now rewrite Hurl. }
  pose proof (em_crawl_page fuel (cfg_url C) 0 _ _ Hhost H2) as H3.
  destruct (Crawler.crawl_page E W C fuel (cfg_url C) 0 _) as [[] s3|s3];
    cbn [res_state] in *; [|exact H3].
  unfold Crawler.create_zip, Crawler.save_analysis, Crawler.save_sitemap.
  repeat innermost_case; auto 10 with emits.
Qed.

End Emits.

(** ** Scope, filter and sitemap of a run *)

Lemma page_urls_sched (t : list Event) : page_urls (sched t) = page_urls t.
Proof.
  induction t as [|e t IH]; [reflexivity|].
  destruct e as [| |[]| | | | | | |]; cbn; try exact IH. f_equal. exact IH.
Qed.

Lemma page_urls_blocks (l : list Entry) : page_urls (blocks l) = pages l.
Proof.
  induction l as [|[[d|] u] l IH]; cbn; [reflexivity| |];
    [f_equal|]; exact IH.
Qed.

Lemma in_page_urls (t : list Event) (u : string) :
  In u (page_urls t) -> exists d, In (Fetch (Page d) u) t.
Proof.
  unfold page_urls. intros Hin. apply in_flat_map in Hin as (e & He & Hu).
  destruct e as [| |[d|] v| | | | | | |]; cbn in Hu; try contradiction.
  destruct Hu as [<-|[]]. now exists d.
Qed.

Lemma in_visits (t : list Event) (u : string) :
  In u (visits t) -> In (VisitedAdd u) t.
Proof.
  unfold visits. intros Hin. apply in_flat_map in Hin as (e & He & Hu).
  destruct e; cbn in Hu; try contradiction. now destruct Hu as [<-|[]].
Qed.

(** X1: the sitemap of a run, finished or cut off, lists the URLs handed
    to the fetcher as pages, in the order of the hand-overs, and a URL
    taken up as an asset is not on it. *)
Theorem X1_sitemap_lists_pages (E : Env) (W : World) (C : Config)
    (fuel : nat) :
  let s := res_state (Crawler.download_website E W C fuel) in
  sitemap s = page_urls (trace s)
  /\ (forall u, In (Fetch Asset u) (trace s) -> ~ In u (sitemap s)).
Proof.
  cbv zeta. destruct (run_inv E W C fuel) as (l & (H1 & H2 & H3 & H4) & _).
  split.
  - rewrite <- page_urls_sched, H1, page_urls_blocks. exact H4.
  - intros u Hin Hsite. rewrite H4 in Hsite.
    assert (Hb : In (Fetch Asset u) (blocks l)).
    { rewrite <- H1. apply List.filter_In. split; [exact Hin|reflexivity]. }
    clear - H2 Hb Hsite. induction l as [|[k v] l IH]; [destruct Hb|].
    cbn [urls List.map snd] in H2. apply NoDup_cons in H2 as [Hv H2].
    assert (Hsub : forall x, In x (pages l) -> In x (urls l)).
    { intros x Hx. unfold pages in Hx. apply in_map_iff in Hx as (y & <- & Hy).
      apply List.filter_In in Hy as [Hy _]. now apply in_map. }
    cbn in Hb. destruct Hb as [Hb|[Hb|Hb]]; [discriminate| |].
    + injection Hb as -> ->. unfold pages in Hsite. cbn in Hsite.
      apply Hv, list_elem_of_In, Hsub. exact Hsite.
    + destruct k as [d|]; unfold pages in Hsite; cbn in Hsite.
      * destruct Hsite as [<-|Hsite]; [|now apply IH].
        apply Hv, list_elem_of_In.
        clear - Hb. induction l as [|[k w] l IH]; [destruct Hb|].
        cbn in Hb. destruct Hb as [Hb|[Hb|Hb]]; [discriminate| |].
        -- injection Hb as _ ->. now left.
        -- right. now apply IH.
      * now apply IH.
Qed.

(** X2: every page on the sitemap of a run is on the host of the root URL:
    links to other hosts are not followed. *)
Theorem X2_pages_on_root_host (E : Env) (W : World) (C : Config)
    (fuel : nat) :
  Forall (fun u => url_netloc E u = Crawler.root_domain E C)
    (sitemap (res_state (Crawler.download_website E W C fuel))).
Proof.
  apply Forall_forall. intros u Hin%list_elem_of_In.
  destruct (run_inv E W C fuel) as (l & (H1 & _ & _ & H4) & _).
  rewrite H4, <- page_urls_blocks, <- H1, page_urls_sched in Hin.
  apply in_page_urls in Hin as [d Hd].
  pose proof (em_run E W C (taken_up_ok E C)) as Hrun.
  assert (Hall : Forall (taken_up_ok E C)
                   (trace (res_state (Crawler.download_website E W C fuel))))
    by (apply Hrun; cbn; auto).
  eapply Forall_forall in Hall; [|apply list_elem_of_In; exact Hd].
  now destruct Hall.
Qed.

Lemma in_handed (t : list Event) (u : string) :
  In u (handed t) -> exists k, In (Fetch k u) t.
Proof.
  unfold handed. intros Hin. apply in_flat_map in Hin as (e & He & Hu).
  destruct e as [| |k v| | | | | | |]; cbn in Hu; try contradiction.
  destruct Hu as [<-|[]]. now exists k.
Qed.

(** X3: every URL in the visited set of a run, and every URL the scheduler
    hands to the fetcher, as a page or as an asset, passed the filter: a
    URL the filter rejects is neither marked nor handed over.  (The target
    of a redirect is requested inside the fetch of the redirected page,
    without a hand-over and without the filter.) *)
Theorem X3_visited_passed_filter (E : Env) (W : World) (C : Config)
    (fuel : nat) :
  let s := res_state (Crawler.download_website E W C fuel) in
  set_Forall (fun u => accepts E C u = true) (visited_urls s)
  /\ Forall (fun u => accepts E C u = true) (handed (trace s)).
Proof.
  cbv zeta.
  pose proof (em_run E W C (taken_up_ok E C)) as Hrun.
  assert (Hall : Forall (taken_up_ok E C)
                   (trace (res_state (Crawler.download_website E W C fuel))))
    by (apply Hrun; cbn; auto).
  rewrite Forall_forall in Hall.
  split.
  - intros u Hin.
    destruct (run_inv E W C fuel) as (l & (H1 & _ & H3 & _) & _).
    apply H3 in Hin. rewrite <- visits_blocks, <- H1, visits_sched in Hin.
    apply in_visits in Hin.
    exact (Hall _ (proj2 (list_elem_of_In _ _) Hin)).
  - apply Forall_forall. intros u Hin%list_elem_of_In%in_handed.
    destruct Hin as [k Hin].
    pose proof (Hall _ (proj2 (list_elem_of_In _ _) Hin)) as Hok.
    destruct k; cbn in Hok; [now destruct Hok|exact Hok].
Qed.

(** The target of a redirect that the filter rejects is requested all the
    same: the root redirects to another host, which the configuration
    excludes. *)
Example redirect_target_skips_filter :
  let C := Scenario.with_exclude "other.test"
             (Scenario.config Scenario.root_url) in
  let s := res_state
             (Crawler.download_website Demo.plain_env Scenario.elsewhere_world
                C 5) in
  accepts Demo.plain_env C Scenario.elsewhere_url = false
  /\ gets (trace s) = [(Scenario.root_url, 1); (Scenario.elsewhere_url, 1)]
  /\ handed (trace s) = [Scenario.root_url].
Proof. repeat split; vm_compute; reflexivity. Qed.

(** ** The retry budget of a run *)

Lemma in_sleeps (d : Z) (t : list Event) : In d (sleeps t) -> In (Sleep d) t.
Proof.
  unfold sleeps. intros Hin. apply in_flat_map in Hin as (e & He & Hd).
  destruct e; cbn in Hd; try contradiction. now destruct Hd as [<-|[]].
Qed.

(** X4: every request of a run, by the page fetcher, the browser or the
    asset loop, carries an attempt number between 1 and the retry budget;
    with a budget of 0 or less no request is sent at all. *)
Theorem X4_attempts_within_budget (E : Env) (W : World) (C : Config)
    (fuel : nat) :
  let t := trace (res_state (Crawler.download_website E W C fuel)) in
  (forall u a,
      In (Get u a) t \/ In (GetAsset u a) t \/ In (BrowserLaunch u a) t ->
      1 <= a <= retries C)
  /\ (retries C <= 0 ->
      forall u a,
        ~ In (Get u a) t /\ ~ In (GetAsset u a) t
        /\ ~ In (BrowserLaunch u a) t).
Proof.
  cbv zeta.
  assert (Hall : Forall (within_budget C)
                   (trace (res_state (Crawler.download_website E W C fuel)))).
  { apply em_run; cbn; auto. intros a Ha. now exists a. }
  assert (Hreq : forall u a,
             In (Get u a)
               (trace (res_state (Crawler.download_website E W C fuel)))
             \/ In (GetAsset u a)
                  (trace (res_state (Crawler.download_website E W C fuel)))
             \/ In (BrowserLaunch u a)
                  (trace (res_state (Crawler.download_website E W C fuel))) ->
             1 <= a <= retries C).
  { intros u a [Hin|[Hin|Hin]];
      (eapply Forall_forall in Hall; [|apply list_elem_of_In; exact Hin]);
      exact Hall. }
  split; [exact Hreq|].
  intros Hzero u a. repeat split; intros Hin;
    assert (1 <= a <= retries C) by (apply (Hreq u a); tauto); lia.
Qed.

(** X5: every sleep of a run lasts 2^a time units for an attempt number a
    within the retry budget: no single delay is shorter than 2 or longer
    than 2^retries. *)
Theorem X5_sleeps_bounded (E : Env) (W : World) (C : Config) (fuel : nat) :
  Forall (fun d => (exists a, 1 <= a <= retries C /\ d = 2 ^ a)
                   /\ 2 <= d <= 2 ^ retries C)
    (sleeps (trace (res_state (Crawler.download_website E W C fuel)))).
Proof.
  apply Forall_forall. intros d Hin%list_elem_of_In%in_sleeps.
  assert (Hall : Forall (within_budget C)
                   (trace (res_state (Crawler.download_website E W C fuel)))).
  { apply em_run; cbn; auto. intros a Ha. now exists a. }
  eapply Forall_forall in Hall; [|apply list_elem_of_In; exact Hin].
  cbn in Hall. split; [exact Hall|].
  destruct Hall as (a & Ha & ->). split.
  - change 2 with (2 ^ 1) at 1. apply Z.pow_le_mono_r; lia.
  - apply Z.pow_le_mono_r; lia.
Qed.

(** ** Failures of a fetch *)

Lemma asset_gets_app (a b : list Event) :
  asset_gets (a ++ b) = asset_gets a ++ asset_gets b.
Proof. apply flat_map_app. Qed.

(** X6: in HTTP mode an answer that is neither a redirect nor a 200 ends
    the fetch of a page at once: one request, no content, no sleep, no
    retry, no entry of the redirect map. *)
Theorem X6_bad_status_ends_fetch (E : Env) (W : World) (C : Config)
    (fuel : nat) (u : string) (a : Z) (s : State) (r0 : Response) :
  running s = true -> use_browser s = false -> a <= retries C ->
  client_get W (ticks s) u = Responded r0 ->
  Crawler.is_redirect (status_code r0) = false ->
  status_code r0 <> 200 ->
  let r := Crawler.fetch_with_redirects E W C (S fuel) u a s in
  res_value r = Some (u, None)
  /\ redirects (res_state r) = redirects s
  /\ gets (trace (res_state r)) = gets (trace s) ++ [(u, a)]
  /\ sleeps (trace (res_state r)) = sleeps (trace s).
Proof.
  intros Hr Hb Ha Hget Hred Hst. cbv zeta.
  cbn [Crawler.fetch_with_redirects]. rewrite Hr, Hb. cbn [negb].
  replace (a >? retries C) with false by lia.
  rewrite Hget, Hred.
  replace (status_code r0 =? 200) with false by lia.
  cbn [negb res_value res_state].
  destruct (await_views W (emit (Get u a) s)) as (Hg & Hs & Hm & _).
  session_simpl. rewrite gets_app, sleeps_app, Hg, Hs, Hm. session_simpl.
  rewrite gets_app, sleeps_app. cbn. rewrite !app_nil_r. auto.
Qed.

(** X6 at a page the server answers with 404. *)
Lemma X6_bad_status_ends_fetch_witness :
  let s := Scenario.started Scenario.missing_world
             (Scenario.config Scenario.missing_url) in
  let r := Crawler.fetch_with_redirects Demo.plain_env Scenario.missing_world
             (Scenario.config Scenario.missing_url) 1 Scenario.missing_url 1
             s in
  res_value r = Some (Scenario.missing_url, None)
  /\ redirects (res_state r) = redirects s
  /\ gets (trace (res_state r)) = gets (trace s) ++ [(Scenario.missing_url, 1)]
  /\ sleeps (trace (res_state r)) = sleeps (trace s).
Proof.
  apply (X6_bad_status_ends_fetch Demo.plain_env Scenario.missing_world
           (Scenario.config Scenario.missing_url) 0 Scenario.missing_url 1
           (Scenario.started Scenario.missing_world
              (Scenario.config Scenario.missing_url))
           {| status_code := 404; location := None; content_type := None;
              text := EmptyString; content := EmptyString |});
    try reflexivity; vm_compute; discriminate.
Defined.

Section AssetFailures.
Context (E : Env) (W : World) (C : Config).

(** What a suspension point leaves alone. *)
Lemma await_keeps (s : State) :
  asset_gets (trace (Crawler.await W s)) = asset_gets (trace s)
  /\ sleeps (trace (Crawler.await W s)) = sleeps (trace s)
  /\ files (Crawler.await W s) = files s.
Proof.
  unfold Crawler.await, Crawler.stop.
  destruct (stop_pressed W (ticks s)); session_simpl;
    rewrite ?asset_gets_app, ?sleeps_app; cbn; rewrite ?app_nil_r; auto.
Qed.

(** The loop of [_download_asset] under answers other than 200: the next
    attempt follows at once. *)
Lemma asset_await_bad_status (u : string) (rest : list Z) :
  (forall t, exists r,
      client_get_follow W t u = Responded r /\ status_code r <> 200) ->
  forall a s,
    asset_gets (trace (Crawler.asset_await E W C rest u a s))
    = asset_gets (trace s) ++ List.map (fun a' => (u, a')) rest
    /\ sleeps (trace (Crawler.asset_await E W C rest u a s))
       = sleeps (trace s)
    /\ files (Crawler.asset_await E W C rest u a s) = files s.
Proof.
  intros Hbad. induction rest as [|a' rest IH]; intros a s;
    cbn [Crawler.asset_await];
    destruct (Hbad (ticks s)) as (r & -> & Hst);
    replace (status_code r =? 200) with false by lia;
    destruct (await_keeps s) as (Hg & Hs & Hf).
  - session_simpl. rewrite asset_gets_app, sleeps_app, Hg, Hs, Hf. cbn.
    rewrite !app_nil_r. auto.
  - destruct (IH a'
                (emit (GetAsset u a')
                   (log Warning (MAssetFailed u (status_code r))
                      (Crawler.await W s)))) as (I1 & I2 & I3).
    rewrite I1, I2, I3. session_simpl.
    rewrite !asset_gets_app, !sleeps_app, Hg, Hs, Hf. cbn.
    rewrite !app_nil_r, <- app_assoc. auto.
Qed.

Lemma filter_url_keeps (url : string) (s : State) :
  asset_gets (trace (snd (Crawler.filter_url E C url s))) = asset_gets (trace s)
  /\ sleeps (trace (snd (Crawler.filter_url E C url s))) = sleeps (trace s)
  /\ files (snd (Crawler.filter_url E C url s)) = files s
  /\ running (snd (Crawler.filter_url E C url s)) = running s
  /\ visited_urls (snd (Crawler.filter_url E C url s)) = visited_urls s
  /\ ticks (snd (Crawler.filter_url E C url s)) = ticks s.
Proof.
  unfold Crawler.filter_url.
  repeat innermost_case; cbn [snd]; session_simpl;
    rewrite ?asset_gets_app, ?sleeps_app; cbn; rewrite ?app_nil_r; auto 10.
Qed.

End AssetFailures.

(** X7: an asset whose requests are all answered with a status other than
    200 is requested once per attempt of the retry budget, one request
    right after the other without a sleep, and nothing is saved. *)
Theorem X7_asset_bad_status_retried_at_once (E : Env) (W : World)
    (C : Config) (u : string) (s : State) :
  running s = true -> u ∉ visited_urls s -> accepts E C u = true ->
  (forall t, exists r,
      client_get_follow W t u = Responded r /\ status_code r <> 200) ->
  let s' := Crawler.download_asset E W C u s in
  asset_gets (trace s')
  = asset_gets (trace s) ++ List.map (fun a => (u, a)) (Crawler.attempts C)
  /\ sleeps (trace s') = sleeps (trace s)
  /\ files s' = files s.
Proof.
  intros Hr Hv Hacc Hbad. cbv zeta.
  unfold Crawler.download_asset, Crawler.asset_begin. rewrite Hr. cbn [negb].
  rewrite bool_decide_eq_false_2 by exact Hv.
  pose proof (filter_url_accepts E C u s) as Hf.
  destruct (filter_url_keeps E C u s) as (K1 & K2 & K3 & _).
  destruct (Crawler.filter_url E C u s) as [ok s1]. cbn [fst snd] in *.
  rewrite Hf, Hacc. cbn [negb].
  destruct (Crawler.attempts C) as [|a rest].
  - session_simpl. rewrite !asset_gets_app, !sleeps_app, K1, K2, K3. cbn.
    rewrite !app_nil_r. auto.
  - destruct (asset_await_bad_status E W C u rest Hbad a
                (emit (GetAsset u a)
                   (emit (Fetch Asset u) (visited_add u s1))))
      as (I1 & I2 & I3).
    rewrite I1, I2, I3. session_simpl.
    rewrite !asset_gets_app, !sleeps_app, K1, K2, K3. cbn.
    rewrite !app_nil_r, <- app_assoc. auto.
Qed.

(** X7 at an asset the server answers with 404, with three retries. *)
Lemma X7_asset_bad_status_retried_at_once_witness :
  let s := Scenario.started Scenario.missing_world
             (Scenario.config Scenario.root_url) in
  let s' := Crawler.download_asset Demo.plain_env Scenario.missing_world
              (Scenario.config Scenario.root_url) Scenario.missing_url s in
  asset_gets (trace s')
  = asset_gets (trace s)
    ++ List.map (fun a => (Scenario.missing_url, a))
         (Crawler.attempts (Scenario.config Scenario.root_url))
  /\ sleeps (trace s') = sleeps (trace s)
  /\ files s' = files s.
Proof.
  apply (X7_asset_bad_status_retried_at_once Demo.plain_env
           Scenario.missing_world (Scenario.config Scenario.root_url)
           Scenario.missing_url).
  - reflexivity.
  - vm_compute. set_solver.
  - reflexivity.
  - intros t. eexists. split; [reflexivity|]. vm_compute. discriminate.
Defined.

Lemma attempts_head (C : Config) :
  1 <= retries C -> exists rest, Crawler.attempts C = 1 :: rest.
Proof.
  intros Hr. unfold Crawler.attempts.
  destruct (Z.to_nat (retries C)) as [|n] eqn:Hn; [lia|].
  cbn. eexists. reflexivity.
Qed.

(** X8: an asset whose first request raises an exception that is not a
    request error is given up at once: one request, no sleep, no further
    attempt, nothing saved. *)
Theorem X8_asset_unexpected_error_given_up (E : Env) (W : World)
    (C : Config) (u : string) (s : State) :
  running s = true -> u ∉ visited_urls s -> accepts E C u = true ->
  1 <= retries C ->
  client_get_follow W (ticks s) u = OtherError ->
  let s' := Crawler.download_asset E W C u s in
  asset_gets (trace s') = asset_gets (trace s) ++ [(u, 1)]
  /\ sleeps (trace s') = sleeps (trace s)
  /\ files s' = files s.
Proof.
  intros Hr Hv Hacc Hret Hget. cbv zeta.
  unfold Crawler.download_asset, Crawler.asset_begin. rewrite Hr. cbn [negb].
  rewrite bool_decide_eq_false_2 by exact Hv.
  pose proof (filter_url_accepts E C u s) as Hf.
  destruct (filter_url_keeps E C u s) as (K1 & K2 & K3 & _ & _ & K6).
  destruct (Crawler.filter_url E C u s) as [ok s1]. cbn [fst snd] in *.
  rewrite Hf, Hacc. cbn [negb].
  destruct (attempts_head C Hret) as [rest ->].
  destruct rest as [|a' rest]; cbn [Crawler.asset_await]; session_simpl;
    rewrite K6, Hget;
    match goal with
    | |- context [Crawler.await W ?x] =>
        destruct (await_keeps W x) as (A1 & A2 & A3)
    end;
    session_simpl; rewrite !asset_gets_app, !sleeps_app, A1, A2, A3;
    session_simpl; rewrite !asset_gets_app, !sleeps_app, K1, K2, K3; cbn;
    rewrite !app_nil_r; auto.
Qed.

(** X8 at an asset whose request breaks. *)
Lemma X8_asset_unexpected_error_given_up_witness :
  let s := Scenario.started Scenario.broken_world
             (Scenario.config Scenario.root_url) in
  let s' := Crawler.download_asset Demo.plain_env Scenario.broken_world
              (Scenario.config Scenario.root_url) Scenario.asset_url s in
  asset_gets (trace s') = asset_gets (trace s) ++ [(Scenario.asset_url, 1)]
  /\ sleeps (trace s') = sleeps (trace s)
  /\ files s' = files s.
Proof.
  apply (X8_asset_unexpected_error_given_up Demo.plain_env
           Scenario.broken_world (Scenario.config Scenario.root_url)
           Scenario.asset_url).
  - reflexivity.
  - vm_compute. set_solver.
  - reflexivity.
  - vm_compute. discriminate.
  - reflexivity.
Defined.

Section FetchCount.
Context (E : Env) (W : World) (C : Config).
Hypothesis no_redirect : redirect_free W.

Lemma sleep_gets (secs : Z) (s : State) :
  gets (trace (Crawler.sleep W secs s)) = gets (trace s).
Proof.
  unfold Crawler.sleep.
  destruct (await_views W (emit (Sleep secs) s)) as (Hg & _).
  rewrite Hg. session_simpl. rewrite gets_app. cbn. apply app_nil_r.
Qed.

Lemma fetch_request_count (fuel : nat) :
  forall u a s,
    (List.length
       (gets (trace (res_state
                       (Crawler.fetch_with_redirects E W C fuel u a s))))
     <= List.length (gets (trace s)) + Z.to_nat (retries C + 1 - a))%nat.
Proof.
  induction fuel as [|fuel IH]; intros u a s;
    cbn [Crawler.fetch_with_redirects res_state]; [lia|].
  destruct (negb (running s)); cbn [res_state]; [lia|].
  destruct (a >? retries C) eqn:Ha; cbn [res_state].
  { session_simpl. rewrite gets_app. cbn. rewrite app_nil_r. lia. }
  assert (Hstep : (S (Z.to_nat (retries C + 1 - (a + 1)))
                   = Z.to_nat (retries C + 1 - a))%nat) by lia.
  assert (Hnext : forall s',
             gets (trace s') = gets (trace s) ->
             (List.length
                (gets (trace (res_state
                   (Crawler.fetch_with_redirects E W C fuel u (a + 1) s'))))
              <= List.length (gets (trace s))
                 + Z.to_nat (retries C + 1 - a))%nat).
  { intros s' Hs'. specialize (IH u (a + 1) s'). rewrite Hs' in IH. lia. }
  assert (Hnext1 : forall s',
             gets (trace s') = gets (trace s) ++ [(u, a)] ->
             (List.length
                (gets (trace (res_state
                   (Crawler.fetch_with_redirects E W C fuel u (a + 1) s'))))
              <= List.length (gets (trace s))
                 + Z.to_nat (retries C + 1 - a))%nat).
  { intros s' Hs'. specialize (IH u (a + 1) s'). rewrite Hs' in IH.
    rewrite length_app in IH. cbn in IH. lia. }
  destruct (use_browser s).
  - destruct (browser W (ticks s) u); destruct (a <? retries C);
      cbn [res_state];
      try (apply Hnext; rewrite sleep_gets);
      session_simpl; rewrite ?gets_app;
      repeat match goal with
             | |- context [Crawler.await W ?x] =>
                 destruct (await_views W x) as (-> & _)
             end;
      session_simpl; rewrite ?gets_app; cbn; rewrite ?app_nil_r;
      try reflexivity; lia.
  - assert (H1 : gets (trace (Crawler.await W (emit (Get u a) s)))
                 = gets (trace s) ++ [(u, a)]).
    { destruct (await_views W (emit (Get u a) s)) as (-> & _).
      session_simpl. now rewrite gets_app. }
    assert (Hone : (List.length (gets (trace s) ++ [(u, a)])
                    <= List.length (gets (trace s))
                       + Z.to_nat (retries C + 1 - a))%nat).
    { rewrite length_app. cbn. lia. }
    destruct (client_get W (ticks s) u) as [r| |] eqn:Hget.
    + rewrite (no_redirect _ _ _ Hget).
      destruct (negb _); cbn [res_state]; session_simpl;
        rewrite ?gets_app, H1; cbn; rewrite ?app_nil_r; exact Hone.
    + apply Hnext1. rewrite sleep_gets. session_simpl.
      rewrite gets_app, H1. cbn. now rewrite app_nil_r.
    + destruct (a <? retries C); cbn [res_state].
      * apply Hnext1. rewrite sleep_gets. session_simpl.
        rewrite gets_app, H1. cbn. now rewrite app_nil_r.
      * session_simpl. rewrite gets_app, H1. cbn. rewrite app_nil_r.
        exact Hone.
Qed.

End FetchCount.

(** X9: when the server answers no page request with a redirect, one
    fetch of a page that starts at attempt 1 sends at most as many requests
    as the retry budget allows, whatever fails. *)
Theorem X9_fetch_sends_at_most_budget (E : Env) (W : World) (C : Config)
    (fuel : nat) (u : string) (s : State) :
  redirect_free W ->
  (List.length
     (gets (trace (res_state
                     (Crawler.fetch_with_redirects E W C fuel u 1 s))))
   <= List.length (gets (trace s)) + Z.to_nat (retries C))%nat.
Proof.
  intros Hfree.
  pose proof (fetch_request_count E W C Hfree fuel u 1 s) as H.
  replace (retries C + 1 - 1) with (retries C) in H by lia. exact H.
Qed.

(** X9 at a server that answers nothing, with three retries. *)
Lemma X9_fetch_sends_at_most_budget_witness :
  (List.length
     (gets (trace (res_state
                     (Crawler.fetch_with_redirects Demo.plain_env
                        Scenario.silent (Scenario.config Scenario.root_url)
                        10 Scenario.root_url 1
                        (Scenario.started Scenario.silent
                           (Scenario.config Scenario.root_url))))))
   <= List.length
        (gets (trace (Scenario.started Scenario.silent
                        (Scenario.config Scenario.root_url))))
      + Z.to_nat (retries (Scenario.config Scenario.root_url)))%nat.
Proof.
  apply (X9_fetch_sends_at_most_budget Demo.plain_env Scenario.silent
           (Scenario.config Scenario.root_url) 10 Scenario.root_url).
  intros t u r H. discriminate H.
Defined.

(** ** The two copies of a saved resource *)

Section TwoCopies.
Context (E : Env) (W : World) (C : Config).

Lemma write_twice (p1 p2 : string) (c : Body) (m : gmap string Body) :
  (<[p2 := c]> (<[p1 := c]> m)) !! p1 = Some c
  /\ (<[p2 := c]> (<[p1 := c]> m)) !! p2 = Some c.
Proof.
  split; [|apply lookup_insert_eq].
  destruct (decide (p2 = p1)) as [->|Hne]; [apply lookup_insert_eq|].
  rewrite lookup_insert_ne by exact Hne. apply lookup_insert_eq.
Qed.

Lemma save_text (url t ctype : string) (s : State) :
  let p1 := AssetStore.input_path E (input_dir C) url ctype in
  let p2 := AssetStore.src_path E (Crawler.src_dir E C) url ctype in
  let c := Str (fst (Rewriter.rewrite_urls E t url)) in
  mkdir_ok W p1 = true -> mkdir_ok W p2 = true -> open_ok W p1 = true ->
  files (Crawler.save_file E W C url (Str t) false ctype s)
  = if open_ok W p2 then <[p2 := c]> (<[p1 := c]> (files s))
    else <[p1 := c]> (files s).
Proof.
  cbv zeta. intros M1 M2 O1. unfold Crawler.save_file.
  rewrite M1, M2, O1. cbn [andb negb].
  destruct (Rewriter.rewrite_urls E t url) as [t' [|]]; cbn [fst];
    destruct (open_ok W
                (AssetStore.src_path E (Crawler.src_dir E C) url ctype));
    reflexivity.
Qed.

Lemma save_bytes (url b ctype : string) (s : State) :
  let p1 := AssetStore.input_path E (input_dir C) url ctype in
  let p2 := AssetStore.src_path E (Crawler.src_dir E C) url ctype in
  mkdir_ok W p1 = true -> mkdir_ok W p2 = true -> open_ok W p1 = true ->
  files (Crawler.save_file E W C url (Bytes b) true ctype s)
  = if open_ok W p2 then <[p2 := Bytes b]> (<[p1 := Bytes b]> (files s))
    else <[p1 := Bytes b]> (files s).
Proof.
  cbv zeta. intros M1 M2 O1. unfold Crawler.save_file.
  rewrite M1, M2, O1. cbn [andb negb].
  destruct (open_ok W
              (AssetStore.src_path E (Crawler.src_dir E C) url ctype));
    reflexivity.
Qed.

End TwoCopies.

(** X10: when both directories can be made and both files opened,
    [_save_file] leaves the same content at its two destinations: the bytes
    as they are for a binary resource, the text after URL rewriting for a
    textual one. *)
Theorem X10_both_copies_hold_same_content (E : Env) (W : World)
    (C : Config) (url ctype : string) (s : State) :
  let p1 := AssetStore.input_path E (input_dir C) url ctype in
  let p2 := AssetStore.src_path E (Crawler.src_dir E C) url ctype in
  mkdir_ok W p1 = true -> mkdir_ok W p2 = true ->
  open_ok W p1 = true -> open_ok W p2 = true ->
  (forall b,
      files (Crawler.save_file E W C url (Bytes b) true ctype s) !! p1
      = Some (Bytes b)
      /\ files (Crawler.save_file E W C url (Bytes b) true ctype s) !! p2
         = Some (Bytes b))
  /\ (forall t,
        files (Crawler.save_file E W C url (Str t) false ctype s) !! p1
        = Some (Str (fst (Rewriter.rewrite_urls E t url)))
        /\ files (Crawler.save_file E W C url (Str t) false ctype s) !! p2
           = Some (Str (fst (Rewriter.rewrite_urls E t url)))).
Proof.
  cbv zeta. intros M1 M2 O1 O2. split.
  - intros b. rewrite (save_bytes E W C url b ctype s M1 M2 O1), O2.
    apply write_twice.
  - intros t. rewrite (save_text E W C url t ctype s M1 M2 O1), O2.
    apply write_twice.
Qed.

(** X10 at a style sheet in a world where every write succeeds. *)
Lemma X10_both_copies_hold_same_content_witness :
  let E := Demo.plain_env in
  let C := Scenario.config Scenario.root_url in
  let s := Scenario.started Scenario.silent C in
  let p1 := AssetStore.input_path E (input_dir C) Scenario.missing_url
              "text/css" in
  let p2 := AssetStore.src_path E (Crawler.src_dir E C) Scenario.missing_url
              "text/css" in
  (forall b,
      files (Crawler.save_file E Scenario.silent C Scenario.missing_url
               (Bytes b) true "text/css" s) !! p1
      = Some (Bytes b)
      /\ files (Crawler.save_file E Scenario.silent C Scenario.missing_url
                  (Bytes b) true "text/css" s) !! p2
         = Some (Bytes b))
  /\ (forall t,
        files (Crawler.save_file E Scenario.silent C Scenario.missing_url
                 (Str t) false "text/css" s) !! p1
        = Some (Str (fst (Rewriter.rewrite_urls E t Scenario.missing_url)))
        /\ files (Crawler.save_file E Scenario.silent C Scenario.missing_url
                    (Str t) false "text/css" s) !! p2
           = Some (Str (fst (Rewriter.rewrite_urls E t
                               Scenario.missing_url)))).
Proof.
  apply (X10_both_copies_hold_same_content Demo.plain_env Scenario.silent
           (Scenario.config Scenario.root_url) Scenario.missing_url
           "text/css"); reflexivity.
Defined.

(** X11: the two writes of [_save_file] are not one step: when the file of
    the mirror tree cannot be opened, the copy in the host tree is written
    all the same, the mirror keeps what it had, and the save ends with the
    error in the log. *)
Theorem X11_mirror_copy_can_be_missing (E : Env) (W : World) (C : Config)
    (url t ctype : string) (s : State) :
  let p1 := AssetStore.input_path E (input_dir C) url ctype in
  let p2 := AssetStore.src_path E (Crawler.src_dir E C) url ctype in
  let s' := Crawler.save_file E W C url (Str t) false ctype s in
  mkdir_ok W p1 = true -> mkdir_ok W p2 = true ->
  open_ok W p1 = true -> open_ok W p2 = false -> p1 <> p2 ->
  files s' !! p1 = Some (Str (fst (Rewriter.rewrite_urls E t url)))
  /\ files s' !! p2 = files s !! p2
  /\ last (trace s') = Some (Log Error (MSaveError url)).
Proof.
  cbv zeta. intros M1 M2 O1 O2 Hne.
  rewrite (save_text E W C url t ctype s M1 M2 O1), O2.
  split; [apply lookup_insert_eq|].
  split; [now apply lookup_insert_ne|].
  unfold Crawler.save_file. rewrite M1, M2, O1, O2. cbn [andb negb].
  destruct (Rewriter.rewrite_urls E t url) as [t' [|]]; session_simpl;
    apply last_snoc.
Qed.

(** X11 at a style sheet in a world whose mirror tree cannot be written. *)
Lemma X11_mirror_copy_can_be_missing_witness :
  let E := Demo.plain_env in
  let C := Scenario.config Scenario.root_url in
  let s := Scenario.started Scenario.no_mirror_world C in
  let s' := Crawler.save_file E Scenario.no_mirror_world C
              Scenario.missing_url (Str Scenario.plain_text) false "text/css"
              s in
  files s' !! "site/example.test/css/missing.css"
  = Some (Str Scenario.plain_text)
  /\ files s' !! "site/src/missing.css" = None
  /\ last (trace s') = Some (Log Error (MSaveError Scenario.missing_url)).
Proof.
  intros E C s s'.
  destruct (X11_mirror_copy_can_be_missing E Scenario.no_mirror_world C
              Scenario.missing_url Scenario.plain_text "text/css" s)
    as (H1 & H2 & H3);
    try reflexivity.
  - vm_compute. discriminate.
  - split; [exact H1|]. split; [exact H2|exact H3].
Defined.

(** ** Texts the rewriter leaves alone *)

Lemma strip_prefix_prefix (p s rest : string) :
  Rewriter.strip_prefix p s = Some rest -> String.prefix p s = true.
Proof.
  revert s. induction p as [|a p IH]; intros s H; [now destruct s|].
  destruct s as [|b s]; [discriminate|]. cbn in H |- *.
  destruct (Ascii.eqb a b) eqn:Hab; [|discriminate].
  apply Ascii.eqb_eq in Hab. subst b.
  destruct (ascii_dec a a) as [_|Hne]; [now apply IH|contradiction].
Qed.

Lemma prefix_app_l (p q s : string) :
  String.prefix (p +:+ q) s = true -> String.prefix p s = true.
Proof.
  revert s. induction p as [|a p IH]; intros s H; [now destruct s|].
  destruct s as [|b s]; [discriminate|].
  change (String a p +:+ q) with (String a (p +:+ q)) in H.
  cbn [String.prefix] in H |- *.
  destruct (ascii_dec a b); [now apply IH|discriminate].
Qed.

(** A match starts with [href=] or [src=]. *)
Lemma match_here_names (q : ascii) (s g0 g1 : string) :
  Rewriter.match_here q s = Some (g0, g1) ->
  String.prefix "href=" s = true \/ String.prefix "src=" s = true.
Proof.
  unfold Rewriter.match_here.
  destruct (Rewriter.strip_prefix ("href" +:+ "=" +:+ Rewriter.quote_str q) s)
    as [rest|] eqn:Hh.
  - intros _. left. apply strip_prefix_prefix in Hh.
    now apply (prefix_app_l "href=" (Rewriter.quote_str q)).
  - destruct (Rewriter.strip_prefix
                ("src" +:+ "=" +:+ Rewriter.quote_str q) s)
      as [rest|] eqn:Hs; [|discriminate].
    intros _. right. apply strip_prefix_prefix in Hs.
    now apply (prefix_app_l "src=" (Rewriter.quote_str q)).
Qed.

Lemma re_sub_no_match (q : ascii) (repl : string -> string -> option string)
    (s : string) :
  PyStr.contains "href=" s = false -> PyStr.contains "src=" s = false ->
  Rewriter.re_sub q repl s = Some s.
Proof.
  unfold Rewriter.re_sub. induction s as [|a s IH]; intros Hh Hs;
    [reflexivity|].
  cbn [PyStr.contains] in Hh, Hs.
  apply orb_false_iff in Hh as [Hh1 Hh2].
  apply orb_false_iff in Hs as [Hs1 Hs2].
  cbn [Rewriter.sub_from].
  destruct (Rewriter.match_here q (String a s)) as [[g0 g1]|] eqn:Hm.
  - apply match_here_names in Hm as [Hm|Hm]; congruence.
  - now rewrite IH.
Qed.

(** X12: a text that holds neither [href=] nor [src=] comes out of the
    rewriter as it went in, with no error. *)
Theorem X12_text_without_attributes_unchanged (E : Env)
    (content base_url : string) :
  PyStr.contains "href=" content = false ->
  PyStr.contains "src=" content = false ->
  Rewriter.rewrite_urls E content base_url = (content, false).
Proof.
  intros Hh Hs. unfold Rewriter.rewrite_urls.
  now rewrite !re_sub_no_match.
Qed.

(** X12 at a style rule. *)
Lemma X12_text_without_attributes_unchanged_witness :
  Rewriter.rewrite_urls Demo.plain_env Scenario.plain_text Scenario.page_url
  = (Scenario.plain_text, false).
Proof.
  apply X12_text_without_attributes_unchanged; reflexivity.
Defined.

(** ** What a run returns *)

(** X13: a run that returns reports success exactly when the root URL is
    not empty and the HTTP client could be made, whatever the crawl
    fetched; it leaves the [running] flag down, except on the return for an
    empty URL, which leaves it up. *)
Theorem X13_result_of_a_run (E : Env) (W : World) (C : Config) (fuel : nat)
    (b : bool) (s : State) :
  Crawler.download_website E W C fuel = Done b s ->
  b = PyStr.truthy (cfg_url C) && client_created W
  /\ running s = negb (PyStr.truthy (cfg_url C)).
Proof.
  unfold Crawler.download_website.
  destruct (PyStr.truthy (cfg_url C)); cbn [negb andb].
  - destruct (client_created W); cbn [negb].
    + destruct (Crawler.crawl_page E W C fuel (cfg_url C) 0 _) as [[] s3|s3];
        [|discriminate].
      intros [= <- <-]. split; reflexivity.
    + intros [= <- <-]. split; reflexivity.
  - intros [= <- <-]. split; reflexivity.
Qed.

(** X13 at a crawl of depth 0, and at a server that answers nothing. *)
Lemma X13_result_of_a_run_witness :
  (true = PyStr.truthy Scenario.root_url
          && client_created Scenario.front_world
   /\ running
        (res_state
           (Crawler.download_website Scenario.front_env Scenario.front_world
              (Scenario.with_depth 0 (Scenario.config Scenario.root_url)) 5))
      = negb (PyStr.truthy Scenario.root_url))
  /\ res_value
       (Crawler.download_website Demo.plain_env Scenario.silent
          (Scenario.config Scenario.root_url) 10)
     = Some true.
Proof.
  split; [|vm_compute; reflexivity].
  apply (X13_result_of_a_run Scenario.front_env Scenario.front_world
           (Scenario.with_depth 0 (Scenario.config Scenario.root_url)) 5).
  vm_compute. reflexivity.
Defined.

(** ** The HTML formatter *)

Lemma str_app_cons (a : ascii) (s q : string) :
  String a s +:+ q = String a (s +:+ q).
Proof. reflexivity. Qed.

Lemma str_app_nil_l (q : string) : EmptyString +:+ q = q.
Proof. reflexivity. Qed.

#[local] Arguments Formatter.is_space : simpl never.

Ltac str_simpl :=
  cbn; rewrite ?str_app_cons, ?str_app_nil_l; cbn.

Ltac str_simpl_in H :=
  cbn in H; rewrite ?str_app_cons, ?str_app_nil_l in H; cbn in H.


Section FormatterFacts.
Import Formatter.

Lemma str_app_nil_r (s : string) : s +:+ EmptyString = s.
Proof. induction s as [|a s IH]; str_simpl; [reflexivity|now f_equal]. Qed.

Lemma str_app_assoc (a b c : string) : (a +:+ b) +:+ c = a +:+ (b +:+ c).
Proof. induction a as [|x a IH]; str_simpl; [reflexivity|now f_equal]. Qed.

Lemma truthy_snoc (w : string) (c : ascii) :
  PyStr.truthy (w +:+ String c EmptyString) = true.
Proof. now destruct w. Qed.

Lemma all_space_snoc (w : string) (c : ascii) :
  all_space w = true -> is_space c = true ->
  all_space (w +:+ String c EmptyString) = true.
Proof.
  intros Hw Hc. induction w as [|x w IH]; str_simpl; [now rewrite Hc|].
  cbn in Hw. apply andb_true_iff in Hw as [-> Hw]. now apply IH.
Qed.

Lemma without_spaces_app (a b : string) :
  without_spaces (a +:+ b) = without_spaces a +:+ without_spaces b.
Proof.
  induction a as [|x a IH]; str_simpl; [reflexivity|].
  destruct (is_space x); str_simpl; now rewrite IH.
Qed.

Lemma without_spaces_all_space (w : string) :
  all_space w = true -> without_spaces w = EmptyString.
Proof.
  induction w as [|x w IH]; cbn; [reflexivity|].
  intros [-> Hw]%andb_true_iff. now apply IH.
Qed.

Lemma without_spaces_collapse (b : bool) (s : string) :
  without_spaces (collapse_spaces b s) = without_spaces s.
Proof.
  revert b. induction s as [|c s IH]; intros b; cbn; [reflexivity|].
  destruct (is_space c) eqn:Hc.
  - destruct b; cbn; now rewrite ?IH.
  - cbn. now rewrite Hc, IH.
Qed.

Lemma without_spaces_between_tags (sep : string) (p : option string)
    (s : string) :
  all_space sep = true -> all_space (pending_text p) = true ->
  without_spaces (between_tags sep p s) = without_spaces s.
Proof.
  intros Hsep. revert p.
  induction s as [|c s IH]; intros p Hp.
  - destruct p as [w|]; cbn in *; [now apply without_spaces_all_space|easy].
  - destruct p as [w|]; cbn [between_tags pending_text] in *.
    + destruct (is_space c) eqn:Hc.
      * cbn. rewrite Hc. apply IH. cbn. now apply all_space_snoc.
      * destruct (Ascii.eqb c "<" && PyStr.truthy w) eqn:Hm.
        -- apply andb_true_iff in Hm as [Hlt%Ascii.eqb_eq _]. subst c.
           rewrite without_spaces_app,
             (without_spaces_all_space sep Hsep).
           str_simpl. f_equal. now apply IH.
        -- rewrite without_spaces_app, (without_spaces_all_space w Hp).
           str_simpl. rewrite Hc. f_equal. apply IH.
           now destruct (Ascii.eqb c ">").
    + cbn. destruct (is_space c) eqn:Hc.
      * apply IH. now destruct (Ascii.eqb c ">").
      * f_equal. apply IH. now destruct (Ascii.eqb c ">").
Qed.

Lemma without_spaces_strip_line_starts (b : bool) (s : string) :
  without_spaces (strip_line_starts b s) = without_spaces s.
Proof.
  revert b. induction s as [|c s IH]; intros b; cbn; [reflexivity|].
  destruct (is_space c) eqn:Hc.
  - destruct b; cbn; rewrite ?Hc; apply IH.
  - rewrite andb_false_r. cbn. now rewrite Hc, IH.
Qed.

Lemma without_spaces_lstrip (s : string) :
  without_spaces (lstrip s) = without_spaces s.
Proof.
  induction s as [|c s IH]; cbn; [reflexivity|].
  destruct (is_space c) eqn:Hc; [exact IH|]. cbn. now rewrite Hc.
Qed.

Lemma without_spaces_rstrip (s : string) :
  without_spaces (rstrip s) = without_spaces s.
Proof.
  induction s as [|c s IH]; cbn; [reflexivity|].
  destruct (rstrip s) as [|d r] eqn:Hr.
  - cbn in IH. destruct (is_space c) eqn:Hc; cbn; rewrite ?Hc;
      now rewrite <- IH.
  - cbn [without_spaces] in *. now rewrite IH.
Qed.


Lemma without_spaces_strip (s : string) :
  without_spaces (strip s) = without_spaces s.
Proof.
  unfold strip. now rewrite without_spaces_rstrip, without_spaces_lstrip.
Qed.

(** *** What [collapse_spaces] leaves *)

Lemma tidy_collapse (b : bool) (s : string) :
  tidy b (collapse_spaces b s) = true.
Proof.
  revert b. induction s as [|c s IH]; intros b; cbn; [reflexivity|].
  destruct (is_space c) eqn:Hc.
  - destruct b; [apply IH|]. cbn.
    change (is_space " ") with true. cbn. apply IH.
  - cbn. rewrite Hc. apply IH.
Qed.

Lemma collapse_tidy (b : bool) (s : string) :
  tidy b s = true -> collapse_spaces b s = s.
Proof.
  revert b. induction s as [|c s IH]; intros b; cbn; [reflexivity|].
  destruct (is_space c) eqn:Hc.
  - intros [[Hsp%Ascii.eqb_eq Hb%negb_true_iff]%andb_true_iff Ht]%andb_true_iff.
    subst. f_equal. now apply IH.
  - intros Ht. f_equal. now apply IH.
Qed.

Lemma tidy_split (b : bool) (w : string) (c : ascii) (r : string) :
  is_space c = false ->
  tidy b (w +:+ String c r)
  = tidy b (w +:+ String c EmptyString) && tidy false r.
Proof.
  intros Hc. revert b. induction w as [|x w IH]; intros b; str_simpl.
  - now rewrite Hc.
  - destruct (is_space x); [|apply IH].
    rewrite IH. now rewrite !andb_assoc.
Qed.

Lemma tidy_between_tags (b : bool) (p : option string) (s : string) :
  tidy b (pending_text p +:+ s) = true ->
  tidy b (between_tags EmptyString p s) = true.
Proof.
  revert b p. induction s as [|c s IH]; intros b p H.
  - rewrite str_app_nil_r in H. now destruct p.
  - destruct p as [w|]; cbn [between_tags pending_text] in *.
    + destruct (is_space c) eqn:Hc.
      * apply IH. cbn [pending_text]. now rewrite str_app_assoc.
      * rewrite (tidy_split b w c s Hc) in H.
        apply andb_true_iff in H as [Hw Hs].
        destruct (Ascii.eqb c "<" && PyStr.truthy w) eqn:Hm.
        -- str_simpl. change (is_space "<") with false. cbn.
           now apply (IH false None).
        -- rewrite (tidy_split b w c _ Hc), Hw. cbn.
           destruct (Ascii.eqb c ">"); now apply IH.
    + str_simpl_in H. str_simpl. destruct (is_space c) eqn:Hc.
      * apply andb_true_iff in H as [-> Ht]. cbn.
        destruct (Ascii.eqb c ">"); now apply IH.
      * destruct (Ascii.eqb c ">"); now apply IH.
Qed.

(** *** Whitespace between tags *)

Lemma gaps_ok_app_space (sep v w x : string) :
  all_space w = true ->
  gaps_ok sep (Some v) (w +:+ x) = gaps_ok sep (Some (v +:+ w)) x.
Proof.
  revert v. induction w as [|c w IH]; intros v Hw.
  - now rewrite str_app_nil_r.
  - cbn in Hw. apply andb_true_iff in Hw as [Hc Hw].
    str_simpl. rewrite Hc. cbn. rewrite (IH _ Hw).
    now rewrite str_app_assoc.
Qed.

Lemma is_space_not_gt (c : ascii) :
  is_space c = true -> Ascii.eqb c ">" = false.
Proof.
  destruct (Ascii.eqb_spec c ">") as [->|_]; [discriminate|reflexivity].
Qed.

Lemma between_tags_fixed (sep : string) (p : option string) (t : string) :
  gaps_ok sep p t = true ->
  between_tags sep p t = pending_text p +:+ t.
Proof.
  revert p. induction t as [|c t IH]; intros p H.
  - destruct p; cbn; [now rewrite str_app_nil_r|reflexivity].
  - cbn in H.
    destruct p as [w|]; cbn [between_tags pending_text option_map] in *.
    + destruct (is_space c) eqn:Hc.
      * rewrite (IH _ H). cbn. now rewrite str_app_assoc.
      * apply andb_true_iff in H as [Hcond Hr].
        destruct (Ascii.eqb_spec c "<") as [->|Hlt]; cbn in Hcond |- *.
        -- change (Ascii.eqb "<" ">") with false in *. cbv iota in *.
           destruct (PyStr.truthy w) eqn:Hw; cbn in Hcond |- *.
           ++ apply negb_true_iff, negb_false_iff, String.eqb_eq in Hcond.
              subst. now rewrite (IH None Hr).
           ++ now rewrite (IH None Hr).
        -- rewrite (IH _ Hr). now destruct (Ascii.eqb c ">").
    + str_simpl. destruct (is_space c) eqn:Hc.
      * rewrite (is_space_not_gt c Hc). now rewrite (IH _ H).
      * rewrite andb_false_r in H. cbn in H. rewrite (IH _ H).
        now destruct (Ascii.eqb c ">").
Qed.

Lemma gaps_ok_between_tags (sep : string) (p : option string) (s : string) :
  all_space sep = true -> all_space (pending_text p) = true ->
  gaps_ok sep (option_map (fun _ => EmptyString) p) (between_tags sep p s)
  = true.
Proof.
  intros Hsep. revert p. induction s as [|c s IH]; intros p Hp.
  - destruct p as [w|]; cbn in *; [|reflexivity].
    rewrite <- (str_app_nil_r w) at 1.
    now rewrite gaps_ok_app_space.
  - destruct p as [w|]; cbn [between_tags pending_text option_map] in *.
    + destruct (is_space c) eqn:Hc.
      * apply (IH (Some _)). cbn. now apply all_space_snoc.
      * destruct (Ascii.eqb c "<" && PyStr.truthy w) eqn:Hm.
        -- rewrite gaps_ok_app_space by exact Hsep. str_simpl.
           change (is_space "<") with false. cbn.
           rewrite String.eqb_refl, andb_false_r. cbn.
           apply (IH None). reflexivity.
        -- rewrite gaps_ok_app_space by exact Hp. str_simpl.
           rewrite Hc. rewrite andb_false_r || idtac.
           destruct (Ascii.eqb c "<") eqn:Hlt; cbn in Hm |- *.
           ++ rewrite Hm. cbn.
              apply Ascii.eqb_eq in Hlt. subst.
              apply (IH None). reflexivity.
           ++ destruct (Ascii.eqb c ">");
                [apply (IH (Some EmptyString))|apply (IH None)]; reflexivity.
    + cbn. destruct (is_space c) eqn:Hc.
      * rewrite (is_space_not_gt c Hc). apply (IH None). reflexivity.
      * rewrite andb_false_r. cbn.
        destruct (Ascii.eqb c ">");
          [apply (IH (Some EmptyString))|apply (IH None)]; reflexivity.
Qed.

(** *** [strip] *)

Lemma head_clean_lstrip (s : string) : head_clean (lstrip s) = true.
Proof.
  induction s as [|c s IH]; cbn; [reflexivity|].
  destruct (is_space c) eqn:Hc; [exact IH|]. cbn. now rewrite Hc.
Qed.

Lemma head_clean_rstrip (s : string) :
  head_clean s = true -> head_clean (rstrip s) = true.
Proof.
  destruct s as [|c s]; cbn; [reflexivity|]. intros Hc.
  destruct (rstrip s); [|exact Hc].
  apply negb_true_iff in Hc. rewrite Hc. cbn. now rewrite Hc.
Qed.

Lemma lstrip_fixed (s : string) : head_clean s = true -> lstrip s = s.
Proof.
  destruct s as [|c s]; cbn; [reflexivity|].
  now intros ->%negb_true_iff.
Qed.

Lemma rstrip_rstrip (s : string) : rstrip (rstrip s) = rstrip s.
Proof.
  induction s as [|c s IH]; cbn; [reflexivity|].
  destruct (rstrip s) as [|d r] eqn:Hr.
  - destruct (is_space c) eqn:Hc; cbn; [reflexivity|now rewrite Hc].
  - change (rstrip (String c (String d r)))
      with (match rstrip (String d r) with
            | EmptyString =>
                if is_space c then EmptyString else String c EmptyString
            | r' => String c r'
            end).
    now rewrite IH.
Qed.

Lemma strip_strip (s : string) : strip (strip s) = strip s.
Proof.
  unfold strip.
  rewrite (lstrip_fixed (rstrip (lstrip s)))
    by apply head_clean_rstrip, head_clean_lstrip.
  apply rstrip_rstrip.
Qed.

Lemma tidy_lstrip (b b' : bool) (s : string) :
  tidy b s = true -> tidy b' (lstrip s) = true.
Proof.
  revert b. induction s as [|c s IH]; intros b; cbn; [reflexivity|].
  destruct (is_space c) eqn:Hc.
  - intros [_ Ht]%andb_true_iff. now apply (IH true).
  - cbn. now rewrite Hc.
Qed.

Lemma tidy_rstrip (b : bool) (s : string) :
  tidy b s = true -> tidy b (rstrip s) = true.
Proof.
  revert b. induction s as [|c s IH]; intros b; cbn; [reflexivity|].
  destruct (rstrip s) as [|d r] eqn:Hr.
  - destruct (is_space c) eqn:Hc; cbn; [reflexivity|now rewrite Hc].
  - cbn [tidy]. destruct (is_space c) eqn:Hc.
    + intros [Hb Ht]%andb_true_iff. rewrite Hb. now apply (IH true).
    + apply (IH false).
Qed.

Lemma gaps_ok_weaken (sep : string) (st : option string) (s : string) :
  head_clean s = true ->
  gaps_ok sep st s = true -> gaps_ok sep None s = true.
Proof.
  destruct s as [|c s]; cbn; [reflexivity|].
  intros ->%negb_true_iff [_ H]%andb_true_iff.
  now rewrite andb_false_r.
Qed.

Lemma gaps_ok_lstrip (sep : string) (st : option string) (s : string) :
  gaps_ok sep st s = true -> gaps_ok sep None (lstrip s) = true.
Proof.
  revert st. induction s as [|c s IH]; intros st; [reflexivity|].
  cbn [lstrip]. destruct (is_space c) eqn:Hc.
  - cbn. rewrite Hc. apply IH.
  - apply gaps_ok_weaken. cbn. now rewrite Hc.
Qed.

Lemma gaps_ok_rstrip (sep : string) (st : option string) (s : string) :
  gaps_ok sep st s = true -> gaps_ok sep st (rstrip s) = true.
Proof.
  revert st. induction s as [|c s IH]; intros st; cbn; [reflexivity|].
  destruct (rstrip s) as [|d r] eqn:Hr.
  - destruct (is_space c) eqn:Hc; cbn; [reflexivity|]. rewrite Hc.
    intros [-> _]%andb_true_iff. reflexivity.
  - cbn [gaps_ok]. destruct (is_space c) eqn:Hc.
    + apply IH.
    + intros [-> H]%andb_true_iff. now apply IH.
Qed.

(** *** [strip_line_starts] *)

Lemma lines_start_clean_strip (b : bool) (s : string) :
  lines_start_clean b (strip_line_starts b s) = true.
Proof.
  revert b. induction s as [|c s IH]; intros b; cbn; [reflexivity|].
  destruct (b && is_space c) eqn:Hb.
  - apply andb_true_iff in Hb as [-> _]. apply IH.
  - cbn. rewrite Hb. apply IH.
Qed.

Lemma strip_line_starts_fixed (b : bool) (s : string) :
  lines_start_clean b s = true -> strip_line_starts b s = s.
Proof.
  revert b. induction s as [|c s IH]; intros b; cbn; [reflexivity|].
  intros [->%negb_true_iff H]%andb_true_iff. f_equal. now apply IH.
Qed.

Lemma gaps_ok_strip_line_starts (b : bool) (st st' : option string)
    (s : string) :
  gap_rel b st st' ->
  gaps_ok (String line_feed EmptyString) st s = true ->
  gaps_ok (String line_feed EmptyString) st' (strip_line_starts b s) = true.
Proof.
  revert b st st'. induction s as [|c s IH]; intros b st st' R;
    [reflexivity|].
  cbn [gaps_ok strip_line_starts].
  destruct (is_space c) eqn:Hc.
  - destruct b; cbn [andb].
    + intros H. eapply IH; [|exact H].
      destruct st as [w|], st' as [w'|]; cbn in R |- *; try easy.
      right. split; [reflexivity|].
      destruct R as [->|[_ [x ->]]].
      * now exists (String c EmptyString).
      * exists (x +:+ String c EmptyString). now rewrite str_app_assoc.
    + intros H. cbn [gaps_ok]. rewrite Hc. eapply IH; [|exact H].
      destruct st as [w|], st' as [w'|]; cbn in R |- *; try easy.
      left. destruct R as [->|[[=] _]]. reflexivity.
  - rewrite andb_false_r. cbn [gaps_ok]. rewrite Hc.
    intros [Hcond H]%andb_true_iff.
    apply andb_true_iff. split.
    + destruct (Ascii.eqb c "<"); [|reflexivity]. cbn in Hcond |- *.
      destruct st as [w|], st' as [w'|]; cbn in R; try easy.
      destruct R as [->|[_ [x ->]]]; [exact Hcond|].
      destruct w' as [|a w']; [reflexivity|].
      cbn in Hcond |- *.
      apply negb_true_iff, negb_false_iff, String.eqb_eq in Hcond.
      injection Hcond as -> Hx.
      destruct w'; [reflexivity|discriminate].
    + eapply IH; [|exact H].
      destruct (Ascii.eqb c ">"); cbn; auto.
Qed.


Lemma minified_normal (content : string) :
  let t := minify_html content in
  tidy false t = true
  /\ gaps_ok EmptyString None t = true
  /\ strip t = t.
Proof.
  cbn zeta. unfold minify_html. repeat split.
  - unfold strip. apply tidy_rstrip, (tidy_lstrip false).
    apply (tidy_between_tags false None). apply tidy_collapse.
  - unfold strip. apply gaps_ok_rstrip, (gaps_ok_lstrip _ None).
    now apply (gaps_ok_between_tags EmptyString None).
  - apply strip_strip.
Qed.

Lemma beautified_normal (content : string) :
  let t := beautify_html content in
  lines_start_clean true t = true
  /\ gaps_ok (String line_feed EmptyString) None t = true.
Proof.
  cbn zeta. unfold beautify_html. split.
  - apply lines_start_clean_strip.
  - apply (gaps_ok_strip_line_starts true None None); [exact I|].
    now apply (gaps_ok_between_tags _ None).
Qed.

End FormatterFacts.

(** X14.  Formatting HTML changes whitespace only: with all whitespace
    taken out, the minified text and the beautified text are both the
    input with all whitespace taken out. *)
Theorem X14_formatting_only_touches_whitespace (content : string) :
  Formatter.without_spaces (Formatter.minify_html content)
  = Formatter.without_spaces content
  /\ Formatter.without_spaces (Formatter.beautify_html content)
     = Formatter.without_spaces content.
Proof.
  unfold Formatter.minify_html, Formatter.beautify_html. split.
  - rewrite without_spaces_strip, without_spaces_between_tags,
      without_spaces_collapse; reflexivity.
  - rewrite without_spaces_strip_line_starts, without_spaces_between_tags;
      reflexivity.
Qed.

(** X15.  In beautified HTML no line starts with a whitespace character:
    no line is indented and no line feed follows a line feed; and where
    whitespace stands between a [>] and the next [<] it is exactly one line
    feed. *)
Theorem X15_beautified_lines (content : string) :
  let t := Formatter.beautify_html content in
  Formatter.lines_start_clean true t = true
  /\ Formatter.gaps_ok (String Formatter.line_feed EmptyString) None t
     = true.
Proof. apply beautified_normal. Qed.

(** X16.  In minified HTML all whitespace is single spaces, never two in
    a row, never at either end of the text, and never between a [>] and
    the next [<]. *)
Theorem X16_minified_whitespace (content : string) :
  let t := Formatter.minify_html content in
  Formatter.tidy false t = true
  /\ Formatter.gaps_ok EmptyString None t = true
  /\ Formatter.strip t = t.
Proof. apply minified_normal. Qed.

(** X17.  Minifying is idempotent: minifying minified HTML changes
    nothing. *)
Theorem X17_minify_twice (content : string) :
  Formatter.minify_html (Formatter.minify_html content)
  = Formatter.minify_html content.
Proof.
  destruct (minified_normal content) as (Ht & Hg & Hs).
  cbn zeta in *. unfold Formatter.minify_html at 1.
  rewrite (collapse_tidy false _ Ht).
  rewrite (between_tags_fixed _ None _ Hg).
  exact Hs.
Qed.

(** X18.  Beautifying, and so de-obfuscating, is idempotent: a second
    pass over its own output changes nothing. *)
Theorem X18_beautify_twice (content : string) :
  Formatter.beautify_html (Formatter.beautify_html content)
  = Formatter.beautify_html content
  /\ Formatter.deobfuscate_html (Formatter.deobfuscate_html content)
     = Formatter.deobfuscate_html content.
Proof.
  assert (H : Formatter.beautify_html (Formatter.beautify_html content)
              = Formatter.beautify_html content).
  { destruct (beautified_normal content) as (Hl & Hg).
    cbn zeta in *. unfold Formatter.beautify_html at 1.
    rewrite (between_tags_fixed _ None _ Hg).
    now apply strip_line_starts_fixed. }
  split; [exact H|exact H].
Qed.
